(** * PyFAT12: a FAT12 driver for floppy images

    Shallow embedding of [pyfat12/floppy.py], [pyfat12/path/path.py] and
    [pyfat12/fs.py], followed by the properties of the on-disk codecs, of
    path resolution and of the mutating operations.

    Conventions of the embedding.
    - A Python [int] is a [Z]; [&], [|], [<<], [>>] and [~] are [Z.land],
      [Z.lor], [Z.shiftl], [Z.shiftr] and [Z.lnot]; [//] and [%] are [Z.div]
      and [Z.modulo] (both floor, as in Python).
    - [bytes] and [bytearray] are lists of integers in [0, 256).
    - A [str] is the list of its code points.
    - A method of a class is a function in the monad [M] of the object's
      state: it returns a value or raises, and the state it leaves behind
      is kept in both cases (Python does not roll back on an exception).
    - A [while] loop takes fuel; the fuel given is more than any terminating
      run needs, so that running out ([Diverges]) stands for a loop that
      never ends. *)

From Stdlib Require Import ZArith List Lia Bool String Ascii Eqdep_dec.
Import ListNotations.
Local Open Scope Z_scope.

(** ** Exceptions and results *)

Inductive exn : Type :=
| ValueError (msg : string)
| NotImplementedError
| AssertionError
| IOError (msg : string)
| FileNotFoundError
| IndexError
| NameError (name : string)
| UnboundLocalError (name : string)
| TypeError
| StructError
| UnicodeEncodeError
| Diverges.

Inductive result (A : Type) : Type :=
| Ok (a : A)
| Raise (e : exn).
Arguments Ok {A} a.
Arguments Raise {A} e.

Definition rbind {A B} (m : result A) (k : A -> result B) : result B :=
  match m with
  | Ok a => k a
  | Raise e => Raise e
  end.

Notation "x <-- m ;; k" := (rbind m (fun x => k))
  (at level 61, m at next level, right associativity).

Definition rmap {A B} (f : A -> B) (m : result A) : result B :=
  match m with
  | Ok a => Ok (f a)
  | Raise e => Raise e
  end.

Definition rassert (b : bool) : result unit :=
  if b then Ok tt else Raise AssertionError.

(** ** Sequences: indexing, slices and ranges as Python has them *)

Definition bytes := list Z.
Definition str := list Z.

Definition is_byte (b : Z) : bool := (0 <=? b) && (b <? 256).

Definition clamp (len i : Z) : Z :=
  if i <? 0 then Z.max 0 (i + len) else Z.min i len.

(** [l[i:j]]: a negative index counts from the end, and both ends are
    brought into the sequence.  With both indices non-negative the length
    is not needed: [firstn] and [skipn] stop at the end by themselves
    (see [slice_clamp]). *)
Definition slice {A} (l : list A) (i j : Z) : list A :=
  if (i <? 0) || (j <? 0) then
    let n := Zlength l in
    let a := clamp n i in
    let b := clamp n j in
    firstn (Z.to_nat (b - a)) (skipn (Z.to_nat a) l)
  else firstn (Z.to_nat (j - i)) (skipn (Z.to_nat i) l).

(** [l[i:]] and [l[:j]] *)
Definition slice_from {A} (l : list A) (i : Z) : list A :=
  if i <? 0 then skipn (Z.to_nat (clamp (Zlength l) i)) l
  else skipn (Z.to_nat i) l.
Definition slice_to {A} (l : list A) (j : Z) : list A :=
  if j <? 0 then firstn (Z.to_nat (clamp (Zlength l) j)) l
  else firstn (Z.to_nat j) l.

(** [l[i:j] = v]: the slice is replaced, whatever the length of [v]; at or
    past the end the new items are appended (see [slice_set_clamp]). *)
Definition slice_set {A} (l : list A) (i j : Z) (v : list A) : list A :=
  if (i <? 0) || (j <? 0) then
    let n := Zlength l in
    let a := clamp n i in
    let b := Z.max a (clamp n j) in
    firstn (Z.to_nat a) l ++ v ++ skipn (Z.to_nat b) l
  else firstn (Z.to_nat i) l ++ v ++ skipn (Z.to_nat (Z.max i j)) l.

(** [l[i]] *)
Definition index {A} (l : list A) (i : Z) : result A :=
  let k := if i <? 0 then i + Zlength l else i in
  if k <? 0 then Raise IndexError
  else match nth_error l (Z.to_nat k) with
       | Some x => Ok x
       | None => Raise IndexError
       end.

(** [l[i] = v] *)
Definition index_set {A} (l : list A) (i : Z) (v : A) : result (list A) :=
  let k := if i <? 0 then i + Zlength l else i in
  if k <? 0 then Raise IndexError
  else match skipn (Z.to_nat k) l with
       | [] => Raise IndexError
       | _ :: r => Ok (firstn (Z.to_nat k) l ++ v :: r)
       end.

(** [len(l) <= k] and [len(l) < k], decided without walking [l] past its
    item [k] (see [len_le_spec] and [len_lt_spec]). *)
Definition len_le {A} (l : list A) (k : Z) : bool :=
  (0 <=? k) && match skipn (Z.to_nat k) l with [] => true | _ => false end.
Definition len_lt {A} (l : list A) (k : Z) : bool :=
  len_le l (k - 1).

(** [range(a, b, step)] for a positive step *)
Fixpoint range_from (a step : Z) (count : nat) : list Z :=
  match count with
  | O => []
  | S c => a :: range_from (a + step) step c
  end.

Definition range (a b step : Z) : list Z :=
  range_from a step (Z.to_nat ((b - a + step - 1) / step)).

(** [bytearray(n)], [bytes(n)] and [b"\0" * n] *)
Definition zeros (n : Z) : bytes := repeat 0 (Z.to_nat n).

(** [l.ljust(n)] on bytes: padded with spaces. *)
Definition ljust (l : bytes) (n : Z) : bytes :=
  l ++ repeat 32 (Z.to_nat (n - Zlength l)).

Fixpoint list_eqb (a b : list Z) : bool :=
  match a, b with
  | [], [] => true
  | x :: a', y :: b' => (x =? y) && list_eqb a' b'
  | _, _ => false
  end.

Definition mem (x : Z) (l : list Z) : bool := existsb (Z.eqb x) l.

(** ** [struct.pack] and [struct.unpack], little-endian unsigned fields *)

Fixpoint le_bytes (n : nat) (x : Z) : bytes :=
  match n with
  | O => []
  | S n' => x mod 256 :: le_bytes n' (x / 256)
  end.

Fixpoint le_value (b : bytes) : Z :=
  match b with
  | [] => 0
  | x :: b' => x + 256 * le_value b'
  end.

(** One field of [n] bytes ([B], [H], [I] for 1, 2, 4). *)
Definition struct_pack_uint (n : nat) (x : Z) : result bytes :=
  if (0 <=? x) && (x <? 256 ^ Z.of_nat n) then Ok (le_bytes n x)
  else Raise StructError.

Definition struct_unpack_uint (n : nat) (b : bytes) : result Z :=
  if Nat.eqb (List.length b) n then Ok (le_value b) else Raise StructError.

(** A format is the list of its field widths. *)
Fixpoint struct_pack (fmt : list nat) (vals : list Z) : result bytes :=
  match fmt, vals with
  | [], [] => Ok []
  | n :: fmt', x :: vals' =>
      b <-- struct_pack_uint n x ;;
      r <-- struct_pack fmt' vals' ;;
      Ok (b ++ r)
  | _, _ => Raise StructError
  end.

Fixpoint struct_fields (fmt : list nat) (b : bytes) : list Z :=
  match fmt with
  | [] => []
  | n :: fmt' => le_value (firstn n b) :: struct_fields fmt' (skipn n b)
  end.

Definition struct_unpack (fmt : list nat) (b : bytes) : result (list Z) :=
  if Nat.eqb (List.length b) (fold_right Nat.add O fmt) then Ok (struct_fields fmt b)
  else Raise StructError.

(** ** The FAT codec: twelve-bit entries, two to three bytes

    [fat_unpack] is the loop of [_readfat], [fat_pack] the one of
    [_writefat]. *)

Fixpoint fat_unpack (data : bytes) : result (list Z) :=
  match data with
  | [] => Ok []
  | b0 :: b1 :: b2 :: rest =>
      pair <-- struct_unpack_uint 4 ([b0; b1; b2] ++ [0]) ;;
      tl <-- fat_unpack rest ;;
      Ok (Z.land pair 0xFFF :: Z.land (Z.shiftr pair 12) 0xFFF :: tl)
  | _ => Raise StructError
  end.

(** [if len(self._fat) & 1: self._fat.append(0)] *)
Definition fat_pad (fat : list Z) : list Z :=
  if Z.land (Zlength fat) 1 =? 0 then fat else fat ++ [0].

(** The three bytes of two entries. *)
Definition fat_pack_pair (e0 e1 : Z) : result bytes :=
  w <-- struct_pack_uint 4
          (Z.lor (Z.land e0 0xFFF) (Z.shiftl (Z.land e1 0xFFF) 12)) ;;
  Ok (slice_to w 3).

(** The loop of [_writefat] as it is written: one assignment
    [fats[j:j + 3] = ...] for each pair of entries. *)
Fixpoint fat_pack_loop (fat : list Z) (fats : bytes) (j : Z) : result bytes :=
  match fat with
  | [] => Ok fats
  | e0 :: e1 :: rest =>
      w <-- fat_pack_pair e0 e1 ;;
      fat_pack_loop rest (slice_set fats j (j + 3) w) (j + 3)
  | [_] => Raise IndexError
  end.

(** The bytes these assignments write, one after the other.  The slices
    are consecutive from [0] on, so the loop as a whole is the one
    assignment [fats[0:len(chunks)] = chunks] (see [fat_pack_loop_chunks]);
    [fat_pack] is the loop in this form. *)
Fixpoint fat_pack_chunks (fat : list Z) : result bytes :=
  match fat with
  | [] => Ok []
  | e0 :: e1 :: rest =>
      w <-- fat_pack_pair e0 e1 ;;
      r <-- fat_pack_chunks rest ;;
      Ok (w ++ r)
  | [_] => Raise IndexError
  end.

Definition fat_pack (size : Z) (fat : list Z) : result bytes :=
  chunks <-- fat_pack_chunks fat ;;
  Ok (slice_set (zeros size) 0 (Zlength chunks) chunks).

(** ** [datetime.datetime]

    A [datetime] is a date of the calendar with a time of day, as the
    constructor of Python's class checks it.  The microsecond field, which
    the driver never reads and the decoder leaves at zero, is not kept. *)

Definition is_leap (y : Z) : bool :=
  ((y mod 4 =? 0) && negb (y mod 100 =? 0)) || (y mod 400 =? 0).

Definition days_in_month (y m : Z) : Z :=
  if m =? 2 then (if is_leap y then 29 else 28)
  else if (m =? 4) || (m =? 6) || (m =? 9) || (m =? 11) then 30
  else 31.

Definition datetime_fields_ok (y mo d h mi s : Z) : bool :=
  (1 <=? y) && (y <=? 9999) && (1 <=? mo) && (mo <=? 12) &&
  (1 <=? d) && (d <=? days_in_month y mo) &&
  (0 <=? h) && (h <=? 23) && (0 <=? mi) && (mi <=? 59) &&
  (0 <=? s) && (s <=? 59).

Record datetime : Type := mk_datetime {
  year : Z;
  month : Z;
  day : Z;
  hour : Z;
  minute : Z;
  second : Z;
  datetime_ok : datetime_fields_ok year month day hour minute second = true
}.

(** [datetime.datetime(year, month, day, hour, minute, second)] *)
Definition datetime_new (y mo d h mi s : Z) : result datetime :=
  match bool_dec (datetime_fields_ok y mo d h mi s) true with
  | left H => Ok (mk_datetime y mo d h mi s H)
  | right _ => Raise (ValueError "datetime field out of range")
  end.

Definition datetime_tuple (t : datetime) : Z * Z * Z * Z * Z * Z :=
  (year t, month t, day t, hour t, minute t, second t).

(** ** Packed date and time *)

Definition _edt_to_pdt (dt : bytes) : result datetime :=
  i <-- struct_unpack_uint 4 dt ;;
  let second := Z.land i 0x1F * 2 in
  let minute := Z.land (Z.shiftr i 5) 0x3F in
  let hour := Z.land (Z.shiftr i 11) 0x1F in
  let day := Z.land (Z.shiftr i 16) 0x1F in
  let month := Z.land (Z.shiftr i 21) 0x0F in
  let year := 1980 + Z.land (Z.shiftr i 25) 0x7F in
  datetime_new year month day hour minute second.

Definition _pdt_to_edt (dt : datetime) : result bytes :=
  let '(year, month, day, hour, minute, second) :=
    (year dt, month dt, day dt, hour dt, minute dt, second dt / 2) in
  let '(year, month, day, hour, minute, second) :=
    (Z.land (year - 1980) 0x7F, Z.land month 0x0F, Z.land day 0x1F,
     Z.land hour 0x1F, Z.land minute 0x3F, Z.land second 0x1F) in
  let i :=
    Z.lor (Z.lor (Z.lor (Z.lor (Z.lor
      (Z.shiftl year 25)
      (Z.shiftl month 21))
      (Z.shiftl day 16))
      (Z.shiftl hour 11))
      (Z.shiftl minute 5))
      second in
  struct_pack_uint 4 i.

(** ** Strings: the CP437 codec and the [str] methods the driver calls *)

(** [py "A.TXT"]: the literal as a [str], or as [bytes] for [b"..."]. *)
Definition py (s : string) : list Z :=
  map (fun a => Z.of_nat (nat_of_ascii a)) (list_ascii_of_string s).

(** Code points of the bytes [0x80] to [0xFF]. *)
Definition cp437_high : list Z :=
  [199; 252; 233; 226; 228; 224; 229; 231; 234; 235; 232; 239; 238; 236; 196;
   197; 201; 230; 198; 244; 246; 242; 251; 249; 255; 214; 220; 162; 163; 165;
   8359; 402; 225; 237; 243; 250; 241; 209; 170; 186; 191; 8976; 172; 189;
   188; 161; 171; 187; 9617; 9618; 9619; 9474; 9508; 9569; 9570; 9558; 9557;
   9571; 9553; 9559; 9565; 9564; 9563; 9488; 9492; 9524; 9516; 9500; 9472;
   9532; 9566; 9567; 9562; 9556; 9577; 9574; 9568; 9552; 9580; 9575; 9576;
   9572; 9573; 9561; 9560; 9554; 9555; 9579; 9578; 9496; 9484; 9608; 9604;
   9612; 9616; 9600; 945; 223; 915; 960; 931; 963; 181; 964; 934; 920; 937;
   948; 8734; 966; 949; 8745; 8801; 177; 8805; 8804; 8992; 8993; 247; 8776;
   176; 8729; 183; 8730; 8319; 178; 9632; 160].

Definition cp437_decode_byte (b : Z) : Z :=
  if b <? 128 then b else nth (Z.to_nat (b - 128)) cp437_high 0.

(** [b.decode("cp437")] *)
Definition decode_cp437 (b : bytes) : str := map cp437_decode_byte b.

Fixpoint position (c : Z) (l : list Z) (i : Z) : option Z :=
  match l with
  | [] => None
  | x :: l' => if x =? c then Some i else position c l' (i + 1)
  end.

Definition cp437_encode_char (c : Z) : result Z :=
  if (0 <=? c) && (c <? 128) then Ok c
  else match position c cp437_high 128 with
       | Some b => Ok b
       | None => Raise UnicodeEncodeError
       end.

(** [s.encode("cp437")] *)
Fixpoint encode_cp437 (s : str) : result bytes :=
  match s with
  | [] => Ok []
  | c :: s' =>
      b <-- cp437_encode_char c ;;
      r <-- encode_cp437 s' ;;
      Ok (b :: r)
  end.

(** [s.upper()], given on Latin-1 and on the repertoire of CP437; a code
    point outside them is left as it is. *)
Definition upper_char (c : Z) : list Z :=
  if (97 <=? c) && (c <=? 122) then [c - 32]
  else if c =? 181 then [924]
  else if c =? 223 then [83; 83]
  else if (224 <=? c) && (c <=? 254) && negb (c =? 247) then [c - 32]
  else if c =? 255 then [376]
  else if c =? 402 then [401]
  else if c =? 945 then [913]
  else if c =? 948 then [916]
  else if c =? 949 then [917]
  else if c =? 960 then [928]
  else if c =? 963 then [931]
  else if c =? 964 then [932]
  else if c =? 966 then [934]
  else [c].

Definition upper (s : str) : str := flat_map upper_char s.

(** The code points [str.isspace] accepts. *)
Definition is_space (c : Z) : bool :=
  mem c [9; 10; 11; 12; 13; 28; 29; 30; 31; 32; 133; 160; 5760; 8192; 8193;
         8194; 8195; 8196; 8197; 8198; 8199; 8200; 8201; 8202; 8232; 8233;
         8239; 8287; 12288].

(** [s.rstrip()] *)
Fixpoint rstrip (s : str) : str :=
  match s with
  | [] => []
  | c :: s' =>
      match rstrip s' with
      | [] => if is_space c then [] else [c]
      | r => c :: r
      end
  end.

Definition nonempty {A} (l : list A) : bool :=
  match l with [] => false | _ => true end.

(** [s.replace("\\", "/")] *)
Definition replace_backslash (s : str) : str :=
  map (fun c => if c =? 92 then 47 else c) s.

(** The two sides of the first [c] in [s]: [s[:s.find(c)]] and
    [s[s.find(c) + 1:]]. *)
Fixpoint break_at (c : Z) (s : str) : option (str * str) :=
  match s with
  | [] => None
  | x :: s' =>
      if x =? c then Some ([], s')
      else match break_at c s' with
           | Some (h, t) => Some (x :: h, t)
           | None => None
           end
  end.

(** The two sides of the last [c] in [s]: [s.rsplit(c, 1)]. *)
Fixpoint rbreak_at (c : Z) (s : str) : option (str * str) :=
  match s with
  | [] => None
  | x :: s' =>
      match rbreak_at c s' with
      | Some (h, t) => Some (x :: h, t)
      | None => if x =? c then Some ([], s') else None
      end
  end.

Definition endswith (s : str) (c : Z) : bool :=
  match rev s with
  | x :: _ => x =? c
  | [] => false
  end.

(** ** [pyfat12.path] *)

Module Path.

Definition basename (path : str) : str :=
  let p := replace_backslash path in
  match rbreak_at 47 p with
  | Some (_, t) => t
  | None => p
  end.

Definition join (paths : list str) : str :=
  fold_left
    (fun path component =>
       path ++ (if nonempty path && negb (endswith path 47) then [47] else [])
            ++ replace_backslash component)
    paths [].

End Path.

(** ** [pyfat12.floppy]: the image *)

Module FloppyImage.

Inductive inches : Type := In3_5 | In5_25 | InOther.

Record t : Type := mk {
  size : inches;
  capacity : Z;
  bytes_per_sector : Z;
  _data : bytes
}.

Definition set_data (self : t) (d : bytes) : t :=
  mk (size self) (capacity self) (bytes_per_sector self) d.

Definition is3_5 (s : inches) : bool :=
  match s with In3_5 => true | _ => false end.

(** [FloppyImage(size, capacity)] *)
Definition new (size : inches) (capacity : Z) : result t :=
  _ <-- match size with
        | In3_5 =>
            if negb (mem capacity [360; 720; 1440])
            then Raise (ValueError "capacity not supported") else Ok tt
        | In5_25 =>
            if negb (mem capacity [360; 1200])
            then Raise (ValueError "capacity not supported") else Ok tt
        | InOther => Raise (ValueError "size not supported")
        end ;;
  if negb (is3_5 size) && negb (capacity =? 1440) then Raise NotImplementedError
  else Ok (mk size (capacity * 1024) 512 (zeros (capacity * 1024))).

(** [FloppyImage.open(file)], [content] being what the file holds. *)
Definition open (content : bytes) : result t :=
  if negb (Zlength content =? 1440 * 1024) then Raise NotImplementedError
  else Ok (mk In3_5 (Zlength content) 512 content).

Definition read (self : t) (offset length : Z) : bytes :=
  slice (_data self) offset (offset + length).

Definition write (self : t) (offset : Z) (data : bytes) : t :=
  set_data self (slice_set (_data self) offset (offset + Zlength data) data).

Definition read_sector (self : t) (sectornum : Z) : result bytes :=
  if (sectornum <? 0)
     || len_le (_data self) (sectornum * bytes_per_sector self)
  then Raise (ValueError "invalid sector index")
  else Ok (read self (sectornum * bytes_per_sector self) (bytes_per_sector self)).

Definition read_sectors (self : t) (sectornum sectorcount : Z) : result bytes :=
  if (sectornum <? 0)
     || len_lt (_data self) ((sectornum + sectorcount) * bytes_per_sector self)
  then Raise (ValueError "invalid sector index")
  else Ok (read self (sectornum * bytes_per_sector self)
                     (sectorcount * bytes_per_sector self)).

Definition write_sector (self : t) (sectornum : Z) (data : bytes) : result t :=
  if (sectornum <? 0)
     || len_le (_data self) (sectornum * bytes_per_sector self)
  then Raise (ValueError "invalid sector number")
  else if negb (Zlength data =? bytes_per_sector self)
  then Raise (ValueError "invalid sector length")
  else Ok (write self (sectornum * bytes_per_sector self) data).

Definition write_sectors (self : t) (sectornum sectorcount : Z) (data : bytes)
  : result t :=
  if (sectornum <? 0)
     || len_le (_data self) (sectornum * bytes_per_sector self)
  then Raise (ValueError "invalid sector number")
  else if negb (Zlength data =? sectorcount * bytes_per_sector self)
  then Raise (ValueError "invalid sector length")
  else Ok (write self (sectornum * bytes_per_sector self) data).

Definition read_mbr (self : t) : result bytes := read_sector self 0.

Definition write_mbr (self : t) (data : bytes) : result t :=
  write_sector self 0 data.

End FloppyImage.

(** ** [pyfat12.fs]: the state of a [FAT12] object *)

(** The fields of the BIOS parameter block, which [_readbpb] sets once. *)
Record bpb : Type := mk_bpb {
  bytes_per_sector : Z;
  sectors_per_cluster : Z;
  fat_start_sector : Z;
  fat_count : Z;
  root_entries : Z;
  logical_sectors : Z;
  descriptor : Z;
  sectors_per_fat : Z;
  sectors_per_track : Z;
  number_of_heads : Z;
  hidden_sectors : Z;
  large_total_logical_sectors : Z;
  drive_number : Z;
  ebpb_flags : Z;
  has_ebpb : bool;
  serial : option bytes;
  fs_type : option bytes
}.

(** [_label] is a [str] after mounting and [bytes] after the first commit. *)
Inductive label_value : Type :=
| LabelStr (s : str)
| LabelBytes (b : bytes).

Record FAT12 : Type := mk_FAT12 {
  _image : FloppyImage.t;
  params : bpb;
  bpb_label : bytes;
  _fat : list Z;
  _root_dir_sector : Z;
  _first_cluster_sector : Z;
  _write_label : bool;
  _label : label_value;
  label : option label_value;
  _dircluster : Z;
  _dirparents : list Z;
  (** what [datetime.datetime.now()] returns *)
  now : datetime
}.

Definition set_image (st : FAT12) (x : FloppyImage.t) : FAT12 :=
  mk_FAT12 x (params st) (bpb_label st) (_fat st) (_root_dir_sector st)
    (_first_cluster_sector st) (_write_label st) (_label st) (label st)
    (_dircluster st) (_dirparents st) (now st).
Definition set_bpb_label (st : FAT12) (x : bytes) : FAT12 :=
  mk_FAT12 (_image st) (params st) x (_fat st) (_root_dir_sector st)
    (_first_cluster_sector st) (_write_label st) (_label st) (label st)
    (_dircluster st) (_dirparents st) (now st).
Definition set_fat (st : FAT12) (x : list Z) : FAT12 :=
  mk_FAT12 (_image st) (params st) (bpb_label st) x (_root_dir_sector st)
    (_first_cluster_sector st) (_write_label st) (_label st) (label st)
    (_dircluster st) (_dirparents st) (now st).
Definition set_write_label (st : FAT12) (x : bool) : FAT12 :=
  mk_FAT12 (_image st) (params st) (bpb_label st) (_fat st) (_root_dir_sector st)
    (_first_cluster_sector st) x (_label st) (label st)
    (_dircluster st) (_dirparents st) (now st).
Definition set__label (st : FAT12) (x : label_value) : FAT12 :=
  mk_FAT12 (_image st) (params st) (bpb_label st) (_fat st) (_root_dir_sector st)
    (_first_cluster_sector st) (_write_label st) x (label st)
    (_dircluster st) (_dirparents st) (now st).
Definition set_label_attr (st : FAT12) (x : option label_value) : FAT12 :=
  mk_FAT12 (_image st) (params st) (bpb_label st) (_fat st) (_root_dir_sector st)
    (_first_cluster_sector st) (_write_label st) (_label st) x
    (_dircluster st) (_dirparents st) (now st).
Definition set_dircluster (st : FAT12) (x : Z) : FAT12 :=
  mk_FAT12 (_image st) (params st) (bpb_label st) (_fat st) (_root_dir_sector st)
    (_first_cluster_sector st) (_write_label st) (_label st) (label st)
    x (_dirparents st) (now st).
Definition set_dirparents (st : FAT12) (x : list Z) : FAT12 :=
  mk_FAT12 (_image st) (params st) (bpb_label st) (_fat st) (_root_dir_sector st)
    (_first_cluster_sector st) (_write_label st) (_label st) (label st)
    (_dircluster st) x (now st).

(** ** The monad of the methods *)

Definition M (A : Type) : Type := FAT12 -> result A * FAT12.

Definition ret {A} (a : A) : M A := fun st => (Ok a, st).
Definition raise {A} (e : exn) : M A := fun st => (Raise e, st).
Definition bind {A B} (m : M A) (k : A -> M B) : M B :=
  fun st =>
    match m st with
    | (Ok a, st') => k a st'
    | (Raise e, st') => (Raise e, st')
    end.
Definition lift {A} (r : result A) : M A := fun st => (r, st).
Definition gets {A} (f : FAT12 -> A) : M A := fun st => (Ok (f st), st).
Definition modify (f : FAT12 -> FAT12) : M unit := fun st => (Ok tt, f st).
Definition assert (b : bool) : M unit := lift (rassert b).

Notation "x <- m ;; k" := (bind m (fun x => k))
  (at level 61, m at next level, right associativity).
Notation "m ;;; k" := (bind m (fun _ => k))
  (at level 61, right associativity).

(** The image behind [self._image]. *)
Definition image_read (offset length : Z) : M bytes :=
  gets (fun st => FloppyImage.read (_image st) offset length).
Definition image_write (offset : Z) (data : bytes) : M unit :=
  modify (fun st => set_image st (FloppyImage.write (_image st) offset data)).
Definition image_read_sectors (sectornum sectorcount : Z) : M bytes :=
  fun st => (FloppyImage.read_sectors (_image st) sectornum sectorcount, st).
Definition image_write_sectors (sectornum sectorcount : Z) (data : bytes)
  : M unit :=
  fun st =>
    match FloppyImage.write_sectors (_image st) sectornum sectorcount data with
    | Ok img => (Ok tt, set_image st img)
    | Raise e => (Raise e, st)
    end.

(** The fuel of the loops that follow the FAT. *)
Definition chain_fuel (st : FAT12) : nat :=
  S (S (S (S (2 * List.length (_fat st))))).

Definition _cluster_is_end_of_chain (cluster : Z) : bool :=
  Z.land cluster 0xFF8 =? 0xFF8.

Definition _isvalidcluster (cluster : Z) : bool :=
  (2 <=? cluster) && (cluster <? 0xFF0).

Definition fs_types : list bytes := [py "FAT     "; py "FAT12   "].

Definition bytes_in (b : bytes) (l : list bytes) : bool :=
  existsb (list_eqb b) l.

(** ** Mounting: [_readbpb], [_readfat], [_readlabel] *)

Definition _readbpb (image : FloppyImage.t) : result (bpb * bytes) :=
  mbr <-- FloppyImage.read_mbr image ;;
  f1 <-- struct_unpack [2; 1; 2; 1; 2; 2; 1; 2]%nat (slice mbr 0x0B 0x18) ;;
  match f1 with
  | [bytes_per_sector; sectors_per_cluster; fat_start_sector; fat_count;
     root_entries; logical_sectors; descriptor; sectors_per_fat] =>
      if negb (mem fat_count [1; 2]) then Raise (ValueError "invalid FAT count")
      else if negb (bytes_per_sector =? 512) || negb (sectors_per_cluster =? 1)
              || negb (descriptor =? 0xF0) || negb (root_entries mod 16 =? 0)
      then Raise NotImplementedError
      else
        f2 <-- struct_unpack [2; 2; 4; 4; 1; 1]%nat (slice mbr 0x18 0x26) ;;
        match f2 with
        | [sectors_per_track; number_of_heads; hidden_sectors;
           large_total_logical_sectors; drive_number; ebpb_flags] =>
            sig <-- index mbr 0x26 ;;
            let mk := mk_bpb bytes_per_sector sectors_per_cluster
                        fat_start_sector fat_count root_entries logical_sectors
                        descriptor sectors_per_fat sectors_per_track
                        number_of_heads hidden_sectors
                        large_total_logical_sectors drive_number ebpb_flags in
            if sig =? 0x29 then
              let serial := slice mbr 0x27 0x2B in
              let bpb_label := slice mbr 0x2B (0x2B + 11) in
              let fs_type := slice mbr 0x36 (0x36 + 8) in
              if negb (bytes_in fs_type fs_types) then Raise NotImplementedError
              else Ok (mk true (Some serial) (Some fs_type), bpb_label)
            else Ok (mk false None None, repeat 32 11)
        | _ => Raise StructError
        end
  | _ => Raise StructError
  end.

(** The FAT and the two sector numbers derived from the geometry. *)
Definition _readfat (image : FloppyImage.t) (p : bpb)
  : result (list Z * Z * Z) :=
  data <-- FloppyImage.read_sectors image (fat_start_sector p) (sectors_per_fat p) ;;
  fat <-- fat_unpack data ;;
  e0 <-- index fat 0 ;;
  _ <-- rassert (e0 =? 0xFF0) ;;
  e1 <-- index fat 1 ;;
  _ <-- rassert (e1 =? 0xFFF) ;;
  let root_dir_sector := fat_start_sector p + sectors_per_fat p * fat_count p in
  let first_cluster_sector := root_dir_sector + root_entries p / 16 in
  let first_cluster_sector := first_cluster_sector - 2 * sectors_per_cluster p in
  let first_cluster_sector :=
    (first_cluster_sector + (sectors_per_cluster p - 1)) / sectors_per_cluster p in
  Ok (fat, root_dir_sector, first_cluster_sector).

Fixpoint _readlabel_scan (rootdir : bytes) (idx : list Z) : result (option str) :=
  match idx with
  | [] => Ok None
  | i :: idx' =>
      a <-- index rootdir (i + 0x0B) ;;
      if Z.land a 8 =? 8
      then Ok (Some (rstrip (decode_cp437 (slice rootdir i (i + 11)))))
      else _readlabel_scan rootdir idx'
  end.

(** [_write_label], [_label] and [label]; the latter stays unset when the
    root directory holds a label entry. *)
Definition _readlabel (image : FloppyImage.t) (p : bpb) (bpb_label : bytes)
  (root_dir_sector : Z) : result (bool * label_value * option label_value) :=
  let '(root_start, root_sectors) := (root_dir_sector, root_entries p / 16) in
  rootdir <-- FloppyImage.read_sectors image root_start root_sectors ;;
  found <-- _readlabel_scan rootdir (range 0 (Zlength rootdir) 32) ;;
  match found with
  | Some l => Ok (false, LabelStr l, None)
  | None =>
      let l := LabelStr (rstrip (decode_cp437 bpb_label)) in
      Ok (false, l, Some l)
  end.

(** [FAT12(image)], the clock being the one the object will read. *)
Definition _readfs (image : FloppyImage.t) (clock : datetime) : result FAT12 :=
  pb <-- _readbpb image ;;
  let '(p, bpb_label) := pb in
  f <-- _readfat image p ;;
  let '(fat, root_dir_sector, first_cluster_sector) := f in
  l <-- _readlabel image p bpb_label root_dir_sector ;;
  let '(write_label, _label, label) := l in
  Ok (mk_FAT12 image p bpb_label fat root_dir_sector first_cluster_sector
        write_label _label label 1 [] clock).

Definition _chdirroot : M unit :=
  modify (fun st => set_dirparents (set_dircluster st 1) []).

(** ** Directory entries *)

Definition _efn_to_cfn (fn : bytes) : result str :=
  b0 <-- index fn 0 ;;
  fn <-- (if b0 =? 5 then index_set fn 0 0xE5 else Ok fn) ;;
  let fn := decode_cp437 fn in
  let ext := rstrip (slice_from fn 8) in
  if nonempty ext then Ok (rstrip (slice_to fn 8) ++ py "." ++ ext)
  else Ok (rstrip (slice_to fn 8)).

(** The tuple [_parsedirentry] returns: [exists] is [None] at the end of
    the directory, [False] on a free slot, and the other five components
    are [None] in both cases. *)
Inductive direntry : Type :=
| EndOfDir
| FreeEntry
| Entry (filename : str) (attributes : Z) (modified : datetime)
        (cluster : Z) (file_size : Z).

Definition _parsedirentry (data : bytes) : result direntry :=
  b0 <-- index data 0 ;;
  if b0 =? 0 then Ok EndOfDir
  else if b0 =? 0xE5 then Ok FreeEntry
  else
    filename <-- _efn_to_cfn (slice_to data 0x0B) ;;
    attributes <-- index data 0x0B ;;
    modified <-- _edt_to_pdt (slice data 0x16 0x1A) ;;
    cluster <-- struct_unpack_uint 2 (slice data 0x1A 0x1C) ;;
    file_size <-- struct_unpack_uint 4 (slice data 0x1C 0x20) ;;
    Ok (Entry filename attributes modified cluster file_size).

(** The file name argument of [_makedirentry] is [bytes] or a [str]. *)
Inductive name_arg : Type :=
| NameBytes (b : bytes)
| NameStr (s : str).

(** [bytearray(l)] *)
Definition bytearray_of (l : list Z) : result bytes :=
  if forallb is_byte l then Ok l
  else Raise (ValueError "byte must be in range(0, 256)").

Definition _makedirentry (filename : name_arg) (attributes : Z)
  (modified : option datetime) (cluster file_size : Z) : M bytes :=
  fun st =>
    (names <-- match filename with
               | NameBytes b => Ok (slice_to b 8, slice_from b 8)
               | NameStr s =>
                   let s := upper s in
                   let '(f, e) :=
                     if mem 46 s then
                       match rbreak_at 46 s with
                       | Some p => p
                       | None => (s, [])
                       end
                     else (s, py "   ") in
                   f' <-- encode_cp437 f ;;
                   e' <-- encode_cp437 e ;;
                   Ok (f', e')
               end ;;
     let '(filename, ext) := names in
     if (8 <? Zlength filename) || (3 <? Zlength ext)
     then Raise (ValueError "name too long")
     else
       let modified := match modified with None => now st | Some m => m end in
       if file_size <? 0 then Raise (ValueError "invalid file size")
       else if (cluster <? 0) || (0xFF6 <=? cluster)
       then Raise (ValueError "invalid starting cluster")
       else
         a <-- bytearray_of [attributes; 0; 0; 0; 0; 0; 0; 0; 0; 0; 0] ;;
         t <-- _pdt_to_edt modified ;;
         c <-- struct_pack [2; 4]%nat [cluster; file_size] ;;
         Ok (ljust filename 8 ++ ljust ext 3 ++ a ++ t ++ c),
     st).

(** ** Clusters *)

Definition _cluster_index (cluster : Z) : M Z :=
  gets (fun st =>
          _first_cluster_sector st + cluster * sectors_per_cluster (params st)).

Definition _readcluster (cluster : Z) : M bytes :=
  i <- _cluster_index cluster ;;
  n <- gets (fun st => sectors_per_cluster (params st)) ;;
  image_read_sectors i n.

Definition _writecluster (cluster : Z) (data : bytes) : M unit :=
  i <- _cluster_index cluster ;;
  n <- gets (fun st => sectors_per_cluster (params st)) ;;
  image_write_sectors i n data.

(** [self._fat[c]] *)
Definition fat_get (c : Z) : M Z :=
  fun st => (index (_fat st) c, st).

(** [self._fat[c] = v] *)
Definition fat_set (c v : Z) : M unit :=
  fun st =>
    match index_set (_fat st) c v with
    | Ok fat => (Ok tt, set_fat st fat)
    | Raise e => (Raise e, st)
    end.

(** The root directory as [(root_start, root_sectors)]. *)
Definition root_region : M (Z * Z) :=
  gets (fun st => (_root_dir_sector st, root_entries (params st) / 16)).

Definition read_rootdir : M bytes :=
  r <- root_region ;;
  image_read_sectors (fst r) (snd r).

Definition write_rootdir (rootdir : bytes) : M unit :=
  r <- root_region ;;
  image_write_sectors (fst r) (snd r) rootdir.

(** ** The label, the BPB and the FAT on their way back to the image *)

(** The entries before the first slot whose first byte is zero, and whether
    the loop stopped inside the directory ([i < len(rootdir)]). *)
Fixpoint _updatelabel_scan (rootdir : bytes) (idx : list Z)
  : result (list bytes * bool) :=
  match idx with
  | [] => Ok ([], false)
  | i :: idx' =>
      b <-- index rootdir i ;;
      if b =? 0 then Ok ([], true)
      else
        r <-- _updatelabel_scan rootdir idx' ;;
        Ok (slice rootdir i (i + 32) :: fst r, snd r)
  end.

Fixpoint keep_labels (entries : list bytes) : result (list bytes) :=
  match entries with
  | [] => Ok []
  | e :: r =>
      a <-- index e 0x0B ;;
      r' <-- keep_labels r ;;
      Ok (if Z.land a 0x0F =? 8 then e :: r' else r')
  end.

Fixpoint write_entries (rootdir : bytes) (i : Z) (entries : list bytes) : bytes :=
  match entries with
  | [] => rootdir
  | e :: r => write_entries (slice_set rootdir (i * 32) (i * 32 + 32) e) (i + 1) r
  end.

Definition _updatelabel : M unit :=
  l <- gets _label ;;
  l <- match l with
       | LabelStr s => lift (encode_cp437 s)
       | LabelBytes b => ret b
       end ;;
  let l := slice_to l 11
           ++ (if Zlength l <? 11 then zeros (11 - Zlength l) else []) in
  modify (fun st => set__label st (LabelBytes l)) ;;;
  rootdir <- read_rootdir ;;
  w <- gets _write_label ;;
  if w then
    modify (fun st => set_write_label st false) ;;;
    b0 <- lift (index rootdir 0) ;;
    relabel <- (if negb (mem b0 [0; 0xE5])
                then b11 <- lift (index rootdir 0x0B) ;; ret (Z.land b11 8 =? 8)
                else ret false) ;;
    rootdir <-
      (if relabel : bool then ret (slice_set rootdir 0 11 l)
       else
         sc <- lift (_updatelabel_scan rootdir (range 0 (Zlength rootdir) 32)) ;;
         let '(entries, inside) := sc in
         if inside : bool then
           let num_entries := List.length entries in
           entries <- lift (keep_labels entries) ;;
           let entries :=
             entries ++ repeat (zeros 32) (num_entries - List.length entries) in
           e <- _makedirentry (NameBytes l) 8 None 0 0 ;;
           let entries := e :: entries in
           if Zlength entries * 32 <=? Zlength rootdir
           then ret (write_entries rootdir 0 entries)
           else ret rootdir
         else ret rootdir) ;;
    write_rootdir rootdir
  else ret tt.

Definition option_bytes_in (b : option bytes) (l : list bytes) : bool :=
  match b with
  | Some x => bytes_in x l
  | None => false
  end.

Definition _writebpb : M unit :=
  p <- gets params ;;
  assert (root_entries p mod 16 =? 0) ;;;
  b1 <- lift (struct_pack [2; 1; 2; 1; 2; 2; 1; 2]%nat
                [bytes_per_sector p; sectors_per_cluster p; fat_start_sector p;
                 fat_count p; root_entries p; logical_sectors p; descriptor p;
                 sectors_per_fat p]) ;;
  image_write 0x0B b1 ;;;
  b2 <- lift (struct_pack [2; 2; 4; 4; 1; 1]%nat
                [sectors_per_track p; number_of_heads p; hidden_sectors p;
                 large_total_logical_sectors p; drive_number p; ebpb_flags p]) ;;
  image_write 0x18 b2 ;;;
  if has_ebpb p then
    match serial p, fs_type p with
    | Some serial, Some fs_type =>
        assert (Zlength serial =? 4) ;;;
        assert (bytes_in fs_type fs_types) ;;;
        l <- gets _label ;;
        match l with
        | LabelBytes l =>
            modify (fun st => set_bpb_label st l) ;;;
            image_write 0x27 serial ;;;
            image_write 0x2B l ;;;
            image_write 0x36 fs_type
        | LabelStr _ => raise TypeError
        end
    | _, _ => raise TypeError
    end
  else ret tt.

(** [fats * n] *)
Fixpoint bytes_times (b : bytes) (n : nat) : bytes :=
  match n with
  | O => []
  | S n' => b ++ bytes_times b n'
  end.

Definition _writefat : M unit :=
  p <- gets params ;;
  fat <- gets _fat ;;
  assert (Zlength fat <=? sectors_per_fat p * bytes_per_sector p * 3 / 2) ;;;
  modify (fun st => set_fat st (fat_pad (_fat st))) ;;;
  fat <- gets _fat ;;
  fats <- lift (fat_pack (sectors_per_fat p * bytes_per_sector p) fat) ;;
  image_write_sectors (fat_start_sector p) (sectors_per_fat p * fat_count p)
    (bytes_times fats (Z.to_nat (fat_count p))).

Definition commit : M unit :=
  _updatelabel ;;;
  _writebpb ;;;
  _writefat.

Definition set_label (label : label_value) : M unit :=
  label <- match label with
           | LabelStr s => lift (encode_cp437 s)
           | LabelBytes b => ret b
           end ;;
  let label := label ++ (if Zlength label <? 11
                         then repeat 32 (Z.to_nat (11 - Zlength label)) else []) in
  if 11 <? Zlength label then raise (ValueError "label too long")
  else
    modify (fun st => set__label (set_label_attr st (Some (LabelBytes label)))
                        (LabelBytes label)) ;;;
    modify (fun st => set_write_label st true) ;;;
    commit.

(** ** Directories: enumeration, allocation and lookup *)

(** What a generator yields, and the exception that ends it if one does. *)
Definition gen (A : Type) : Type := (list A * option exn)%type.

Definition gen_cons {A} (x : A) (g : gen A) : gen A := (x :: fst g, snd g).
Definition gen_app {A} (g : gen A) (k : gen A) : gen A :=
  match snd g with
  | Some e => g
  | None => (fst g ++ fst k, snd k)
  end.

(** [(filename, attributes, modified, cluster, file_size)] *)
Definition fileinfo : Type := (str * Z * datetime * Z * Z)%type.

Fixpoint _allfilesin_loop (sector : bytes) (idx : list Z) : gen fileinfo :=
  match idx with
  | [] => ([], None)
  | i :: idx' =>
      match _parsedirentry (slice sector i (i + 32)) with
      | Raise e => ([], Some e)
      | Ok EndOfDir => ([], None)
      | Ok FreeEntry => _allfilesin_loop sector idx'
      | Ok (Entry filename attributes modified cluster file_size) =>
          if negb (Z.land attributes 0xC8 =? 0) then _allfilesin_loop sector idx'
          else gen_cons (filename, attributes, modified, cluster, file_size)
                 (_allfilesin_loop sector idx')
      end
  end.

Definition _allfilesin (sector : bytes) (offset : Z) : gen fileinfo :=
  if negb (offset mod 32 =? 0) then ([], Some AssertionError)
  else _allfilesin_loop sector (range offset (Zlength sector) 32).

Fixpoint _allocdirentrycluster_loop (sector : bytes) (idx : list Z)
  : result (option Z) :=
  match idx with
  | [] => Ok None
  | i :: idx' =>
      b <-- index sector i ;;
      if negb (mem b [0x00; 0xE5]) then _allocdirentrycluster_loop sector idx'
      else Ok (Some i)
  end.

Definition _allocdirentrycluster (sector : bytes) (offset : Z)
  : result (option Z) :=
  _ <-- rassert (offset mod 32 =? 0) ;;
  _allocdirentrycluster_loop sector (range offset (Zlength sector) 32).

Fixpoint _allfilesincluster_chain (fuel : nat) (cluster offset : Z) (st : FAT12)
  : gen fileinfo :=
  match fuel with
  | O => ([], Some Diverges)
  | S fuel' =>
      if negb (_cluster_is_end_of_chain cluster) then
        match _readcluster cluster st with
        | (Raise e, _) => ([], Some e)
        | (Ok data, _) =>
            gen_app (_allfilesin data offset)
              match index (_fat st) cluster with
              | Raise e => ([], Some e)
              | Ok next => _allfilesincluster_chain fuel' next 0 st
              end
        end
      else ([], None)
  end.

Definition _allfilesincluster (cluster offset : Z) (st : FAT12) : gen fileinfo :=
  if cluster =? 1 then
    match read_rootdir st with
    | (Raise e, _) => ([], Some e)
    | (Ok rootdir, _) => _allfilesin rootdir offset
    end
  else _allfilesincluster_chain (chain_fuel st) cluster offset st.

Fixpoint _alloccluster_loop (fat : list Z) (idx : list Z) : result (option Z) :=
  match idx with
  | [] => Ok None
  | i :: idx' =>
      x <-- index fat i ;;
      if x =? 0 then Ok (Some i) else _alloccluster_loop fat idx'
  end.

Definition _alloccluster (attach_to : option Z) : M Z :=
  match attach_to with
  | Some a => assert (_isvalidcluster a)
  | None => ret tt
  end ;;;
  fat <- gets _fat ;;
  found <- lift (_alloccluster_loop fat (range 2 (Zlength fat) 1)) ;;
  match found with
  | Some i =>
      fat_set i 0xFFF ;;;
      match attach_to with
      | Some a => if negb (a =? 0) then fat_set a i else ret tt
      | None => ret tt
      end ;;;
      ret i
  | None => raise (IOError "floppy is full")
  end.

(** The walk of [_allocdirentry] along the chain of a subdirectory: the slot
    found, or the last cluster seen when the chain ends without one. *)
Fixpoint _allocdirentry_chain (fuel : nat) (ocluster pcluster cluster offset : Z)
  : M (Z * Z * Z + Z) :=
  match fuel with
  | O => raise Diverges
  | S fuel' =>
      if negb (_cluster_is_end_of_chain cluster) then
        data <- _readcluster cluster ;;
        noffset <- lift (_allocdirentrycluster data offset) ;;
        match noffset with
        | Some noffset => ret (inl (ocluster, cluster, noffset))
        | None =>
            next <- fat_get cluster ;;
            _allocdirentry_chain fuel' ocluster cluster next 0
        end
      else ret (inr pcluster)
  end.

(** [(orig_cluster, dir_cluster, dir_offset)] *)
Definition _allocdirentry (cluster offset : Z) : M (Z * Z * Z) :=
  if cluster =? 1 then
    rootdir <- read_rootdir ;;
    noffset <- lift (_allocdirentrycluster rootdir offset) ;;
    match noffset with
    | None => raise (IOError "root directory is full")
    | Some noffset => ret (1, 1, noffset)
    end
  else
    let ocluster := cluster in
    fuel <- gets chain_fuel ;;
    r <- _allocdirentry_chain fuel ocluster cluster cluster offset ;;
    match r with
    | inl slot => ret slot
    | inr pcluster =>
        (* the loop left with [cluster] an end-of-chain value: extend *)
        ncluster <- _alloccluster (Some pcluster) ;;
        p <- gets params ;;
        _writecluster ncluster (zeros (bytes_per_sector p * sectors_per_cluster p)) ;;;
        ret (ocluster, ncluster, 0)
    end.

Fixpoint _resolvefilesector_loop (name : str) (sector : bytes) (idx : list Z)
  : result (option Z) :=
  match idx with
  | [] => Ok None
  | i :: idx' =>
      e <-- _parsedirentry (slice sector i (i + 32)) ;;
      match e with
      | EndOfDir => Ok None
      | FreeEntry => _resolvefilesector_loop name sector idx'
      | Entry filename attributes modified cluster file_size =>
          if negb (Z.land attributes 0xC8 =? 0)
          then _resolvefilesector_loop name sector idx'
          else if list_eqb (upper filename) name then Ok (Some i)
          else _resolvefilesector_loop name sector idx'
      end
  end.

Definition _resolvefilesector (name : str) (sector : bytes) (offset : Z)
  : result (option Z) :=
  _ <-- rassert (offset mod 32 =? 0) ;;
  let name := upper name in
  _resolvefilesector_loop name sector (range offset (Zlength sector) 32).

Definition _readdirentry (cluster offset : Z) : M bytes :=
  if cluster =? 1 then
    rootdir <- read_rootdir ;;
    ret (slice rootdir offset (offset + 32))
  else
    data <- _readcluster cluster ;;
    ret (slice data offset (offset + 32)).

Definition _writedirentry (cluster offset : Z) (entry : bytes) : M unit :=
  assert (Zlength entry =? 32) ;;;
  if cluster =? 1 then
    rootdir <- read_rootdir ;;
    write_rootdir (slice_set rootdir offset (offset + 32) entry)
  else
    data <- _readcluster cluster ;;
    _writecluster cluster (slice_set data offset (offset + 32) entry).

(** [len(cluster)], [cluster] being an [int]. *)
Definition len_of_int {A} (cluster : Z) : M A := raise TypeError.

Fixpoint _rmdirentry_prev (fuel : nat) (prev_cluster cluster : Z) : M Z :=
  match fuel with
  | O => raise Diverges
  | S fuel' =>
      next <- fat_get prev_cluster ;;
      if negb (next =? cluster) then _rmdirentry_prev fuel' next cluster
      else ret prev_cluster
  end.

Definition _rmdirentry (cluster offset first_cluster : Z) : M unit :=
  if cluster =? 1 then
    rootdir <- read_rootdir ;;
    rootdir <- lift (index_set rootdir offset 0xE5) ;;
    write_rootdir rootdir
  else
    data <- _readcluster cluster ;;
    data <- lift (index_set data offset 0xE5) ;;
    _writecluster cluster data ;;;
    (* maybe shorten directory? *)
    empty <- (n <- len_of_int cluster ;;
              ret (forallb (fun i : Z => false) (range 0 n 32))) ;;
    if empty : bool then
      assert (negb (first_cluster =? cluster)) ;;;
      fuel <- gets chain_fuel ;;
      prev_cluster <- _rmdirentry_prev fuel first_cluster cluster ;;
      next <- fat_get cluster ;;
      fat_set prev_cluster next ;;;
      fat_set cluster 0
    else ret tt.

(** [(dircluster, diroffset)] *)
Fixpoint _resolvefile_chain (fuel : nat) (name : str) (cluster offset : Z)
  : M (option (Z * Z)) :=
  match fuel with
  | O => raise Diverges
  | S fuel' =>
      if negb (_cluster_is_end_of_chain cluster) then
        data <- _readcluster cluster ;;
        found <- lift (_resolvefilesector name data offset) ;;
        match found with
        | Some offset => ret (Some (cluster, offset))
        | None =>
            next <- fat_get cluster ;;
            _resolvefile_chain fuel' name next 0
        end
      else ret None
  end.

Definition _resolvefile (name : str) (cluster offset : Z) : M (option (Z * Z)) :=
  if cluster =? 1 then
    rootdir <- read_rootdir ;;
    found <- lift (_resolvefilesector name rootdir offset) ;;
    match found with
    | None => ret None
    | Some offset => ret (Some (1, offset))
    end
  else
    fuel <- gets chain_fuel ;;
    _resolvefile_chain fuel name cluster offset.

(** ** Path resolution *)

(** The local variable [parents] of [_resolvedir] is the list object
    [self._dirparents] itself, until it is rebound to a list of its own:
    [append] and [pop] on the former change the current directory's parent
    chain in place. *)
Inductive plist : Type :=
| Shared
| Fresh (l : list Z).

Definition parents_get (p : plist) : M (list Z) :=
  match p with
  | Shared => gets _dirparents
  | Fresh l => ret l
  end.

Definition parents_put (p : plist) (l : list Z) : M plist :=
  match p with
  | Shared => modify (fun st => set_dirparents st l) ;;; ret Shared
  | Fresh _ => ret (Fresh l)
  end.

Definition parents_append (p : plist) (c : Z) : M plist :=
  l <- parents_get p ;;
  parents_put p (l ++ [c]).

Definition parents_pop (p : plist) : M (Z * plist) :=
  l <- parents_get p ;;
  match rev l with
  | [] => raise IndexError
  | x :: r =>
      p' <- parents_put p (rev r) ;;
      ret (x, p')
  end.

(** (head, tail) *)
Definition _splitpath (path : str) : str * str :=
  let path := replace_backslash path in
  match break_at 47 path with
  | None => (path, [])
  | Some (h, t) => (h, t)
  end.

Definition is_dot (name : str) : bool := list_eqb name (py ".").
Definition is_dotdot (name : str) : bool := list_eqb name (py "..").
Definition is_dotfile (name : str) : bool := is_dot name || is_dotdot name.

Definition path_fuel (path : str) : nat := S (S (List.length path)).

(** [None] stands for [None, []]. *)
Fixpoint _resolvedir_loop (fuel : nat) (path : str) (cluster : Z)
  (parents : plist) : M (option (Z * plist)) :=
  match fuel with
  | O => raise Diverges
  | S fuel' =>
      if negb (nonempty path) then ret (Some (cluster, parents))
      else
        let '(name, path) := _splitpath path in
        if negb (nonempty name) && negb (nonempty path)
        then ret (Some (cluster, parents))
        else if negb (nonempty name)
        then _resolvedir_loop fuel' path 1 (Fresh [])
        else
          r <- _resolvefile name cluster 0 ;;
          match r with
          | None =>
              if (cluster =? 1) && is_dot name
              then _resolvedir_loop fuel' path cluster parents
              else ret None
          | Some (ocluster, offset) =>
              raw <- _readdirentry ocluster offset ;;
              entry <- lift (_parsedirentry raw) ;;
              parents <- parents_append parents cluster ;;
              match entry with
              | Entry filename attributes modified cluster file_size =>
                  if Z.land attributes 0x10 =? 0 then ret None
                  else if cluster =? 0 then
                    assert (is_dotfile name) ;;;
                    if is_dot name then
                      x <- parents_pop parents ;;
                      _resolvedir_loop fuel' path (fst x) (snd x)
                    else
                      l <- parents_get parents ;;
                      if nonempty l then
                        x <- parents_pop parents ;;
                        y <- parents_pop (snd x) ;;
                        _resolvedir_loop fuel' path (fst y) (snd y)
                      else _resolvedir_loop fuel' path 1 parents
                  else _resolvedir_loop fuel' path cluster parents
              | _ => ret None
              end
          end
  end.

Definition _resolvedir (path : str) (at_root : bool) : M (option (Z * plist)) :=
  cluster <- (if at_root then ret 1 else gets _dircluster) ;;
  let parents := if at_root then Fresh [] else Shared in
  _resolvedir_loop (path_fuel path) path cluster parents.

Definition found_entry (cluster : Z) (found : option (Z * Z))
  : option (Z * Z * Z) :=
  match found with
  | None => None
  | Some (ocluster, offset) => Some (cluster, ocluster, offset)
  end.

(** (dircluster, diroffset, fileoffset); [None] stands for
    [(None, None, None)].  The directory in which the next component is
    looked up, [cluster], is the one the walk started in, whatever
    directories the components before it name. *)
Fixpoint _resolvepath_loop (fuel : nat) (path : str) (cluster : Z)
  (found : option (Z * Z)) : M (option (Z * Z * Z)) :=
  match fuel with
  | O => raise Diverges
  | S fuel' =>
      if negb (nonempty path) then ret (found_entry cluster found)
      else
        let '(name, path) := _splitpath path in
        if negb (nonempty name) && negb (nonempty path)
        then ret (found_entry cluster found)
        else if negb (nonempty name)
        then _resolvepath_loop fuel' path 1 found
        else
          r <- _resolvefile name cluster 0 ;;
          match r with
          | None =>
              if (cluster =? 1) && is_dot name
              then _resolvepath_loop fuel' path cluster None
              else ret None
          | Some (ocluster, offset) =>
              if negb (nonempty path) then ret (Some (cluster, ocluster, offset))
              else
                raw <- _readdirentry ocluster offset ;;
                entry <- lift (_parsedirentry raw) ;;
                match entry with
                | Entry filename attributes modified scluster file_size =>
                    if Z.land attributes 0x10 =? 0 then ret None
                    else _resolvepath_loop fuel' path cluster (Some (ocluster, offset))
                | _ => ret None
                end
          end
  end.

Definition _resolvepath (path : str) (at_root : bool) : M (option (Z * Z * Z)) :=
  cluster <- (if at_root then ret 1 else gets _dircluster) ;;
  _resolvepath_loop (path_fuel path) path cluster None.

Fixpoint _isemptydir_loop (items : list fileinfo) (ending : option exn)
  : result bool :=
  match items with
  | [] => match ending with
          | Some e => Raise e
          | None => Ok true
          end
  | (filename, _, _, _, _) :: items' =>
      c <-- index filename 0 ;;
      if c =? 46 then _isemptydir_loop items' ending else Ok false
  end.

Definition _isemptydir (dcluster : Z) : M bool :=
  if dcluster =? 1 then ret false
  else
    g <- gets (_allfilesincluster dcluster 0) ;;
    lift (_isemptydir_loop (fst g) (snd g)).

(** How the loop of [_createfile] is left: by [return (None, None, None)],
    or past its end with [name] (unbound if the loop never ran) and
    [cluster]. *)
Fixpoint _createfile_loop (fuel : nat) (path : str) (cluster : Z)
  (name : option str) : M (option (option str * Z)) :=
  match fuel with
  | O => raise Diverges
  | S fuel' =>
      if negb (nonempty path) then ret (Some (name, cluster))
      else
        let '(name, path) := _splitpath path in
        if negb (nonempty name) && negb (nonempty path)
        then ret (Some (Some name, cluster))
        else if negb (nonempty name)
        then _createfile_loop fuel' path 1 (Some name)
        else
          r <- _resolvefile name cluster 0 ;;
          if negb (nonempty path) then
            match r with
            | None => ret (Some (Some name, cluster))
            | Some _ => raise (ValueError "file already exists")
            end
          else
            match r with
            | None =>
                if (cluster =? 1) && is_dot name
                then _createfile_loop fuel' path cluster (Some name)
                else ret None
            | Some (ocluster, offset) =>
                raw <- _readdirentry ocluster offset ;;
                entry <- lift (_parsedirentry raw) ;;
                match entry with
                | Entry filename attributes modified scluster file_size =>
                    if Z.land attributes 0x10 =? 0 then ret None
                    else _createfile_loop fuel' path cluster (Some name)
                | _ => ret None
                end
            end
  end.

Definition _createfile (path : str) (at_root : bool) : M (option (Z * Z * Z)) :=
  cluster <- (if at_root then ret 1 else gets _dircluster) ;;
  r <- _createfile_loop (path_fuel path) path cluster None ;;
  match r with
  | None => ret None
  | Some (None, _) => raise (UnboundLocalError "name")
  | Some (Some name, cluster) =>
      if is_dotfile name then raise (ValueError "cannot create dotfile")
      else
        direntry <- _makedirentry (NameStr name) 0x20 None 0 0 ;;
        slot <- _allocdirentry cluster 0 ;;
        let '(dcluster, ocluster, offset) := slot in
        _writedirentry ocluster offset direntry ;;;
        ret (Some (cluster, ocluster, offset))
  end.

Definition _createdirectory (path : str) (at_root chdir : bool)
  : M (option (Z * Z * Z)) :=
  let path := replace_backslash path in
  let path := if endswith path 47 then removelast path else path in
  if negb (nonempty path) then raise (ValueError "cannot create root directory")
  else
    ncluster <- _alloccluster None ;;
    r <- _createfile path at_root ;;
    match r with
    | Some (cluster, ocluster, offset) =>
        (if negb (cluster =? 0) then
           let name := Path.basename path in
           e <- _makedirentry (NameStr name) 16 None ncluster 0 ;;
           _writedirentry ocluster offset e ;;;
           e <- _makedirentry (NameBytes (py ".")) 16 None 0 0 ;;
           _writedirentry ncluster 0 e ;;;
           e <- _makedirentry (NameBytes (py "..")) 16 None 0 0 ;;
           _writedirentry ncluster 32 e ;;;
           if chdir then modify (fun st => set_dircluster st ncluster) else ret tt
         else ret tt) ;;;
        ret r
    | None => ret None
    end.

(** ** The public operations *)

Record FAT12FileInfo : Type := mk_FAT12FileInfo {
  name : str;
  attributes : Z;
  date : option datetime;
  starting_cluster : Z;
  size : option Z
}.

Definition chdir (path : str) : M unit :=
  r <- _resolvedir path false ;;
  match r with
  | None => raise FileNotFoundError
  | Some (cluster, parents) =>
      modify (fun st => set_dircluster st cluster) ;;;
      l <- parents_get parents ;;
      modify (fun st => set_dirparents st l)
  end.

(** The generator, run to its end. *)
Definition gen_all {A} (g : gen A) : M (list A) :=
  match snd g with
  | Some e => raise e
  | None => ret (fst g)
  end.

Definition listfiles (path : str) (hidden : bool) : M (list FAT12FileInfo) :=
  r <- _resolvedir path false ;;
  match r with
  | None => raise FileNotFoundError
  | Some (cluster, parents) =>
      g <- gets (_allfilesincluster cluster 0) ;;
      items <- gen_all g ;;
      ret (flat_map
             (fun it : fileinfo =>
                let '(filename, attributes, modified, cluster, file_size) := it in
                if (Z.land attributes 0x10 =? 0)
                   && (hidden || (Z.land attributes 2 =? 0))
                then [mk_FAT12FileInfo filename attributes (Some modified)
                        cluster (Some file_size)]
                else [])
             items)
  end.

Definition listdirs (path : str) (hidden : bool) : M (list FAT12FileInfo) :=
  r <- _resolvedir path false ;;
  match r with
  | None => raise FileNotFoundError
  | Some (cluster, parents) =>
      g <- gets (_allfilesincluster cluster 0) ;;
      items <- gen_all g ;;
      ret (flat_map
             (fun it : fileinfo =>
                let '(filename, attributes, modified, cluster, file_size) := it in
                if negb (Z.land attributes 0x10 =? 0)
                   && (hidden || negb (Z.land attributes 2 =? 0))
                then [mk_FAT12FileInfo filename attributes None cluster None]
                else [])
             items)
  end.

(** The entry of a slot; [attributes & 0x10] on the [None] of a free or
    last slot is a [TypeError]. *)
Definition parse_slot (fcluster foffset : Z) : M (str * Z * datetime * Z * Z) :=
  raw <- _readdirentry fcluster foffset ;;
  e <- lift (_parsedirentry raw) ;;
  match e with
  | Entry filename attributes modified cluster file_size =>
      ret (filename, attributes, modified, cluster, file_size)
  | _ => raise TypeError
  end.

Definition stat (path : str) : M FAT12FileInfo :=
  r <- _resolvepath path false ;;
  match r with
  | None => raise FileNotFoundError
  | Some (cluster, fcluster, foffset) =>
      e <- parse_slot fcluster foffset ;;
      let '(filename, attributes, modified, cluster, file_size) := e in
      let is_dir := negb (Z.land attributes 0x10 =? 0) in
      ret (mk_FAT12FileInfo filename attributes
             (if negb is_dir then Some modified else None)
             cluster
             (if negb is_dir then Some file_size else None))
  end.

Fixpoint _readfile_loop (idx : list Z) (file_size cluster : Z) (data : bytes)
  : M bytes :=
  match idx with
  | [] => ret data
  | i :: idx' =>
      c <- _readcluster cluster ;;
      let data := data ++ slice_to c (file_size - i) in
      cluster <- fat_get cluster ;;
      _readfile_loop idx' file_size cluster data
  end.

Definition _readfile (fcluster foffset : Z) : M bytes :=
  p <- gets params ;;
  let bps := bytes_per_sector p in
  let bpc := bps * sectors_per_cluster p in
  e <- parse_slot fcluster foffset ;;
  let '(filename, attributes, modified, cluster, file_size) := e in
  let is_dir := negb (Z.land attributes 0x10 =? 0) in
  if is_dir then raise (ValueError "cannot read a directory")
  else _readfile_loop (range 0 file_size bpc) file_size cluster [].

Definition read_file (path : str) : M bytes :=
  r <- _resolvepath path false ;;
  match r with
  | None => raise FileNotFoundError
  | Some (cluster, fcluster, foffset) => _readfile fcluster foffset
  end.

(** [while not eoc(self._fat[lcluster]): lcluster = self._fat[lcluster]] *)
Fixpoint _writefile_last (fuel : nat) (lcluster : Z) : M Z :=
  match fuel with
  | O => raise Diverges
  | S fuel' =>
      next <- fat_get lcluster ;;
      if negb (_cluster_is_end_of_chain next) then _writefile_last fuel' next
      else ret lcluster
  end.

Fixpoint _writefile_extend (idx : list Z) (lcluster : Z) : M Z :=
  match idx with
  | [] => ret lcluster
  | _ :: idx' =>
      lcluster <- _alloccluster (Some lcluster) ;;
      _writefile_extend idx' lcluster
  end.

Fixpoint _writefile_data (idx : list Z) (contents : bytes) (bpc i datacluster : Z)
  : M unit :=
  match idx with
  | [] => ret tt
  | _ :: idx' =>
      assert (_isvalidcluster datacluster) ;;;
      let w := slice contents i (i + bpc) in
      let w := if Zlength w <? bpc then w ++ zeros (bpc - Zlength w) else w in
      _writecluster datacluster w ;;;
      datacluster <- fat_get datacluster ;;
      _writefile_data idx' contents bpc (i + bpc) datacluster
  end.

(** [while self._isvalidcluster(fcluster): ...]: the test is on the
    cluster of the directory slot, which the body does not change. *)
Fixpoint _writefile_truncate (fuel : nat) (fcluster cluster : Z) : M Z :=
  match fuel with
  | O => raise Diverges
  | S fuel' =>
      if _isvalidcluster fcluster then
        ncluster <- fat_get cluster ;;
        fat_set cluster 0 ;;;
        _writefile_truncate fuel' fcluster ncluster
      else ret cluster
  end.

Definition _writefile (fcluster foffset : Z) (contents : bytes)
  (ignore_readonly : bool) : M unit :=
  p <- gets params ;;
  let bps := bytes_per_sector p in
  let bpc := bps * sectors_per_cluster p in
  e <- parse_slot fcluster foffset ;;
  let '(filename, attributes, modified, cluster, file_size) := e in
  let is_dir := negb (Z.land attributes 0x10 =? 0) in
  if is_dir then raise (ValueError "cannot write to a directory")
  else if negb ignore_readonly && (Z.land attributes 1 =? 1)
  then raise (ValueError "file is read-only")
  else
    (* empty file? *)
    let file_clusters := (file_size + (bpc - 1)) / bpc in
    first <-
      (if cluster =? 0 then
         assert (file_size =? 0) ;;;
         if negb (nonempty contents) then ret None
         else
           cluster <- _alloccluster None ;;
           ret (Some (cluster, 1))
       else ret (Some (cluster, file_clusters))) ;;
    match first with
    | None => ret tt
    | Some (cluster, file_clusters) =>
        (* last cluster of file *)
        fuel <- gets chain_fuel ;;
        lcluster <- _writefile_last fuel cluster ;;
        (* new clusters to allocate? *)
        let new_file_size := Zlength contents in
        let new_file_clusters := (new_file_size + (bpc - 1)) / bpc in
        lcluster <- _writefile_extend (range file_clusters new_file_clusters 1)
                      lcluster ;;
        (* write data *)
        _writefile_data (range 0 new_file_clusters 1) contents bpc 0 cluster ;;;
        (* file keeps going? *)
        cluster <- (if new_file_clusters <? file_clusters then
                      fuel <- gets chain_fuel ;;
                      _writefile_truncate fuel fcluster cluster
                    else ret cluster) ;;
        (* update dir entry *)
        entry <- _makedirentry (NameStr filename) attributes None cluster
                   new_file_size ;;
        _writedirentry fcluster foffset entry ;;;
        commit
    end.

Definition write_file (path : str) (contents : bytes) (ignore_readonly : bool)
  : M unit :=
  r <- _resolvepath path false ;;
  r <- match r with
       | None => _createfile path false
       | Some _ => ret r
       end ;;
  match r with
  | None => raise FileNotFoundError
  | Some (cluster, fcluster, foffset) =>
      _writefile fcluster foffset contents ignore_readonly
  end.

Definition set_attributes (path : str) (attrib : Z) : M unit :=
  r <- _resolvepath path false ;;
  match r with
  | None => raise FileNotFoundError
  | Some (cluster, fcluster, foffset) =>
      let dcluster := cluster in
      e <- parse_slot fcluster foffset ;;
      let '(filename, attributes, modified, cluster, file_size) := e in
      if negb (dcluster =? 1) && is_dotfile filename
      then raise (ValueError "cannot edit dotfile")
      else
        let attributes := Z.lor (Z.land attributes 0xD8) (Z.land attrib 0x27) in
        entry <- _makedirentry (NameStr filename) attributes (Some modified)
                   cluster file_size ;;
        _writedirentry fcluster foffset entry
  end.

(** [while self._isvalidcluster(cluster): ...] *)
Fixpoint free_chain (fuel : nat) (cluster : Z) : M Z :=
  match fuel with
  | O => raise Diverges
  | S fuel' =>
      if _isvalidcluster cluster then
        ncluster <- fat_get cluster ;;
        fat_set cluster 0 ;;;
        free_chain fuel' ncluster
      else ret cluster
  end.

Definition delete_file (path : str) (ignore_readonly : bool) : M unit :=
  r <- _resolvepath path false ;;
  match r with
  | None => raise FileNotFoundError
  | Some (cluster, fcluster, foffset) =>
      let dcluster := cluster in
      e <- parse_slot fcluster foffset ;;
      let '(filename, attributes, modified, cluster, file_size) := e in
      let is_dir := negb (Z.land attributes 0x10 =? 0) in
      if is_dir then raise (ValueError "cannot delete a directory with delete_file")
      else if negb ignore_readonly && (Z.land attributes 1 =? 1)
      then raise (ValueError "file is read-only")
      else if negb (dcluster =? 1) && is_dotfile filename
      then raise (ValueError "cannot delete dotfile")
      else
        (* free clusters *)
        fuel <- gets chain_fuel ;;
        cluster <- free_chain fuel cluster ;;
        (* update dir entry *)
        _rmdirentry fcluster foffset cluster ;;;
        commit
  end.

Definition create_directory (path : str) (chdir : bool) : M unit :=
  _createdirectory path false chdir ;;;
  commit.

(** The call [_isemptydir(cluster)] is to a global name, which the module
    does not define; what follows it in the source ([_chdirroot], the loop
    that frees the chain, [_rmdirentry] and [commit]) is never reached. *)
Definition remove_directory (path : str) : M unit :=
  r <- _resolvepath path false ;;
  match r with
  | None => raise FileNotFoundError
  | Some (cluster, fcluster, foffset) =>
      e <- parse_slot fcluster foffset ;;
      let '(filename, attributes, modified, cluster, file_size) := e in
      let is_dir := negb (Z.land attributes 0x10 =? 0) in
      if negb is_dir
      then raise (ValueError "cannot delete a file with remove_directory")
      else raise (NameError "_isemptydir")
  end.

Definition rename (path : str) (name : str) : M unit :=
  r <- _resolvepath path false ;;
  match r with
  | None => raise FileNotFoundError
  | Some (cluster, fcluster, foffset) =>
      let dcluster := cluster in
      e <- parse_slot fcluster foffset ;;
      let '(filename, attributes, modified, cluster, file_size) := e in
      if negb (dcluster =? 1) && is_dotfile filename
      then raise (ValueError "cannot rename dotfile")
      else
        entry <- _makedirentry (NameStr name) attributes (Some modified)
                   cluster file_size ;;
        _writedirentry fcluster foffset entry
  end.

(** [filename] is a local variable of [move], bound only further down:
    reading it in the dotfile test is an [UnboundLocalError], and the test
    reads it whenever the source is not in the root directory. *)
Definition move (path : str) (folder : str) : M unit :=
  r <- _resolvepath path false ;;
  d <- _resolvedir folder false ;;
  match r with
  | None => raise FileNotFoundError
  | Some (cluster, fcluster, foffset) =>
      match d with
      | None => raise FileNotFoundError
      | Some (dcluster, parents) =>
          dotfile <- (if negb (cluster =? 1)
                      then raise (UnboundLocalError "filename")
                      else ret false) ;;
          if dotfile : bool then raise (ValueError "cannot move dotfile")
          else if cluster =? dcluster then ret tt
          else
            oentry <- _readdirentry fcluster foffset ;;
            e <- lift (_parsedirentry oentry) ;;
            match e with
            | Entry filename attributes modified cluster file_size =>
                let is_dir := negb (Z.land attributes 0x10 =? 0) in
                cwd <- gets _dircluster ;;
                (if is_dir && (cluster =? cwd) then _chdirroot else ret tt) ;;;
                slot <- _allocdirentry cluster 0 ;;
                let '(dcluster, ocluster, offset) := slot in
                _writedirentry ocluster offset oentry ;;;
                _rmdirentry fcluster foffset cluster ;;;
                commit
            | _ => raise TypeError
            end
      end
  end.

Definition exists_ (path : str) : M bool :=
  r <- _resolvepath path false ;;
  match r with
  | None => ret false
  | Some _ => ret true
  end.

Definition isfile (path : str) : M bool :=
  r <- _resolvepath path false ;;
  match r with
  | None => ret false
  | Some (cluster, fcluster, foffset) =>
      e <- parse_slot fcluster foffset ;;
      let '(filename, attributes, modified, cluster, file_size) := e in
      ret (Z.land attributes 0x10 =? 0)
  end.

Definition isdir (path : str) : M bool :=
  d <- _resolvedir path false ;;
  match d with
  | None => ret false
  | Some _ => ret true
  end.

Definition issamefile (path1 path2 : str) : M (option bool) :=
  s <- _resolvepath path1 false ;;
  d <- _resolvepath path2 false ;;
  match s, d with
  | Some (_, sfcluster, sfoffset), Some (_, dfcluster, dfoffset) =>
      ret (Some ((sfcluster =? dfcluster) && (sfoffset =? dfoffset)))
  | _, _ => ret None
  end.

(** [attributes | 0x20 & ~0x04]: [&] binds tighter than [|]. *)
Definition copy_attributes (attributes : Z) : Z :=
  Z.lor attributes (Z.land 0x20 (Z.lnot 0x04)).

Definition copy (source destination : str) (ignore_readonly : bool) : M unit :=
  s <- _resolvepath source false ;;
  d <- _resolvepath destination false ;;
  match s with
  | None => raise FileNotFoundError
  | Some (scluster, sfcluster, sfoffset) =>
      let same :=
        match d with
        | Some (_, dfcluster, dfoffset) =>
            (sfcluster =? dfcluster) && (sfoffset =? dfoffset)
        | None => false
        end in
      if same then raise (ValueError "cannot copy file to itself")
      else
        d <- match d with
             | None => _createfile destination false
             | Some _ => ret d
             end ;;
        match d with
        | None => raise FileNotFoundError
        | Some (dcluster, dfcluster, dfoffset) =>
            e <- parse_slot sfcluster sfoffset ;;
            let '(filename, attributes, modified, cluster, file_size) := e in
            de <- parse_slot dfcluster dfoffset ;;
            let '(_, dattributes, _, _, _) := de in
            (if Z.land dattributes 0x10 =? 0x10
             then (* directory: [at_root] is not a name of this scope *)
               raise (NameError "at_root")
             else ret tt) ;;;
            if negb ignore_readonly && (Z.land dattributes 1 =? 1)
            then raise (ValueError "destination file is read-only")
            else
              entry <- _makedirentry (NameStr (Path.basename destination))
                         (copy_attributes attributes) None 0 0 ;;
              _writedirentry dfcluster dfoffset entry ;;;
              contents <- _readfile sfcluster sfoffset ;;
              _writefile dfcluster dfoffset contents true
        end
  end.

(** ** [FAT12.format] *)

Definition boot_bpb : bytes :=
  [235; 60; 144; 102; 97; 116; 49; 50; 46; 112; 121; 0; 2; 1; 1; 0; 2; 224;
   0; 64; 11; 240; 9; 0; 18; 0; 2; 0].

Definition boot_code : bytes :=
  [14; 31; 190; 91; 124; 172; 32; 192; 116; 11; 86; 180; 14; 187; 7; 0;
   205; 16; 94; 235; 240; 49; 192; 205; 22; 205; 25; 235; 252].

Definition boot_message : bytes :=
  [13; 10; 84; 104; 105; 115; 32; 105; 115; 32; 110; 111; 116; 32; 97; 32;
   98; 111; 111; 116; 97; 98; 108; 101; 32; 102; 108; 111; 112; 112; 121;
   46; 13; 10; 80; 108; 101; 97; 115; 101; 32; 114; 101; 109; 111; 118;
   101; 32; 116; 104; 105; 115; 32; 100; 105; 115; 107; 32; 97; 110; 100;
   32; 112; 114; 101; 115; 115; 32; 97; 110; 121; 32; 107; 101; 121; 46;
   46; 46; 13; 10; 0].

(** [vsn] is what [os.urandom(4)] returns and [clock] what the new object
    reads as the current time. *)
Definition format (image : FloppyImage.t) (label : str) (vsn : bytes)
  (clock : datetime) : result FAT12 :=
  if negb (FloppyImage.is3_5 (FloppyImage.size image))
     && negb (FloppyImage.capacity image =? 1440)
  then Raise NotImplementedError
  else
    label <-- match encode_cp437 label with
              | Ok l => Ok l
              | Raise _ => Raise (ValueError "label must be ASCII only")
              end ;;
    if 11 <? Zlength label then Raise (ValueError "label is too long")
    else
      let label := if Zlength label <? 11
                   then label ++ repeat 32 (Z.to_nat (11 - Zlength label))
                   else label in
      let mbr := zeros 512 in
      let mbr := slice_set mbr 0 0x1C boot_bpb in
      mbr <-- index_set mbr 0x26 0x29 ;;
      let mbr := slice_set mbr 0x27 (0x27 + 4) vsn in
      let mbr := slice_set mbr 0x2B (0x2B + 11) label in
      let mbr := slice_set mbr 0x36 (0x36 + 8) (py "FAT12   ") in
      let mbr := slice_set mbr 0x3E (0x3E + 29) boot_code in
      let mbr := slice_set mbr 0x5B (0x5B + Zlength boot_message) boot_message in
      let mbr := slice_set mbr 0x1FE 0x200 [0x55; 0xAA] in
      image <-- FloppyImage.write_mbr image mbr ;;
      let image := FloppyImage.write image 0x200 [0xF0; 0xFF; 0xFF; 0x00] in
      let image := FloppyImage.write image 0x1400 [0xF0; 0xFF; 0xFF; 0x00] in
      fat <-- _readfs image clock ;;
      let fat := set_write_label fat true in
      match _updatelabel fat with
      | (Ok _, fat) => Ok fat
      | (Raise e, _) => Raise e
      end.

(** ** Notions the statements use *)

(** A byte. *)
Definition byte_range (b : Z) : Prop := 0 <= b < 256.

(** A method that leaves the object as it found it, whether it returns or
    raises. *)
Definition readonly {A} (m : M A) : Prop := forall st, snd (m st) = st.

(** A method that leaves the component [f] of the object as it found it. *)
Definition preserves {X A} (f : FAT12 -> X) (m : M A) : Prop :=
  forall st, f (snd (m st)) = f st.

(** If [m] returns from a state where [P] holds, [R] holds afterwards. *)
Definition hoare {A} (P : FAT12 -> Prop) (m : M A) (R : FAT12 -> Prop) : Prop :=
  forall st, P st -> (exists a, fst (m st) = Ok a) -> R (snd (m st)).

(** The sector size of the image (512 on every image [FloppyImage] makes). *)
Definition image_bps (st : FAT12) : Z :=
  FloppyImage.bytes_per_sector (_image st).

Definition bps_ok (st : FAT12) : Prop := 0 <= image_bps st.

Definition is_separator (c : Z) : bool := (c =? 47) || (c =? 92).

(** The [k]-th copy of the FAT in the image, as [read_sectors] returns it. *)
Definition fat_copy (k : Z) (st : FAT12) : bytes :=
  let p := params st in
  let img := _image st in
  FloppyImage.read img
    ((fat_start_sector p + k * sectors_per_fat p) * FloppyImage.bytes_per_sector img)
    (sectors_per_fat p * FloppyImage.bytes_per_sector img).

Definition fat_copies_equal (st : FAT12) : Prop :=
  forall k, 0 <= k < fat_count (params st) -> fat_copy k st = fat_copy 0 st.

(** The bytes of the image. *)
Definition image_data (st : FAT12) : bytes := FloppyImage._data (_image st).

(** ** Well-formed volumes

    The geometry of a mounted volume as [_readbpb] accepts it and [_readfat]
    derives it, a FAT of even length (as unpacking gives) whose indices
    are all below the reserved values, no label write pending, and a clock
    in the years the packed date can hold. *)
Definition wf_volume (st : FAT12) : bool :=
  let p := params st in
  (bytes_per_sector p =? 512) && (sectors_per_cluster p =? 1)
  && (image_bps st =? 512)
  && (1 <=? fat_start_sector p) && (0 <=? sectors_per_fat p)
  && (1 <=? fat_count p) && (0 <=? root_entries p)
  && (_root_dir_sector st
      =? fat_start_sector p + sectors_per_fat p * fat_count p)
  && (_first_cluster_sector st
      =? _root_dir_sector st + root_entries p / 16 - 2)
  && negb (_write_label st)
  && (1980 <=? year (now st)) && (year (now st) <=? 2107)
  && (Z.land (Zlength (_fat st)) 1 =? 0)
  && (Zlength (_fat st) <=? 0xFF0).

(** What no method changes once the volume is mounted. *)
Definition layout (st : FAT12) : bpb * Z * Z * Z * datetime :=
  (params st, _root_dir_sector st, _first_cluster_sector st, image_bps st,
   now st).

(** The sectors that hold the directory slots of cluster [fc], as first
    sector and count: the root directory for 1, the cluster otherwise. *)
Definition slot_region (st : FAT12) (fc : Z) : Z * Z :=
  if fc =? 1 then (_root_dir_sector st, root_entries (params st) / 16)
  else (_first_cluster_sector st + fc * sectors_per_cluster (params st),
        sectors_per_cluster (params st)).

(** [chain fat c xs]: [xs] are the clusters from [c] to the first one whose
    FAT entry is an end-of-chain value. *)
Inductive chain (fat : list Z) : Z -> list Z -> Prop :=
| chain_end c e :
    index fat c = Ok e -> _cluster_is_end_of_chain e = true ->
    chain fat c [c]
| chain_step c x xs :
    index fat c = Ok x -> _cluster_is_end_of_chain x = false ->
    chain fat x xs ->
    chain fat c (c :: xs).

(** A cluster whose FAT entry is not zero. *)
Definition in_use (fat : list Z) (c : Z) : Prop :=
  exists e, index fat c = Ok e /\ e <> 0.

(** The image of [st'] has the bytes of the image of [st] from [lo] on. *)
Definition frame_from (lo : Z) (st st' : FAT12) : Prop :=
  Zlength (image_data st) <= Zlength (image_data st') /\
  forall i j, lo <= i -> i <= j -> j <= Zlength (image_data st) ->
    slice (image_data st') i j = slice (image_data st) i j.

(** The block of [contents] at [i] as [_writefile] writes it to a cluster
    of 512 bytes. *)
Definition block (contents : bytes) (i : Z) : bytes :=
  let w := slice contents i (i + 512) in
  if Zlength w <? 512 then w ++ zeros (512 - Zlength w) else w.

(** The chain of a file that starts at cluster [c]: valid clusters up to
    one whose entry is an end-of-chain value (invariant I3 of the
    specification). *)
Fixpoint file_chain (fuel : nat) (fat : list Z) (c : Z) : option (list Z) :=
  match fuel with
  | O => None
  | S fuel' =>
      if _isvalidcluster c then
        match index fat c with
        | Ok e =>
            if _cluster_is_end_of_chain e then Some [c]
            else option_map (cons c) (file_chain fuel' fat e)
        | Raise _ => None
        end
      else None
  end.

(** The cluster of a directory slot is in use and is not one of the file's
    own: the root directory, or a cluster whose FAT entry is not zero and
    that is not in [chain]. *)
Definition slot_cluster_apart (fat : list Z) (fc : Z) (chain : list Z) : bool :=
  (fc =? 1)
  || ((2 <=? fc)
      && match index fat fc with
         | Ok e => negb (e =? 0)
         | Raise _ => false
         end
      && negb (mem fc chain)).

(** A directory slot that holds an entry whose first byte is a byte, whose
    file is empty (cluster 0) or has a chain as above, and whose own cluster
    is apart from that chain. *)
Definition wf_slot (st : FAT12) (fc fo : Z) : bool :=
  (0 <=? fo)
  && match fst (_readdirentry fc fo st) with
     | Ok raw =>
         match index raw 0 with
         | Ok b0 => is_byte b0
         | Raise _ => false
         end
         && match _parsedirentry raw with
            | Ok (Entry filename attributes modified cluster file_size) =>
                if cluster =? 0 then slot_cluster_apart (_fat st) fc []
                else
                  match file_chain (chain_fuel st) (_fat st) cluster with
                  | Some chain => slot_cluster_apart (_fat st) fc chain
                  | None => false
                  end
            | _ => false
            end
     | Raise _ => false
     end.

(** The first two steps of [write_file]: the slot of [path], found or
    created. *)
Definition locate (path : str) : M (option (Z * Z * Z)) :=
  r <- _resolvepath path false ;;
  match r with
  | None => _createfile path false
  | Some _ => ret r
  end.

(** The free space of the volume: the clusters whose entry is zero. *)
Definition free_clusters (st : FAT12) : Z :=
  Zlength (filter (Z.eqb 0) (skipn 2 (_fat st))).

Definition free_bytes (st : FAT12) : Z :=
  free_clusters st
  * (bytes_per_sector (params st) * sectors_per_cluster (params st)).

(** The entries of the [k]-th FAT copy in the image. *)
Definition fat_on_disk (k : Z) (st : FAT12) : result (list Z) :=
  fat_unpack (fat_copy k st).

(** ** Sample volumes

    A volume is the result of the calls that made it; [after] runs one more
    call on it, which has to return, and [outcome] gives what a call returns
    or raises on it. *)

Definition sample_time : datetime :=
  mk_datetime 2024 5 17 10 30 44 eq_refl.

Definition after {A} (m : M A) (v : result FAT12) : result FAT12 :=
  st <-- v ;;
  match m st with
  | (Ok _, st') => Ok st'
  | (Raise e, _) => Raise e
  end.

Definition outcome {A} (m : M A) (v : result FAT12) : option (result A) :=
  match v with
  | Ok st => Some (fst (m st))
  | Raise _ => None
  end.

(** What is left of the volume when the call has returned or raised. *)
Definition leftover {A} (m : M A) (v : result FAT12) : result FAT12 :=
  st <-- v ;; Ok (snd (m st)).

Definition observe {A} (f : FAT12 -> A) (v : result FAT12) : option A :=
  match v with
  | Ok st => Some (f st)
  | Raise _ => None
  end.

(** The object of a volume, for the statements that are about an object;
    an object that mounts nothing stands for a volume whose making
    raised. *)
Definition unmounted : FAT12 :=
  mk_FAT12 (FloppyImage.mk FloppyImage.InOther 0 0 [])
    (mk_bpb 0 0 0 0 0 0 0 0 0 0 0 0 0 0 false None None) [] [] 0 0 false
    (LabelBytes []) None 1 [] sample_time.

Definition volume (v : result FAT12) : FAT12 :=
  match v with
  | Ok st => st
  | Raise _ => unmounted
  end.

(** A blank 1.44 MB image, formatted. *)
Definition formatted : result FAT12 :=
  img <-- FloppyImage.new FloppyImage.In3_5 1440 ;;
  format img (py "TEST") [0x12; 0x34; 0x56; 0x78] sample_time.

(** Scenario 3 and 4 of the specification: a file of ten clusters in the
    root directory, then overwritten with 256 bytes. *)
Definition vol_big : result FAT12 :=
  after (write_file (py "/BIG.TXT") (repeat 65 (Z.to_nat 5120)) false) formatted.
Definition vol_big_shrunk : result FAT12 :=
  after (write_file (py "/BIG.TXT") (repeat 66 (Z.to_nat 256)) false) vol_big.

(** A subdirectory made the current directory, and a file of two clusters
    in it. *)
Definition vol_in_sub : result FAT12 :=
  after (create_directory (py "/SUB") true) formatted.
Definition vol_sub_file : result FAT12 :=
  after (write_file (py "A.TXT") (repeat 65 (Z.to_nat 1024)) false) vol_in_sub.

(** Scenario 5 of the specification. *)
Definition vol_sub : result FAT12 :=
  after (create_directory (py "/SUB") false) formatted.
Definition vol_sub_a : result FAT12 :=
  after (write_file (py "/SUB/A.TXT") (py "x") false) vol_sub.
Definition vol_sub_a_moved : result FAT12 :=
  after (move (py "/SUB/A.TXT") (py "/")) vol_sub_a.

(** A file in the root directory, moved to the subdirectory. *)
Definition vol_a_sub : result FAT12 :=
  after (create_directory (py "/SUB") false)
    (after (write_file (py "/A.TXT") (py "x") false) formatted).
Definition vol_a_sub_moved : result FAT12 :=
  after (move (py "/A.TXT") (py "/SUB")) vol_a_sub.

(** A file in the root directory, with the system attribute, then copied;
    and the same file made read-only. *)
Definition vol_a : result FAT12 :=
  after (write_file (py "/A.TXT") (py "x") false) formatted.
Definition vol_a_system : result FAT12 :=
  after (set_attributes (py "/A.TXT") 0x04) vol_a.
Definition vol_a_copied : result FAT12 :=
  after (copy (py "/A.TXT") (py "/B.TXT") false) vol_a_system.
Definition vol_a_readonly : result FAT12 :=
  after (set_attributes (py "/A.TXT") 0x01) vol_a.

(** An image whose second FAT copy holds a stale byte when it is formatted,
    then an empty file created and renamed. *)
Definition vol_stale : result FAT12 :=
  img <-- FloppyImage.new FloppyImage.In3_5 1440 ;;
  format (FloppyImage.write img 0x1404 [0xFF]) (py "TEST")
    [0x12; 0x34; 0x56; 0x78] sample_time.
Definition vol_stale_renamed : result FAT12 :=
  after (rename (py "/E.TXT") (py "F.TXT"))
    (after (write_file (py "/E.TXT") [] false) vol_stale).

(** ** Small objects for the statements about one image or one FAT

    An image of four sectors, and an object whose FAT is given (the other
    fields are those of [unmounted]). *)
Definition small_image : FloppyImage.t :=
  FloppyImage.mk FloppyImage.In3_5 2048 512 (zeros 2048).

Definition with_fat (fat : list Z) : FAT12 := set_fat unmounted fat.

(** An image of eight sectors of 512 bytes whose boot sector describes one
    FAT of three sectors from sector 1 on and a root directory of sixteen
    entries (sector 4), so that clusters 2, 3 and 4 are sectors 5, 6 and 7;
    the FAT starts with the two reserved entries.  [tiny] is the object
    that mounts it. *)
Definition tiny_image : FloppyImage.t :=
  FloppyImage.mk FloppyImage.In3_5 4096 512
    (zeros 11 ++ [0; 2; 1; 1; 0; 1; 16; 0; 8; 0; 240; 3; 0] ++ zeros 488
     ++ [0xF0; 0xFF; 0xFF] ++ zeros 3581).

Definition tiny : result FAT12 := _readfs tiny_image sample_time.

Definition tiny_a : result FAT12 :=
  after (write_file (py "/A.TXT") (py "x") false) tiny.

Definition tiny_sub : result FAT12 :=
  after (create_directory (py "/SUB") false) tiny.

Definition tiny_a_readonly : result FAT12 :=
  after (set_attributes (py "/A.TXT") 0x01) tiny_a.

Definition tiny_sub_a : result FAT12 :=
  after (write_file (py "/A.TXT") (py "x") false) tiny_sub.

Definition tiny_sub_hidden : result FAT12 :=
  after (set_attributes (py "/SUB") 0x02) tiny_sub.

Definition tiny_e : result FAT12 :=
  after (write_file (py "/E.TXT") [] false) tiny.

Definition tiny_a_renamed : result FAT12 :=
  after (rename (py "/A.TXT") (py "b.txt")) tiny_a.

(** * Properties *)

(** ** Results and the monad *)

Lemma rbind_Ok {A B} (m : result A) (k : A -> result B) (b : B) :
  rbind m k = Ok b -> exists a, m = Ok a /\ k a = Ok b.
Proof. destruct m as [a|e]; simpl; intros H; [eauto | discriminate]. Qed.

Lemma rassert_Ok (b : bool) (u : unit) : rassert b = Ok u -> b = true.
Proof. destruct b; simpl; [reflexivity | discriminate]. Qed.

Lemma bind_Ok {A B} (m : M A) (k : A -> M B) st b st' :
  bind m k st = (Ok b, st') ->
  exists a st1, m st = (Ok a, st1) /\ k a st1 = (Ok b, st').
Proof.
  unfold bind. destruct (m st) as [[a|e] st1]; intros H.
  - eauto.
  - discriminate.
Qed.

Lemma bind_eq {A B} (m : M A) (k : A -> M B) st a st1 :
  m st = (Ok a, st1) -> bind m k st = k a st1.
Proof. unfold bind. intros ->. reflexivity. Qed.

Lemma bind_Raise {A B} (m : M A) (k : A -> M B) st e st1 :
  m st = (Raise e, st1) -> bind m k st = (Raise e, st1).
Proof. unfold bind. intros ->. reflexivity. Qed.

Lemma lift_Ok {A} (r : result A) st a st' :
  lift r st = (Ok a, st') -> r = Ok a /\ st' = st.
Proof. unfold lift. intros H. inversion H. split; reflexivity. Qed.

Lemma assert_Ok (b : bool) st u st' :
  assert b st = (Ok u, st') -> b = true /\ st' = st.
Proof.
  unfold assert. intros H. apply lift_Ok in H. destruct H as [H ->].
  split; [eapply rassert_Ok; eauto | reflexivity].
Qed.

(** ** Arithmetic of the bit fields *)

Lemma land_mul_pow2_disjoint (a b n : Z) :
  0 <= n -> 0 <= a < 2 ^ n -> Z.land (b * 2 ^ n) a = 0.
Proof.
  intros Hn Ha. apply Z.bits_inj'. intros i Hi.
  rewrite Z.land_spec, Z.bits_0.
  destruct (Z.lt_ge_cases i n) as [Hlt|Hge].
  - rewrite Z.mul_pow2_bits_low by lia. reflexivity.
  - rewrite <- (Z.mod_small a (2 ^ n)) by lia.
    rewrite Z.mod_pow2_bits_high by lia. apply andb_false_r.
Qed.

Lemma lor_high_low (a b n : Z) :
  0 <= n -> 0 <= a < 2 ^ n -> Z.lor (b * 2 ^ n) a = b * 2 ^ n + a.
Proof.
  intros Hn Ha.
  pose proof (land_mul_pow2_disjoint a b n Hn Ha) as H.
  rewrite <- (Z.lxor_lor _ _ H). symmetry. apply Z.add_nocarry_lxor. exact H.
Qed.

Lemma land_ones_small (a n : Z) :
  0 <= n -> 0 <= a < 2 ^ n -> Z.land a (Z.ones n) = a.
Proof. intros Hn Ha. rewrite Z.land_ones by lia. apply Z.mod_small. lia. Qed.

(** ** [struct] *)

Lemma le_bytes_length (n : nat) (x : Z) : List.length (le_bytes n x) = n.
Proof. revert x. induction n; simpl; intros; [reflexivity | f_equal; apply IHn]. Qed.

Lemma le_value_le_bytes (n : nat) (x : Z) :
  0 <= x < 256 ^ Z.of_nat n -> le_value (le_bytes n x) = x.
Proof.
  revert x. induction n as [|n IH]; intros x Hx.
  - simpl in *. lia.
  - cbn [le_bytes le_value]. rewrite IH.
    + pose proof (Z.div_mod x 256). lia.
    + rewrite Nat2Z.inj_succ, Z.pow_succ_r in Hx by lia.
      split; [apply Z.div_pos; lia | apply Z.div_lt_upper_bound; lia].
Qed.

Lemma struct_unpack_pack_uint (n : nat) (x : Z) (b : bytes) :
  struct_pack_uint n x = Ok b ->
  struct_unpack_uint n b = Ok x /\ List.length b = n /\ le_value b = x.
Proof.
  unfold struct_pack_uint, struct_unpack_uint.
  destruct ((0 <=? x) && (x <? 256 ^ Z.of_nat n)) eqn:E; [|discriminate].
  intros H. inversion H; subst b. clear H.
  apply andb_prop in E. destruct E as [E1 E2].
  apply Z.leb_le in E1. apply Z.ltb_lt in E2.
  rewrite le_bytes_length, Nat.eqb_refl, le_value_le_bytes by lia.
  repeat split.
Qed.

(** ** [datetime] *)

Lemma datetime_eq (t u : datetime) :
  datetime_tuple t = datetime_tuple u -> t = u.
Proof.
  destruct t as [y mo d h mi s H], u as [y' mo' d' h' mi' s' H'].
  unfold datetime_tuple; simpl. intros E. inversion E; subst.
  f_equal. apply UIP_dec, bool_dec.
Qed.

Lemma datetime_new_fields (t : datetime) :
  datetime_new (year t) (month t) (day t) (hour t) (minute t) (second t) = Ok t.
Proof.
  unfold datetime_new.
  destruct (bool_dec _ true) as [H|H].
  - f_equal. apply datetime_eq. reflexivity.
  - destruct (H (datetime_ok t)).
Qed.

Lemma datetime_range (t : datetime) :
  1 <= year t <= 9999 /\ 1 <= month t <= 12 /\ 1 <= day t <= 31 /\
  0 <= hour t <= 23 /\ 0 <= minute t <= 59 /\ 0 <= second t <= 59.
Proof.
  pose proof (datetime_ok t) as H. unfold datetime_fields_ok in H.
  repeat (apply andb_prop in H; destruct H as [H ?]).
  repeat match goal with
         | H : (_ <=? _) = true |- _ => apply Z.leb_le in H
         end.
  assert (days_in_month (year t) (month t) <= 31).
  { unfold days_in_month.
    repeat match goal with |- context [if ?b then _ else _] => destruct b end; lia. }
  lia.
Qed.

(** ** The packed date and time *)

Ltac pow2_norm :=
  repeat match goal with
         | |- context [Z.pow 2 ?n] =>
             let v := eval compute in (Z.pow 2 n) in
             change (Z.pow 2 n) with v
         end.

Lemma packed_fields (y mo d h mi s : Z) :
  0 <= y < 128 -> 0 <= mo < 16 -> 0 <= d < 32 -> 0 <= h < 32 ->
  0 <= mi < 64 -> 0 <= s < 32 ->
  Z.lor (Z.lor (Z.lor (Z.lor (Z.lor
    (Z.shiftl (Z.land y 0x7F) 25)
    (Z.shiftl (Z.land mo 0x0F) 21))
    (Z.shiftl (Z.land d 0x1F) 16))
    (Z.shiftl (Z.land h 0x1F) 11))
    (Z.shiftl (Z.land mi 0x3F) 5))
    (Z.land s 0x1F)
  = s + 2 ^ 5 * mi + 2 ^ 11 * h + 2 ^ 16 * d + 2 ^ 21 * mo + 2 ^ 25 * y.
Proof.
  intros Hy Hmo Hd Hh Hmi Hs.
  change 0x7F with (Z.ones 7). change 0x0F with (Z.ones 4).
  change 0x1F with (Z.ones 5). change 0x3F with (Z.ones 6).
  rewrite !land_ones_small by (pow2_norm; lia).
  rewrite !Z.shiftl_mul_pow2 by lia.
  rewrite (lor_high_low (mo * 2 ^ 21) y 25) by (pow2_norm; lia).
  replace (y * 2 ^ 25 + mo * 2 ^ 21) with ((y * 2 ^ 4 + mo) * 2 ^ 21) by ring.
  rewrite (lor_high_low (d * 2 ^ 16) _ 21) by (pow2_norm; lia).
  replace ((y * 2 ^ 4 + mo) * 2 ^ 21 + d * 2 ^ 16)
    with ((y * 2 ^ 9 + mo * 2 ^ 5 + d) * 2 ^ 16) by ring.
  rewrite (lor_high_low (h * 2 ^ 11) _ 16) by (pow2_norm; lia).
  replace ((y * 2 ^ 9 + mo * 2 ^ 5 + d) * 2 ^ 16 + h * 2 ^ 11)
    with ((y * 2 ^ 14 + mo * 2 ^ 10 + d * 2 ^ 5 + h) * 2 ^ 11) by ring.
  rewrite (lor_high_low (mi * 2 ^ 5) _ 11) by (pow2_norm; lia).
  replace ((y * 2 ^ 14 + mo * 2 ^ 10 + d * 2 ^ 5 + h) * 2 ^ 11 + mi * 2 ^ 5)
    with ((y * 2 ^ 20 + mo * 2 ^ 16 + d * 2 ^ 11 + h * 2 ^ 6 + mi) * 2 ^ 5) by ring.
  rewrite (lor_high_low s _ 5) by (pow2_norm; lia).
  ring.
Qed.

Lemma div_mod_split (lo hi m : Z) :
  0 <= lo < m -> (lo + m * hi) mod m = lo /\ (lo + m * hi) / m = hi.
Proof.
  intros H.
  assert (E : lo + m * hi = lo + hi * m) by ring.
  rewrite E. split.
  - rewrite Z.mod_add by lia. apply Z.mod_small. lia.
  - rewrite Z.div_add by lia. rewrite Z.div_small by lia. ring.
Qed.

Lemma field_at (lo f hi k w : Z) :
  0 <= lo < 2 ^ k -> 0 <= f < 2 ^ w -> 0 <= k -> 0 <= w ->
  Z.land (Z.shiftr (lo + 2 ^ k * (f + 2 ^ w * hi)) k) (Z.ones w) = f.
Proof.
  intros Hlo Hf Hk Hw.
  rewrite Z.land_ones, Z.shiftr_div_pow2 by lia.
  destruct (div_mod_split lo (f + 2 ^ w * hi) (2 ^ k) Hlo) as [_ ->].
  destruct (div_mod_split f hi (2 ^ w) Hf) as [-> _].
  reflexivity.
Qed.

Lemma unpacked_fields (y mo d h mi s : Z) :
  0 <= y < 128 -> 0 <= mo < 16 -> 0 <= d < 32 -> 0 <= h < 32 ->
  0 <= mi < 64 -> 0 <= s < 32 ->
  let i := s + 2 ^ 5 * mi + 2 ^ 11 * h + 2 ^ 16 * d + 2 ^ 21 * mo + 2 ^ 25 * y in
  Z.land i 0x1F = s /\
  Z.land (Z.shiftr i 5) 0x3F = mi /\
  Z.land (Z.shiftr i 11) 0x1F = h /\
  Z.land (Z.shiftr i 16) 0x1F = d /\
  Z.land (Z.shiftr i 21) 0x0F = mo /\
  Z.land (Z.shiftr i 25) 0x7F = y /\
  0 <= i < 2 ^ 32.
Proof.
  intros Hy Hmo Hd Hh Hmi Hs i.
  change 0x7F with (Z.ones 7). change 0x0F with (Z.ones 4).
  change 0x1F with (Z.ones 5). change 0x3F with (Z.ones 6).
  repeat split.
  - rewrite <- (Z.shiftr_0_r i).
    replace i with (0 + 2 ^ 0 * (s + 2 ^ 5 * (mi + 2 ^ 6 * h + 2 ^ 11 * d
                      + 2 ^ 16 * mo + 2 ^ 20 * y))) by (subst i; ring).
    apply field_at; pow2_norm; lia.
  - replace i with (s + 2 ^ 5 * (mi + 2 ^ 6 * (h + 2 ^ 5 * d
                      + 2 ^ 10 * mo + 2 ^ 14 * y))) by (subst i; ring).
    apply field_at; pow2_norm; lia.
  - replace i with ((s + 2 ^ 5 * mi) + 2 ^ 11 * (h + 2 ^ 5 * (d
                      + 2 ^ 5 * mo + 2 ^ 9 * y))) by (subst i; ring).
    apply field_at; pow2_norm; lia.
  - replace i with ((s + 2 ^ 5 * mi + 2 ^ 11 * h) + 2 ^ 16 * (d + 2 ^ 5 * (mo
                      + 2 ^ 4 * y))) by (subst i; ring).
    apply field_at; pow2_norm; lia.
  - replace i with ((s + 2 ^ 5 * mi + 2 ^ 11 * h + 2 ^ 16 * d)
                    + 2 ^ 21 * (mo + 2 ^ 4 * y)) by (subst i; ring).
    apply field_at; pow2_norm; lia.
  - replace i with ((s + 2 ^ 5 * mi + 2 ^ 11 * h + 2 ^ 16 * d + 2 ^ 21 * mo)
                    + 2 ^ 25 * (y + 2 ^ 7 * 0)) by (subst i; ring).
    apply field_at; pow2_norm; lia.
  - subst i. pow2_norm. lia.
  - subst i. pow2_norm. lia.
Qed.

(** C9.  The packed date and time: a timestamp whose year is in 1980..2107
    and whose seconds are even is encoded in four little-endian bytes, with
    seconds/2 in bits 0..4, the minute in bits 5..10, the hour in bits
    11..15, the day in bits 16..20, the month in bits 21..24 and the year
    minus 1980 in bits 25..31, and decoding these bytes gives the timestamp
    back. *)
Theorem packed_datetime_roundtrip (t : datetime) :
  1980 <= year t <= 2107 ->
  1 <= month t <= 12 ->
  1 <= day t <= 31 ->
  0 <= hour t <= 23 ->
  0 <= minute t <= 59 ->
  0 <= second t <= 58 ->
  Z.even (second t) = true ->
  exists e : bytes,
    _pdt_to_edt t = Ok e /\
    List.length e = 4%nat /\
    le_value e = second t / 2 + 2 ^ 5 * minute t + 2 ^ 11 * hour t
                 + 2 ^ 16 * day t + 2 ^ 21 * month t
                 + 2 ^ 25 * (year t - 1980) /\
    _edt_to_pdt e = Ok t.
Proof.
  intros Hy Hmo Hd Hh Hmi Hs Hev.
  assert (Hs2 : 0 <= second t / 2 < 32 /\ second t / 2 * 2 = second t).
  { apply Z.even_spec in Hev. destruct Hev as [k Hk].
    rewrite Hk. rewrite Z.mul_comm, Z.div_mul by lia. lia. }
  destruct Hs2 as [Hs2 Hs3].
  pose proof (packed_fields (year t - 1980) (month t) (day t) (hour t)
                (minute t) (second t / 2)) as Hp.
  pose proof (unpacked_fields (year t - 1980) (month t) (day t) (hour t)
                (minute t) (second t / 2)) as Hu.
  cbv zeta in Hu.
  destruct Hu as (U1 & U2 & U3 & U4 & U5 & U6 & U7); try lia.
  unfold _pdt_to_edt. cbv zeta beta iota.
  rewrite Hp by lia.
  set (i := second t / 2 + 2 ^ 5 * minute t + 2 ^ 11 * hour t
            + 2 ^ 16 * day t + 2 ^ 21 * month t + 2 ^ 25 * (year t - 1980)) in *.
  destruct (struct_pack_uint 4 i) as [e|err] eqn:E.
  - destruct (struct_unpack_pack_uint _ _ _ E) as (E1 & E2 & E3).
    exists e. repeat split; try assumption.
    unfold _edt_to_pdt. rewrite E1. cbn [rbind].
    rewrite U1, U2, U3, U4, U5, U6, Hs3.
    replace (1980 + (year t - 1980)) with (year t) by ring.
    apply datetime_new_fields.
  - exfalso. unfold struct_pack_uint in E.
    change (256 ^ Z.of_nat 4) with (2 ^ 32) in E.
    destruct (0 <=? i) eqn:E1; [|lia].
    destruct (i <? 2 ^ 32) eqn:E2; [discriminate|lia].
Qed.

Lemma packed_datetime_roundtrip_witness :
  exists e : bytes,
    _pdt_to_edt sample_time = Ok e /\
    List.length e = 4%nat /\
    le_value e = 44 / 2 + 2 ^ 5 * 30 + 2 ^ 11 * 10 + 2 ^ 16 * 17 + 2 ^ 21 * 5
                 + 2 ^ 25 * (2024 - 1980) /\
    _edt_to_pdt e = Ok sample_time.
Proof.
  apply (packed_datetime_roundtrip sample_time); simpl; try lia; reflexivity.
Defined.

(** ** Sequences *)

Lemma index_cons {A} (x : A) (l : list A) (i : Z) :
  0 < i -> index (x :: l) i = index l (i - 1).
Proof.
  intros Hi. unfold index.
  destruct (i <? 0) eqn:E1; [lia|].
  destruct (i - 1 <? 0) eqn:E2; [lia|].
  rewrite E1, E2.
  replace (Z.to_nat i) with (S (Z.to_nat (i - 1))) by lia.
  reflexivity.
Qed.

Lemma index_nth_error {A} (l : list A) (i : Z) (x : A) :
  0 <= i -> (index l i = Ok x <-> nth_error l (Z.to_nat i) = Some x).
Proof.
  intros Hi. unfold index.
  destruct (i <? 0) eqn:E1; [lia|]. rewrite E1.
  destruct (nth_error l (Z.to_nat i)); split; intros H; inversion H; reflexivity.
Qed.

Lemma slice_nonneg {A} (l : list A) (i j : Z) :
  0 <= i -> 0 <= j ->
  slice l i j = firstn (Z.to_nat (j - i)) (skipn (Z.to_nat i) l).
Proof.
  intros Hi Hj. unfold slice.
  destruct (i <? 0) eqn:E1; [lia|]. destruct (j <? 0) eqn:E2; [lia|].
  reflexivity.
Qed.

Lemma slice_cons {A} (x : A) (l : list A) (i j : Z) :
  0 < i -> 0 < j -> slice (x :: l) i j = slice l (i - 1) (j - 1).
Proof.
  intros Hi Hj. rewrite !slice_nonneg by lia.
  replace (Z.to_nat i) with (S (Z.to_nat (i - 1))) by lia.
  replace (j - 1 - (i - 1)) with (j - i) by ring.
  reflexivity.
Qed.

Lemma slice_to_nonneg {A} (l : list A) (j : Z) :
  0 <= j -> slice_to l j = firstn (Z.to_nat j) l.
Proof. intros Hj. unfold slice_to. destruct (j <? 0) eqn:E; [lia|reflexivity]. Qed.

Lemma slice_from_nonneg {A} (l : list A) (i : Z) :
  0 <= i -> slice_from l i = skipn (Z.to_nat i) l.
Proof. intros Hi. unfold slice_from. destruct (i <? 0) eqn:E; [lia|reflexivity]. Qed.

Lemma slice_set_nonneg {A} (l : list A) (i j : Z) (v : list A) :
  0 <= i -> 0 <= j ->
  slice_set l i j v
  = firstn (Z.to_nat i) l ++ v ++ skipn (Z.to_nat (Z.max i j)) l.
Proof.
  intros Hi Hj. unfold slice_set.
  destruct (i <? 0) eqn:E1; [lia|]. destruct (j <? 0) eqn:E2; [lia|].
  reflexivity.
Qed.

Lemma Zlength_length {A} (l : list A) : Zlength l = Z.of_nat (List.length l).
Proof. apply Zlength_correct. Qed.

Lemma Zlength_nonneg {A} (l : list A) : 0 <= Zlength l.
Proof. rewrite Zlength_length. lia. Qed.

Lemma Zlength_app {A} (l l' : list A) : Zlength (l ++ l') = Zlength l + Zlength l'.
Proof. rewrite !Zlength_length, length_app. lia. Qed.

Lemma zeros_length (n : Z) : List.length (zeros n) = Z.to_nat n.
Proof. unfold zeros. apply repeat_length. Qed.

(** ** The FAT codec *)

Lemma pair_entries (b0 b1 b2 : Z) :
  byte_range b0 -> byte_range b1 -> byte_range b2 ->
  let pw := le_value ([b0; b1; b2] ++ [0]) in
  Z.land pw 0xFFF = Z.lor b0 (Z.shiftl (Z.land b1 0x0F) 8) /\
  Z.land (Z.shiftr pw 12) 0xFFF = Z.lor (Z.shiftr b1 4) (Z.shiftl b2 4) /\
  fat_pack_pair (Z.land pw 0xFFF) (Z.land (Z.shiftr pw 12) 0xFFF)
  = Ok [b0; b1; b2].
Proof.
  intros H0 H1 H2 pw. unfold byte_range in H0, H1, H2.
  pose proof (Z.div_mod b1 16 ltac:(lia)) as E.
  pose proof (Z.mod_pos_bound b1 16 ltac:(lia)) as Hr.
  assert (Hq : 0 <= b1 / 16 < 16)
    by (split; [apply Z.div_pos; lia | apply Z.div_lt_upper_bound; lia]).
  set (q := b1 / 16) in *. set (r := b1 mod 16) in *.
  assert (Ep : pw = (b0 + 256 * r) + 2 ^ 12 * (q + 16 * b2 + 2 ^ 12 * 0)).
  { subst pw. cbn [le_value app]. pow2_norm. lia. }
  change 0xFFF with (Z.ones 12). change 0x0F with (Z.ones 4).
  assert (E0 : Z.land pw (Z.ones 12) = b0 + 256 * r).
  { rewrite Z.land_ones by lia. rewrite Ep.
    apply div_mod_split. pow2_norm. lia. }
  assert (E1 : Z.land (Z.shiftr pw 12) (Z.ones 12) = q + 16 * b2).
  { rewrite Ep. apply field_at; pow2_norm; lia. }
  rewrite E0, E1.
  split; [|split].
  - rewrite Z.land_ones by lia. change (b1 mod 2 ^ 4) with r.
    rewrite Z.shiftl_mul_pow2 by lia. rewrite Z.lor_comm.
    rewrite lor_high_low by (pow2_norm; lia). pow2_norm. ring.
  - rewrite Z.shiftr_div_pow2, Z.shiftl_mul_pow2 by lia.
    change (b1 / 2 ^ 4) with q. rewrite Z.lor_comm.
    rewrite lor_high_low by (pow2_norm; lia). pow2_norm. ring.
  - unfold fat_pack_pair.
    change 0xFFF with (Z.ones 12).
    rewrite !land_ones_small by (pow2_norm; lia).
    rewrite Z.shiftl_mul_pow2 by lia. rewrite Z.lor_comm.
    rewrite lor_high_low by (pow2_norm; lia).
    assert (Ev : (q + 16 * b2) * 2 ^ 12 + (b0 + 256 * r)
                 = b0 + 256 * (b1 + 256 * (b2 + 256 * 0)))
      by (pow2_norm; lia).
    rewrite Ev. unfold struct_pack_uint.
    change (256 ^ Z.of_nat 4) with 4294967296.
    destruct (0 <=? b0 + 256 * (b1 + 256 * (b2 + 256 * 0))) eqn:G1; [|lia].
    destruct (b0 + 256 * (b1 + 256 * (b2 + 256 * 0)) <? 4294967296) eqn:G2; [|lia].
    cbn [andb rbind le_bytes].
    rewrite slice_to_nonneg by lia. cbn [Z.to_nat Pos.to_nat Pos.iter_op Nat.add firstn].
    destruct (div_mod_split b0 (b1 + 256 * (b2 + 256 * 0)) 256 H0) as [-> ->].
    destruct (div_mod_split b1 (b2 + 256 * 0) 256 H1) as [-> ->].
    destruct (div_mod_split b2 0 256 H2) as [-> _].
    reflexivity.
Qed.

Lemma fat_unpack_cases (P : bytes -> list Z -> Prop) :
  P [] [] ->
  (forall b0 b1 b2 rest tl,
      fat_unpack rest = Ok tl -> P rest tl ->
      let pair := le_value ([b0; b1; b2] ++ [0]) in
      P (b0 :: b1 :: b2 :: rest)
        (Z.land pair 0xFFF :: Z.land (Z.shiftr pair 12) 0xFFF :: tl)) ->
  forall data fat, fat_unpack data = Ok fat -> P data fat.
Proof.
  intros Hnil Hcons data.
  assert (G : forall n data, (List.length data <= n)%nat ->
                forall fat, fat_unpack data = Ok fat -> P data fat).
  { induction n as [|n IH]; intros d Hd fat Hf.
    - destruct d; [|simpl in Hd; lia]. simpl in Hf. inversion Hf. exact Hnil.
    - destruct d as [|b0 [|b1 [|b2 rest]]]; simpl in Hf; try discriminate.
      + inversion Hf. exact Hnil.
      + destruct (fat_unpack rest) as [tl|] eqn:Et; [|discriminate].
        cbn [rbind] in Hf. inversion Hf; subst fat.
        apply Hcons; [exact Et|]. apply IH; [simpl in Hd; lia|exact Et]. }
  intros fat. apply (G (List.length data)). lia.
Qed.

Lemma fat_pack_pair_length (e0 e1 : Z) (w : bytes) :
  fat_pack_pair e0 e1 = Ok w -> List.length w = 3%nat.
Proof.
  unfold fat_pack_pair. intros H.
  apply rbind_Ok in H. destruct H as (b & Hb & H). inversion H; subst w.
  apply struct_unpack_pack_uint in Hb. destruct Hb as (_ & Hl & _).
  rewrite slice_to_nonneg by lia. rewrite length_firstn. rewrite Hl. reflexivity.
Qed.

Lemma slice_set_twice {A} (l w r : list A) (j : Z) :
  0 <= j ->
  slice_set (slice_set l j (j + Zlength w) w) (j + Zlength w)
    (j + Zlength w + Zlength r) r
  = slice_set l j (j + Zlength (w ++ r)) (w ++ r).
Proof.
  intros Hj. pose proof (Zlength_nonneg w). pose proof (Zlength_nonneg r).
  rewrite Zlength_app.
  rewrite !slice_set_nonneg by lia.
  rewrite !Z.max_r by lia.
  rewrite !Zlength_length in *.
  set (a := Z.to_nat j).
  replace (Z.to_nat (j + Z.of_nat (List.length w))) with (a + List.length w)%nat by lia.
  replace (Z.to_nat (j + Z.of_nat (List.length w) + Z.of_nat (List.length r)))
    with (a + List.length w + List.length r)%nat by lia.
  replace (Z.to_nat (j + (Z.of_nat (List.length w) + Z.of_nat (List.length r))))
    with (a + List.length w + List.length r)%nat by lia.
  destruct (Nat.le_gt_cases a (List.length l)) as [Hle|Hgt].
  - assert (La : List.length (firstn a l) = a) by (rewrite length_firstn; lia).
    rewrite (app_assoc (firstn a l) w).
    rewrite firstn_app.
    rewrite firstn_all2 with (l := firstn a l ++ w)
      by (rewrite length_app; lia).
    rewrite length_app, La.
    replace (a + List.length w - (a + List.length w))%nat with O by lia.
    rewrite firstn_O, app_nil_r.
    rewrite skipn_app.
    rewrite skipn_all2 with (l := firstn a l ++ w)
      by (rewrite length_app; lia).
    rewrite length_app, La.
    replace (a + List.length w + List.length r - (a + List.length w))%nat
      with (List.length r) by lia.
    rewrite skipn_skipn.
    replace (List.length r + (a + List.length w))%nat
      with (a + List.length w + List.length r)%nat by lia.
    rewrite <- !app_assoc. reflexivity.
  - rewrite (firstn_all2 (n := a) l) by lia.
    rewrite (skipn_all2 (n := (a + List.length w)%nat) l) by lia.
    rewrite (skipn_all2 (n := (a + List.length w + List.length r)%nat) l) by lia.
    rewrite !app_nil_r.
    rewrite firstn_all2 by (rewrite length_app; lia).
    rewrite skipn_all2 by (rewrite length_app; lia).
    rewrite app_nil_r, app_assoc. reflexivity.
Qed.

Lemma slice_set_empty {A} (l : list A) (j : Z) :
  0 <= j -> slice_set l j (j + Zlength (@nil A)) [] = l.
Proof.
  intros Hj. rewrite slice_set_nonneg by (rewrite ?Zlength_nil; lia).
  rewrite Zlength_nil, Z.add_0_r, Z.max_id. simpl. apply firstn_skipn.
Qed.

(** The loop of [_writefat] is one slice assignment of the chunks. *)
Lemma fat_pack_loop_chunks (fat : list Z) (fats : bytes) (j : Z) :
  0 <= j ->
  fat_pack_loop fat fats j
  = (chunks <-- fat_pack_chunks fat ;;
     Ok (slice_set fats j (j + Zlength chunks) chunks)).
Proof.
  assert (G : forall n fat, (List.length fat <= n)%nat ->
                forall fats j, 0 <= j ->
                  fat_pack_loop fat fats j
                  = (chunks <-- fat_pack_chunks fat ;;
                     Ok (slice_set fats j (j + Zlength chunks) chunks))).
  { induction n as [|n IH]; intros f Hf fats' j' Hj.
    - destruct f; [|simpl in Hf; lia]. simpl. rewrite slice_set_empty by lia.
      reflexivity.
    - destruct f as [|e0 [|e1 rest]].
      + simpl. rewrite slice_set_empty by lia. reflexivity.
      + reflexivity.
      + cbn [fat_pack_loop fat_pack_chunks].
        destruct (fat_pack_pair e0 e1) as [w|] eqn:Ew; [|reflexivity].
        cbn [rbind].
        pose proof (fat_pack_pair_length _ _ _ Ew) as Lw.
        assert (Zw : Zlength w = 3) by (rewrite Zlength_length, Lw; reflexivity).
        rewrite IH by (simpl in Hf; lia).
        destruct (fat_pack_chunks rest) as [r|]; [|reflexivity].
        cbn [rbind]. f_equal.
        rewrite <- Zw. apply slice_set_twice. lia. }
  intros Hj. apply (G (List.length fat)); lia.
Qed.

(** C7.  The FAT codec: unpacking decodes the three bytes [b0, b1, b2] at
    offset [3k] into the entries [b0 | ((b1 & 0x0F) << 8)] and
    [(b1 >> 4) | (b2 << 4)] at the indices [2k] and [2k + 1], and packing
    the entries of a byte string that unpacks gives the byte string back,
    both with the loop of [_writefat] as it is written and in the form
    [_writefat] uses here. *)
Theorem fat_unpack_pack_roundtrip (data : bytes) (fat : list Z) :
  Forall byte_range data ->
  fat_unpack data = Ok fat ->
  (forall k b0 b1 b2,
      0 <= k ->
      slice data (3 * k) (3 * k + 3) = [b0; b1; b2] ->
      index fat (2 * k) = Ok (Z.lor b0 (Z.shiftl (Z.land b1 0x0F) 8)) /\
      index fat (2 * k + 1) = Ok (Z.lor (Z.shiftr b1 4) (Z.shiftl b2 4))) /\
  fat_pack (Zlength data) (fat_pad fat) = Ok data /\
  fat_pack_loop (fat_pad fat) (zeros (Zlength data)) 0 = Ok data.
Proof.
  intros Hb Hu.
  assert (G : (forall k b0 b1 b2,
                  0 <= k ->
                  slice data (3 * k) (3 * k + 3) = [b0; b1; b2] ->
                  index fat (2 * k) = Ok (Z.lor b0 (Z.shiftl (Z.land b1 0x0F) 8)) /\
                  index fat (2 * k + 1) = Ok (Z.lor (Z.shiftr b1 4) (Z.shiftl b2 4))) /\
              fat_pack_chunks fat = Ok data /\
              (exists n, Zlength fat = 2 * n)).
  { revert Hb. pattern data, fat. apply fat_unpack_cases; [| |exact Hu].
    - intros _. split; [|split].
      + intros k b0 b1 b2 Hk Hs. rewrite slice_nonneg in Hs by lia.
        rewrite skipn_nil, firstn_nil in Hs. discriminate.
      + reflexivity.
      + exists 0. reflexivity.
    - intros c0 c1 c2 rest tl Hrest IH pw Hall.
      inversion Hall as [|? ? A0 Hall1]; subst.
      inversion Hall1 as [|? ? A1 Hall2]; subst.
      inversion Hall2 as [|? ? A2 Hall3]; subst.
      destruct (IH Hall3) as (IH1 & IH2 & n & IH3).
      destruct (pair_entries c0 c1 c2 A0 A1 A2) as (P0 & P1 & P2).
      fold pw in P0, P1, P2.
      split; [|split].
      + intros k b0 b1 b2 Hk Hs.
        destruct (Z.eq_dec k 0) as [->|Hk0].
        * rewrite slice_nonneg in Hs by lia. simpl in Hs.
          inversion Hs; subst. rewrite P0, P1.
          split; [reflexivity|]. rewrite index_cons by lia. reflexivity.
        * rewrite !slice_cons in Hs by lia.
          replace (3 * k - 1 - 1 - 1) with (3 * (k - 1)) in Hs by ring.
          replace (3 * k + 3 - 1 - 1 - 1) with (3 * (k - 1) + 3) in Hs by ring.
          destruct (IH1 (k - 1) b0 b1 b2 ltac:(lia) Hs) as [I0 I1].
          rewrite !index_cons by lia.
          replace (2 * k - 1 - 1) with (2 * (k - 1)) by ring.
          replace (2 * k + 1 - 1 - 1) with (2 * (k - 1) + 1) by ring.
          split; assumption.
      + cbn [fat_pack_chunks]. rewrite P2. cbn [rbind]. rewrite IH2.
        reflexivity.
      + exists (n + 1). rewrite !Zlength_cons, IH3. ring. }
  destruct G as (G1 & G2 & n & G3).
  assert (Hpad : fat_pad fat = fat).
  { unfold fat_pad. rewrite G3. change 1 with (Z.ones 1).
    rewrite Z.land_ones by lia. change (2 ^ 1) with 2.
    rewrite Z.mul_comm, Z.mod_mul by lia. reflexivity. }
  assert (Hpack : fat_pack (Zlength data) fat = Ok data).
  { unfold fat_pack. rewrite G2. cbn [rbind]. f_equal.
    pose proof (Zlength_nonneg data).
    rewrite slice_set_nonneg by lia. rewrite Z.max_r by lia.
    simpl firstn. rewrite skipn_all2 by (rewrite zeros_length; lia).
    apply app_nil_r. }
  rewrite Hpad. split; [exact G1|]. split; [exact Hpack|].
  rewrite fat_pack_loop_chunks by lia. exact Hpack.
Qed.

Lemma fat_unpack_pack_roundtrip_witness :
  (forall k b0 b1 b2,
      0 <= k ->
      slice [0xF0; 0xFF; 0xFF; 0x03; 0x40; 0x00] (3 * k) (3 * k + 3) = [b0; b1; b2] ->
      index [0xFF0; 0xFFF; 3; 4] (2 * k)
      = Ok (Z.lor b0 (Z.shiftl (Z.land b1 0x0F) 8)) /\
      index [0xFF0; 0xFFF; 3; 4] (2 * k + 1)
      = Ok (Z.lor (Z.shiftr b1 4) (Z.shiftl b2 4))) /\
  fat_pack (Zlength [0xF0; 0xFF; 0xFF; 0x03; 0x40; 0x00]) (fat_pad [0xFF0; 0xFFF; 3; 4])
  = Ok [0xF0; 0xFF; 0xFF; 0x03; 0x40; 0x00] /\
  fat_pack_loop (fat_pad [0xFF0; 0xFFF; 3; 4])
    (zeros (Zlength [0xF0; 0xFF; 0xFF; 0x03; 0x40; 0x00])) 0
  = Ok [0xF0; 0xFF; 0xFF; 0x03; 0x40; 0x00].
Proof.
  apply (fat_unpack_pack_roundtrip [0xF0; 0xFF; 0xFF; 0x03; 0x40; 0x00]
           [0xFF0; 0xFFF; 3; 4]).
  - repeat constructor; unfold byte_range; lia.
  - reflexivity.
Defined.

(** ** The sequence operations against Python's definition of them

    [slice], [slice_set], [len_le] and [len_lt] are written so that they do
    not walk a long sequence to its end; these lemmas give them in terms of
    the length, as the language reference does. *)

Lemma skipn_clamp {A} (l : list A) (i : Z) :
  0 <= i -> skipn (Z.to_nat (Z.min i (Zlength l))) l = skipn (Z.to_nat i) l.
Proof.
  intros Hi. rewrite Zlength_length.
  destruct (Z.le_gt_cases i (Z.of_nat (List.length l))).
  - rewrite Z.min_l by lia. reflexivity.
  - rewrite Z.min_r by lia. rewrite !skipn_all2 by lia. reflexivity.
Qed.

Lemma firstn_clamp {A} (l : list A) (i : Z) :
  0 <= i -> firstn (Z.to_nat (Z.min i (Zlength l))) l = firstn (Z.to_nat i) l.
Proof.
  intros Hi. rewrite Zlength_length.
  destruct (Z.le_gt_cases i (Z.of_nat (List.length l))).
  - rewrite Z.min_l by lia. reflexivity.
  - rewrite Z.min_r by lia. rewrite !firstn_all2 by lia. reflexivity.
Qed.

Lemma slice_clamp {A} (l : list A) (i j : Z) :
  slice l i j
  = firstn (Z.to_nat (clamp (Zlength l) j - clamp (Zlength l) i))
      (skipn (Z.to_nat (clamp (Zlength l) i)) l).
Proof.
  unfold slice.
  destruct (i <? 0) eqn:Ei; [reflexivity|].
  destruct (j <? 0) eqn:Ej; [reflexivity|].
  cbn [orb]. unfold clamp. rewrite Ei, Ej.
  apply Z.ltb_ge in Ei. apply Z.ltb_ge in Ej.
  rewrite skipn_clamp by lia.
  pose proof (Zlength_length l) as E.
  destruct (Z.le_gt_cases j (Zlength l)).
  - rewrite (Z.min_l j) by lia.
    destruct (Z.le_gt_cases i (Zlength l)).
    + rewrite Z.min_l by lia. reflexivity.
    + rewrite !skipn_all2 by lia. rewrite !firstn_nil. reflexivity.
  - rewrite (Z.min_r j) by lia.
    destruct (Z.le_gt_cases i (Zlength l)).
    + rewrite Z.min_l by lia.
      rewrite !firstn_all2 by (rewrite length_skipn; lia). reflexivity.
    + rewrite !skipn_all2 by lia. rewrite !firstn_nil. reflexivity.
Qed.

Lemma slice_set_clamp {A} (l : list A) (i j : Z) (v : list A) :
  slice_set l i j v
  = firstn (Z.to_nat (clamp (Zlength l) i)) l ++ v
    ++ skipn (Z.to_nat (Z.max (clamp (Zlength l) i) (clamp (Zlength l) j))) l.
Proof.
  unfold slice_set.
  destruct (i <? 0) eqn:Ei; [reflexivity|].
  destruct (j <? 0) eqn:Ej; [reflexivity|].
  cbn [orb]. unfold clamp. rewrite Ei, Ej.
  apply Z.ltb_ge in Ei. apply Z.ltb_ge in Ej.
  rewrite firstn_clamp by lia.
  replace (Z.max (Z.min i (Zlength l)) (Z.min j (Zlength l)))
    with (Z.min (Z.max i j) (Zlength l)) by lia.
  rewrite skipn_clamp by lia. reflexivity.
Qed.

Lemma len_le_spec {A} (l : list A) (k : Z) : len_le l k = (Zlength l <=? k).
Proof.
  unfold len_le. rewrite Zlength_length.
  destruct (0 <=? k) eqn:Ek; cbn [andb].
  - apply Z.leb_le in Ek.
    destruct (skipn (Z.to_nat k) l) eqn:Es.
    + symmetry. apply Z.leb_le.
      pose proof (length_skipn (Z.to_nat k) l) as L. rewrite Es in L. simpl in L.
      lia.
    + symmetry. apply Z.leb_gt.
      pose proof (length_skipn (Z.to_nat k) l) as L. rewrite Es in L. simpl in L.
      lia.
  - symmetry. apply Z.leb_gt. apply Z.leb_gt in Ek. lia.
Qed.

Lemma len_lt_spec {A} (l : list A) (k : Z) : len_lt l k = (Zlength l <? k).
Proof.
  unfold len_lt. rewrite len_le_spec.
  destruct (Zlength l <? k) eqn:E.
  - apply Z.leb_le. apply Z.ltb_lt in E. lia.
  - apply Z.leb_gt. apply Z.ltb_ge in E. lia.
Qed.

Lemma index_in_range {A} (l : list A) (i : Z) :
  (exists x, index l i = Ok x) <-> - Zlength l <= i < Zlength l.
Proof.
  unfold index. rewrite Zlength_length.
  destruct (i <? 0) eqn:Ei; cbv beta iota zeta; rewrite ?Ei.
  - apply Z.ltb_lt in Ei.
    destruct (i + Z.of_nat (List.length l) <? 0) eqn:Ek.
    + apply Z.ltb_lt in Ek. split; [intros [x Hx]; discriminate | lia].
    + apply Z.ltb_ge in Ek.
      destruct (nth_error l (Z.to_nat (i + Z.of_nat (List.length l)))) eqn:En.
      * split; [lia | intros _; eexists; reflexivity].
      * apply nth_error_None in En. split; [intros [x Hx]; discriminate | lia].
  - apply Z.ltb_ge in Ei.
    destruct (nth_error l (Z.to_nat i)) eqn:En.
    + split; [|intros _; eexists; reflexivity]. intros _.
      assert (Z.to_nat i < List.length l)%nat
        by (apply nth_error_Some; rewrite En; discriminate).
      lia.
    + apply nth_error_None in En. split; [intros [x Hx]; discriminate | lia].
Qed.

(** ** Paths that name nothing *)

Lemma replace_backslash_separators (path : str) :
  forallb is_separator path = true ->
  replace_backslash path = repeat 47 (List.length path).
Proof.
  induction path as [|c p IH]; simpl; intros H; [reflexivity|].
  apply andb_prop in H. destruct H as [Hc Hp].
  rewrite (IH Hp). f_equal.
  unfold is_separator in Hc. destruct (c =? 92) eqn:E; [reflexivity|].
  rewrite orb_false_r in Hc. apply Z.eqb_eq in Hc. exact Hc.
Qed.

Lemma separators_slashes (n : nat) : forallb is_separator (repeat 47 n) = true.
Proof. induction n; simpl; [reflexivity | exact IHn]. Qed.

Lemma _splitpath_separator (c : Z) (p : str) :
  forallb is_separator (c :: p) = true ->
  _splitpath (c :: p) = ([], repeat 47 (List.length p)).
Proof.
  intros H. unfold _splitpath. rewrite (replace_backslash_separators _ H).
  reflexivity.
Qed.

Lemma _resolvepath_loop_step (fuel : nat) (c : Z) (p : str) (cluster : Z)
  (found : option (Z * Z)) :
  forallb is_separator (c :: p) = true ->
  _resolvepath_loop (S fuel) (c :: p) cluster found
  = match p with
    | [] => ret (found_entry cluster found)
    | _ => _resolvepath_loop fuel (repeat 47 (List.length p)) 1 found
    end.
Proof.
  intros H. cbn [_resolvepath_loop]. rewrite (_splitpath_separator _ _ H).
  destruct p; reflexivity.
Qed.

Lemma _resolvepath_loop_separators (fuel : nat) (path : str) (cluster : Z)
  (st : FAT12) :
  forallb is_separator path = true ->
  (List.length path < fuel)%nat ->
  _resolvepath_loop fuel path cluster None st = (Ok None, st).
Proof.
  revert path cluster. induction fuel as [|fuel IH]; intros path cluster Hs Hn; [lia|].
  destruct path as [|c p]; [reflexivity|].
  rewrite (_resolvepath_loop_step _ _ _ _ _ Hs).
  destruct p as [|c' p']; [reflexivity|].
  apply IH; [apply separators_slashes|].
  rewrite repeat_length. simpl in *. lia.
Qed.

(** A path made of separators only resolves to nothing, wherever the walk
    starts. *)
Lemma _resolvepath_separators (path : str) (at_root : bool) (st : FAT12) :
  forallb is_separator path = true ->
  _resolvepath path at_root st = (Ok None, st).
Proof.
  intros Hsep. unfold _resolvepath, path_fuel.
  destruct at_root; unfold bind, ret, gets;
    apply _resolvepath_loop_separators; try assumption; lia.
Qed.

(** C10.  On every volume [exists("/")] returns [False], [stat("/")] and
    [read_file("/")] raise [FileNotFoundError] (a path of separators names
    no entry, so [_resolvepath] finds none), while [isdir("/")] returns
    [True]; none of the four calls changes the volume. *)
Theorem root_exists_false_isdir_true (st : FAT12) :
  exists_ (py "/") st = (Ok false, st) /\
  stat (py "/") st = (Raise FileNotFoundError, st) /\
  read_file (py "/") st = (Raise FileNotFoundError, st) /\
  isdir (py "/") st = (Ok true, st).
Proof.
  assert (R : _resolvepath (py "/") false st = (Ok None, st)).
  { apply _resolvepath_separators. reflexivity. }
  unfold exists_, stat, read_file.
  rewrite !(bind_eq _ _ _ _ _ R).
  repeat split.
Qed.

(** ** Methods that only read *)

Create HintDb ro discriminated.

Lemma readonly_ret {A} (a : A) : readonly (ret a).
Proof. intros st. reflexivity. Qed.

Lemma readonly_raise {A} (e : exn) : readonly (@raise A e).
Proof. intros st. reflexivity. Qed.

Lemma readonly_lift {A} (r : result A) : readonly (lift r).
Proof. intros st. reflexivity. Qed.

Lemma readonly_gets {A} (f : FAT12 -> A) : readonly (gets f).
Proof. intros st. reflexivity. Qed.

Lemma readonly_assert (b : bool) : readonly (assert b).
Proof. intros st. reflexivity. Qed.

Lemma readonly_bind {A B} (m : M A) (k : A -> M B) :
  readonly m -> (forall a, readonly (k a)) -> readonly (bind m k).
Proof.
  intros Hm Hk st. unfold bind. specialize (Hm st).
  destruct (m st) as [[a|e] st1]; simpl in Hm; subst st1.
  - apply Hk.
  - reflexivity.
Qed.

Lemma readonly_image_read_sectors (i n : Z) : readonly (image_read_sectors i n).
Proof. intros st. reflexivity. Qed.

Lemma readonly_fat_get (c : Z) : readonly (fat_get c).
Proof. intros st. reflexivity. Qed.

Lemma readonly_makedirentry filename attributes modified cluster file_size :
  readonly (_makedirentry filename attributes modified cluster file_size).
Proof. intros st. reflexivity. Qed.

#[local] Hint Resolve readonly_ret readonly_raise readonly_lift readonly_gets
  readonly_assert readonly_image_read_sectors readonly_fat_get
  readonly_makedirentry : ro.

Ltac ro_step :=
  match goal with
  | |- readonly (bind _ _) => apply readonly_bind; [|intros]
  | |- readonly (if ?b then _ else _) => destruct b
  | |- readonly (match ?x with _ => _ end) => destruct x
  | |- readonly (let '(_, _) := ?x in _) => destruct x
  | |- _ => solve [auto with ro]
  end.

Ltac ro := repeat ro_step.

Lemma readonly_readcluster (c : Z) : readonly (_readcluster c).
Proof. unfold _readcluster, _cluster_index. ro. Qed.

Lemma readonly_read_rootdir : readonly read_rootdir.
Proof. unfold read_rootdir, root_region. ro. Qed.

#[local] Hint Resolve readonly_readcluster readonly_read_rootdir : ro.

Lemma readonly_readdirentry (c o : Z) : readonly (_readdirentry c o).
Proof. unfold _readdirentry. ro. Qed.

#[local] Hint Resolve readonly_readdirentry : ro.

Lemma readonly_parse_slot (c o : Z) : readonly (parse_slot c o).
Proof. unfold parse_slot. ro. Qed.

Lemma readonly_resolvefile_chain (fuel : nat) (name : str) (c o : Z) :
  readonly (_resolvefile_chain fuel name c o).
Proof.
  revert c o. induction fuel as [|fuel IH]; intros c o; cbn [_resolvefile_chain].
  - ro.
  - ro.
Qed.

#[local] Hint Resolve readonly_parse_slot readonly_resolvefile_chain : ro.

Lemma readonly_resolvefile (name : str) (c o : Z) :
  readonly (_resolvefile name c o).
Proof. unfold _resolvefile. ro. Qed.

#[local] Hint Resolve readonly_resolvefile : ro.

Lemma readonly_resolvepath_loop (fuel : nat) (path : str) (c : Z)
  (found : option (Z * Z)) :
  readonly (_resolvepath_loop fuel path c found).
Proof.
  revert path c found.
  induction fuel as [|fuel IH]; intros path c found; cbn [_resolvepath_loop].
  - ro.
  - ro.
Qed.

#[local] Hint Resolve readonly_resolvepath_loop : ro.

Lemma readonly_resolvepath (path : str) (at_root : bool) :
  readonly (_resolvepath path at_root).
Proof. unfold _resolvepath. ro. Qed.

#[local] Hint Resolve readonly_resolvepath : ro.

Lemma readonly_eq {A} (m : M A) (st : FAT12) :
  readonly m -> m st = (fst (m st), st).
Proof. intros H. rewrite <- (H st) at 3. apply surjective_pairing. Qed.

Lemma bind_readonly {A B} (m : M A) (k : A -> M B) (st : FAT12) :
  readonly m ->
  bind m k st = match fst (m st) with
                | Ok a => k a st
                | Raise e => (Raise e, st)
                end.
Proof.
  intros H. unfold bind. rewrite (readonly_eq m st H). simpl.
  destruct (fst (m st)); reflexivity.
Qed.

(** ** [remove_directory] and [_rmdirentry] as they run *)

(** [remove_directory] only reads, and never returns. *)
Lemma readonly_remove_directory (path : str) : readonly (remove_directory path).
Proof. unfold remove_directory. ro. Qed.

Lemma remove_directory_raises (path : str) (st : FAT12) :
  exists e, fst (remove_directory path st) = Raise e.
Proof.
  unfold remove_directory, bind.
  destruct (_resolvepath path false st) as [[[[[c fc] fo]|]|e] st1];
    try (eexists; reflexivity).
  destruct (parse_slot fc fo st1) as [[[[[[fn a] m] cl] sz]|e] st2];
    try (eexists; reflexivity).
  destruct (negb (negb (Z.land a 16 =? 0))); eexists; reflexivity.
Qed.

(** On a directory, the exception is the [NameError] of the unqualified
    [_isemptydir]. *)
Lemma remove_directory_NameError (path : str) (st : FAT12) c fc fo fn a m cl sz :
  fst (_resolvepath path false st) = Ok (Some (c, fc, fo)) ->
  fst (parse_slot fc fo st) = Ok (fn, a, m, cl, sz) ->
  Z.land a 0x10 <> 0 ->
  remove_directory path st = (Raise (NameError "_isemptydir"), st).
Proof.
  intros Hr Hp Ha.
  unfold remove_directory.
  rewrite (bind_readonly _ _ st (readonly_resolvepath path false)), Hr.
  rewrite (bind_readonly _ _ st (readonly_parse_slot fc fo)), Hp.
  destruct (Z.land a 16 =? 0) eqn:E; [apply Z.eqb_eq in E; contradiction|].
  reflexivity.
Qed.

(** In a subdirectory [_rmdirentry] marks the slot and then raises the
    [TypeError] of [len(cluster)]: it never returns and never touches the
    FAT. *)
Lemma _rmdirentry_subdirectory (cluster offset first_cluster : Z) (st : FAT12) :
  cluster <> 1 ->
  (exists e, fst (_rmdirentry cluster offset first_cluster st) = Raise e) /\
  _fat (snd (_rmdirentry cluster offset first_cluster st)) = _fat st.
Proof.
  intros Hc. unfold _rmdirentry.
  destruct (cluster =? 1) eqn:E; [apply Z.eqb_eq in E; contradiction|].
  rewrite (bind_readonly _ _ st (readonly_readcluster cluster)).
  destruct (fst (_readcluster cluster st)) as [data|e];
    [|split; [eexists|]; reflexivity].
  cbv [bind lift len_of_int raise _writecluster _cluster_index gets
       image_write_sectors].
  destruct (index_set data offset 229) as [data'|e];
    [|split; [eexists|]; reflexivity].
  destruct (FloppyImage.write_sectors _ _ _ _) as [img|e];
    split; try (eexists; reflexivity); reflexivity.
Qed.

(** When the slot can be read and written, the exception is that
    [TypeError], and the slot's first byte is [0xE5] in the cluster as
    written. *)
Lemma _rmdirentry_subdirectory_TypeError (cluster offset first_cluster : Z)
  (st : FAT12) (data data' : bytes) (img : FloppyImage.t) :
  cluster <> 1 ->
  fst (_readcluster cluster st) = Ok data ->
  index_set data offset 0xE5 = Ok data' ->
  FloppyImage.write_sectors (_image st)
    (_first_cluster_sector st + cluster * sectors_per_cluster (params st))
    (sectors_per_cluster (params st)) data' = Ok img ->
  _rmdirentry cluster offset first_cluster st = (Raise TypeError, set_image st img).
Proof.
  intros Hc Hr Hi Hw. unfold _rmdirentry.
  destruct (cluster =? 1) eqn:E; [apply Z.eqb_eq in E; contradiction|].
  rewrite (bind_readonly _ _ st (readonly_readcluster cluster)), Hr.
  cbv [bind lift len_of_int raise _writecluster _cluster_index gets
       image_write_sectors].
  rewrite Hi, Hw. reflexivity.
Qed.

(** ** The sample volumes *)

Lemma observe_Ok {A} (f : FAT12 -> A) (v : result FAT12) (a : A) :
  observe f v = Some a -> exists st, v = Ok st /\ f st = a.
Proof.
  destruct v as [st|e]; simpl; intros H; [|discriminate].
  inversion H. eauto.
Qed.

Lemma leftover_readonly {A} (m : M A) (v : result FAT12) :
  readonly m -> leftover m v = v.
Proof.
  intros H. destruct v as [st|e]; simpl; [|reflexivity]. rewrite (H st).
  reflexivity.
Qed.

(** C2.  Overwriting the 5120-byte file of the root directory with 256
    bytes returns and sets the size to 256, but the chain keeps its ten
    clusters, in memory and in the FAT written to the image: the entries of
    the clusters 3 to 11 are not zero.  In a subdirectory the same call
    zeroes the whole chain of a two-cluster file in memory, first cluster
    included, and then raises [IndexError], leaving the entry and the FAT
    in the image as they were. *)
Theorem shrink_does_not_free_surplus_clusters :
  observe (fun st =>
             (rmap (fun i => (size i, starting_cluster i))
                (fst (stat (py "/BIG.TXT") st)),
              slice (_fat st) 2 12,
              rmap (fun fat => slice fat 2 12) (fat_on_disk 0 st)))
    vol_big_shrunk
  = Some (Ok (Some 256, 2),
          [3; 4; 5; 6; 7; 8; 9; 10; 11; 0xFFF],
          Ok [3; 4; 5; 6; 7; 8; 9; 10; 11; 0xFFF]) /\
  observe (fun st =>
             (_dircluster st,
              rmap (fun i => (size i, starting_cluster i))
                (fst (stat (py "A.TXT") st)),
              slice (_fat st) 3 5))
    vol_sub_file
  = Some (2, Ok (Some 1024, 3), [4; 0xFFF]) /\
  outcome (write_file (py "A.TXT") [66] false) vol_sub_file
  = Some (Raise IndexError) /\
  observe (fun st =>
             (rmap (fun i => (size i, starting_cluster i))
                (fst (stat (py "A.TXT") st)),
              slice (_fat st) 3 5,
              rmap (fun fat => slice fat 3 5) (fat_on_disk 0 st)))
    (leftover (write_file (py "A.TXT") [66] false) vol_sub_file)
  = Some (Ok (Some 1024, 3), [0; 0], Ok [4; 0xFFF]).
Proof.
  repeat (apply conj); vm_compute; reflexivity.
Qed.

(** C3.  After [create_directory("/SUB")], [write_file("/SUB/A.TXT", b"x")]
    and [move("/SUB/A.TXT", "/")], [isfile("/A.TXT")] holds and [/SUB]
    lists no file, but [exists("/SUB/A.TXT")] still returns [True]: the
    file was created in the root directory and [move] returned at once.
    From the subdirectory as current directory, [move("A.TXT", "/")] raises
    [UnboundLocalError].  Moving [/A.TXT] from the root directory into
    [/SUB] returns, after which the file is in neither directory: the entry
    went to offset 32 of the file's own first cluster. *)
Theorem move_does_not_move :
  observe (fun st =>
             (fst (isfile (py "/A.TXT") st),
              fst (exists_ (py "/SUB/A.TXT") st),
              rmap (map name) (fst (listfiles (py "/SUB") false st))))
    vol_sub_a_moved
  = Some (Ok true, Ok true, Ok []) /\
  observe (fun st => rmap (map name) (fst (listfiles (py "/") false st)))
    vol_sub_a
  = Some (Ok [py "A.TXT"]) /\
  outcome (move (py "A.TXT") (py "/")) vol_sub_file
  = Some (Raise (UnboundLocalError "filename")) /\
  observe (fun st =>
             (rmap (fun i => starting_cluster i) (fst (stat (py "/A.TXT") st)),
              rmap (map name) (fst (listfiles (py "/SUB") false st))))
    vol_a_sub
  = Some (Ok 2, Ok []) /\
  observe (fun st =>
             (fst (exists_ (py "/A.TXT") st),
              rmap (map name) (fst (listfiles (py "/") false st)),
              rmap (map name) (fst (listfiles (py "/SUB") false st)),
              rmap (fun d => slice d 32 43) (fst (_readcluster 2 st))))
    vol_a_sub_moved
  = Some (Ok false, Ok [], Ok [], Ok (py "A       TXT")).
Proof.
  repeat (apply conj); vm_compute; reflexivity.
Qed.

(** C4.  [remove_directory("/SUB")] on a directory that holds a file raises
    [NameError], not the [ValueError] of a directory that is not empty; the
    volume is left as it was. *)
Theorem remove_nonempty_directory_raises_NameError :
  observe (fun st => rmap (map name) (fst (listfiles (py "/SUB") false st)))
    vol_sub_file
  = Some (Ok [py "A.TXT"]) /\
  outcome (remove_directory (py "/SUB")) vol_sub_file
  = Some (Raise (NameError "_isemptydir")) /\
  leftover (remove_directory (py "/SUB")) vol_sub_file = vol_sub_file.
Proof.
  split; [vm_compute; reflexivity|].
  split; [vm_compute; reflexivity|].
  apply leftover_readonly, readonly_remove_directory.
Qed.

(** C5.  [delete_file("A.TXT")] in a subdirectory marks the slot with
    [0xE5] and then raises [TypeError]: the file's chain is freed in
    memory, but the FAT is not written to the image. *)
Theorem rmdirentry_in_subdirectory_raises_TypeError :
  outcome (delete_file (py "A.TXT") false) vol_sub_file
  = Some (Raise TypeError) /\
  observe (fun st =>
             (rmap (fun e => slice e 0 1) (fst (_readdirentry 2 64 st)),
              slice (_fat st) 2 5,
              rmap (fun fat => slice fat 2 5) (fat_on_disk 0 st)))
    (leftover (delete_file (py "A.TXT") false) vol_sub_file)
  = Some (Ok [0xE5], [0xFFF; 0; 0], Ok [0xFFF; 4; 0xFFF]) /\
  outcome (_rmdirentry 2 64 2) vol_sub_file = Some (Raise TypeError).
Proof.
  repeat (apply conj); vm_compute; reflexivity.
Qed.

(** C6.  Copying a file whose attributes are [0x04] gives the destination
    the attributes [0x24]: bit [0x20] is set and bit [0x04] is kept;
    [attributes | 0x20 & ~0x04] is [attributes | 0x20]. *)
Theorem copy_keeps_system_bit :
  observe (fun st =>
             (rmap attributes (fst (stat (py "/A.TXT") st)),
              rmap attributes (fst (stat (py "/B.TXT") st)),
              fst (read_file (py "/B.TXT") st)))
    vol_a_copied
  = Some (Ok 0x04, Ok 0x24, Ok (py "x")) /\
  (forall a, copy_attributes a = Z.lor a 0x20).
Proof.
  split; [vm_compute; reflexivity|].
  intros a. reflexivity.
Qed.

(** ** What the methods leave alone

    [f] is a component of the object that the assignments named in the
    hypotheses do not change; the lemmas of this section say which methods
    leave it alone, each under the hypotheses it needs. *)

Section Frame.

Context {X : Type} (f : FAT12 -> X).

Hypothesis f_set_image :
  forall st data, f (set_image st (FloppyImage.set_data (_image st) data)) = f st.
Hypothesis f_set_fat : forall st x, f (set_fat st x) = f st.
Hypothesis f_set_dircluster : forall st x, f (set_dircluster st x) = f st.
Hypothesis f_set_dirparents : forall st x, f (set_dirparents st x) = f st.
Hypothesis f_set_write_label : forall st x, f (set_write_label st x) = f st.
Hypothesis f_set__label : forall st x, f (set__label st x) = f st.
Hypothesis f_set_label_attr : forall st x, f (set_label_attr st x) = f st.
Hypothesis f_set_bpb_label : forall st x, f (set_bpb_label st x) = f st.

Lemma preserves_readonly {A} (m : M A) : readonly m -> preserves f m.
Proof. intros H st. rewrite (H st). reflexivity. Qed.

Lemma preserves_bind {A B} (m : M A) (k : A -> M B) :
  preserves f m -> (forall a, preserves f (k a)) -> preserves f (bind m k).
Proof.
  intros Hm Hk st. unfold bind. specialize (Hm st).
  destruct (m st) as [[a|e] st1]; simpl in Hm.
  - rewrite (Hk a st1). exact Hm.
  - exact Hm.
Qed.

Lemma preserves_modify (g : FAT12 -> FAT12) :
  (forall st, f (g st) = f st) -> preserves f (modify g).
Proof. intros H st. apply H. Qed.

Lemma preserves_image_write (o : Z) (d : bytes) : preserves f (image_write o d).
Proof. intros st. apply f_set_image. Qed.

Lemma preserves_image_write_sectors (i n : Z) (d : bytes) :
  preserves f (image_write_sectors i n d).
Proof.
  intros st. unfold image_write_sectors, FloppyImage.write_sectors.
  repeat match goal with |- context [if ?b then _ else _] => destruct b end;
    try reflexivity.
  apply f_set_image.
Qed.

Lemma preserves_fat_set (c v : Z) : preserves f (fat_set c v).
Proof.
  intros st. unfold fat_set. destruct (index_set (_fat st) c v); [|reflexivity].
  apply f_set_fat.
Qed.

End Frame.

Create HintDb pv discriminated.

#[local] Hint Resolve readonly_ret readonly_raise readonly_lift readonly_gets
  readonly_assert readonly_image_read_sectors readonly_fat_get
  readonly_makedirentry readonly_readcluster readonly_read_rootdir
  readonly_readdirentry readonly_parse_slot readonly_resolvefile
  readonly_resolvepath : pv.

Ltac pv_step :=
  match goal with
  | |- preserves _ (bind _ _) => apply preserves_bind; [|intros]
  | |- preserves _ (if ?b then _ else _) => destruct b
  | |- preserves _ (match ?x with _ => _ end) => destruct x
  | |- preserves _ (modify _) => apply preserves_modify; intros; solve [auto]
  | |- preserves _ (image_write _ _) => apply preserves_image_write; solve [auto]
  | |- preserves _ (image_write_sectors _ _ _) =>
      apply preserves_image_write_sectors; solve [auto]
  | |- preserves _ (fat_set _ _) => apply preserves_fat_set; solve [auto]
  | |- preserves _ _ => solve [apply preserves_readonly; auto with pv]
  | |- preserves _ _ => solve [auto with pv]
  end.

Ltac pv := repeat pv_step.

Section FrameMethods.

Context {X : Type} (f : FAT12 -> X).

Hypothesis f_set_image :
  forall st data, f (set_image st (FloppyImage.set_data (_image st) data)) = f st.
Hypothesis f_set_fat : forall st x, f (set_fat st x) = f st.
Hypothesis f_set_dircluster : forall st x, f (set_dircluster st x) = f st.
Hypothesis f_set_dirparents : forall st x, f (set_dirparents st x) = f st.
Hypothesis f_set_write_label : forall st x, f (set_write_label st x) = f st.
Hypothesis f_set__label : forall st x, f (set__label st x) = f st.
Hypothesis f_set_label_attr : forall st x, f (set_label_attr st x) = f st.
Hypothesis f_set_bpb_label : forall st x, f (set_bpb_label st x) = f st.

Lemma preserves_writecluster (c : Z) (d : bytes) : preserves f (_writecluster c d).
Proof. unfold _writecluster, _cluster_index. pv. Qed.

Lemma preserves_write_rootdir (d : bytes) : preserves f (write_rootdir d).
Proof. unfold write_rootdir, root_region. pv. Qed.

Hint Resolve preserves_writecluster preserves_write_rootdir : pv.

Lemma preserves_writedirentry (c o : Z) (e : bytes) :
  preserves f (_writedirentry c o e).
Proof. unfold _writedirentry. pv. Qed.

Lemma preserves_alloccluster (a : option Z) : preserves f (_alloccluster a).
Proof. unfold _alloccluster. pv. Qed.

Hint Resolve preserves_writedirentry preserves_alloccluster : pv.

Lemma preserves_allocdirentry_chain (fuel : nat) (oc pc c o : Z) :
  preserves f (_allocdirentry_chain fuel oc pc c o).
Proof.
  revert pc c o. induction fuel as [|fuel IH]; intros pc c o;
    cbn [_allocdirentry_chain]; pv.
Qed.

Hint Resolve preserves_allocdirentry_chain : pv.

Lemma preserves_allocdirentry (c o : Z) : preserves f (_allocdirentry c o).
Proof. unfold _allocdirentry. pv. Qed.

Hint Resolve preserves_allocdirentry : pv.

Lemma preserves_rmdirentry_prev (fuel : nat) (p c : Z) :
  preserves f (_rmdirentry_prev fuel p c).
Proof.
  revert p. induction fuel as [|fuel IH]; intros p; cbn [_rmdirentry_prev]; pv.
Qed.

Hint Resolve preserves_rmdirentry_prev : pv.

Lemma preserves_rmdirentry (c o fc : Z) : preserves f (_rmdirentry c o fc).
Proof. unfold _rmdirentry, len_of_int. pv. Qed.

Hint Resolve preserves_rmdirentry : pv.

Lemma preserves_parents_get (p : plist) : preserves f (parents_get p).
Proof. unfold parents_get. pv. Qed.

Lemma preserves_parents_put (p : plist) (l : list Z) :
  preserves f (parents_put p l).
Proof. unfold parents_put. pv. Qed.

Hint Resolve preserves_parents_get preserves_parents_put : pv.

Lemma preserves_parents_append (p : plist) (c : Z) :
  preserves f (parents_append p c).
Proof. unfold parents_append. pv. Qed.

Lemma preserves_parents_pop (p : plist) : preserves f (parents_pop p).
Proof. unfold parents_pop. pv. Qed.

Hint Resolve preserves_parents_append preserves_parents_pop : pv.

Lemma preserves_resolvedir_loop (fuel : nat) (path : str) (c : Z) (p : plist) :
  preserves f (_resolvedir_loop fuel path c p).
Proof.
  revert path c p. induction fuel as [|fuel IH]; intros path c p;
    cbn [_resolvedir_loop]; pv.
Qed.

Hint Resolve preserves_resolvedir_loop : pv.

Lemma preserves_resolvedir (path : str) (r : bool) :
  preserves f (_resolvedir path r).
Proof. unfold _resolvedir. pv. Qed.

Lemma preserves_chdirroot : preserves f _chdirroot.
Proof.
  unfold _chdirroot. apply preserves_modify. intros st.
  rewrite f_set_dirparents. apply f_set_dircluster.
Qed.

Hint Resolve preserves_resolvedir preserves_chdirroot : pv.

Lemma preserves_createfile_loop (fuel : nat) (path : str) (c : Z)
  (n : option str) :
  preserves f (_createfile_loop fuel path c n).
Proof.
  revert path c n. induction fuel as [|fuel IH]; intros path c n;
    cbn [_createfile_loop]; pv.
Qed.

Hint Resolve preserves_createfile_loop : pv.

Lemma preserves_createfile (path : str) (r : bool) :
  preserves f (_createfile path r).
Proof. unfold _createfile. pv. Qed.

Hint Resolve preserves_createfile : pv.

Lemma preserves_createdirectory (path : str) (r c : bool) :
  preserves f (_createdirectory path r c).
Proof. unfold _createdirectory. pv. Qed.

Lemma preserves_free_chain (fuel : nat) (c : Z) : preserves f (free_chain fuel c).
Proof. revert c. induction fuel as [|fuel IH]; intros c; cbn [free_chain]; pv. Qed.

Lemma preserves_readfile_loop (idx : list Z) (sz c : Z) (d : bytes) :
  preserves f (_readfile_loop idx sz c d).
Proof.
  revert c d. induction idx as [|i idx IH]; intros c d; cbn [_readfile_loop]; pv.
Qed.

Hint Resolve preserves_createdirectory preserves_free_chain
  preserves_readfile_loop : pv.

Lemma preserves_readfile (c o : Z) : preserves f (_readfile c o).
Proof. unfold _readfile. pv. Qed.

Lemma preserves_writefile_last (fuel : nat) (c : Z) :
  preserves f (_writefile_last fuel c).
Proof. revert c. induction fuel as [|fuel IH]; intros c; cbn [_writefile_last]; pv. Qed.

Lemma preserves_writefile_extend (idx : list Z) (c : Z) :
  preserves f (_writefile_extend idx c).
Proof.
  revert c. induction idx as [|i idx IH]; intros c; cbn [_writefile_extend]; pv.
Qed.

Lemma preserves_writefile_data (idx : list Z) (b : bytes) (bpc i c : Z) :
  preserves f (_writefile_data idx b bpc i c).
Proof.
  revert i c. induction idx as [|j idx IH]; intros i c; cbn [_writefile_data]; pv.
Qed.

Lemma preserves_writefile_truncate (fuel : nat) (fc c : Z) :
  preserves f (_writefile_truncate fuel fc c).
Proof.
  revert c. induction fuel as [|fuel IH]; intros c; cbn [_writefile_truncate]; pv.
Qed.

Hint Resolve preserves_readfile preserves_writefile_last
  preserves_writefile_extend preserves_writefile_data
  preserves_writefile_truncate : pv.

Lemma preserves_updatelabel : preserves f _updatelabel.
Proof. unfold _updatelabel. pv. Qed.

Lemma preserves_writebpb : preserves f _writebpb.
Proof. unfold _writebpb. pv. Qed.

Lemma preserves_writefat : preserves f _writefat.
Proof. unfold _writefat. pv. Qed.

Hint Resolve preserves_updatelabel preserves_writebpb preserves_writefat : pv.

Lemma preserves_commit : preserves f commit.
Proof. unfold commit. pv. Qed.

End FrameMethods.

(** ** The copies of the FAT in the image *)

Lemma bytes_times_length (b : bytes) (c : nat) :
  List.length (bytes_times b c) = (c * List.length b)%nat.
Proof. induction c; simpl; [reflexivity|]. rewrite length_app, IHc. reflexivity. Qed.

Lemma bytes_times_block (b : bytes) (c k : nat) :
  (k < c)%nat ->
  firstn (List.length b) (skipn (k * List.length b) (bytes_times b c)) = b.
Proof.
  revert k. induction c as [|c IH]; intros k Hk; [lia|].
  cbn [bytes_times]. destruct k as [|k].
  - cbn [Nat.mul skipn]. rewrite firstn_app, Nat.sub_diag, firstn_O, app_nil_r.
    apply firstn_all.
  - cbn [Nat.mul]. rewrite skipn_app.
    rewrite skipn_all2 by lia.
    replace (List.length b + k * List.length b - List.length b)%nat
      with (k * List.length b)%nat by lia.
    cbn [app]. apply IH. lia.
Qed.

Lemma slice_of_written {A} (data v : list A) (off a b : Z) :
  0 <= off -> off <= Zlength data -> 0 <= a -> 0 <= b -> a + b <= Zlength v ->
  slice (slice_set data off (off + Zlength v) v) (off + a) (off + a + b)
  = firstn (Z.to_nat b) (skipn (Z.to_nat a) v).
Proof.
  intros Hoff Hlen Ha Hb Hab. pose proof (Zlength_nonneg v) as Hv.
  rewrite Zlength_length in *.
  rewrite slice_nonneg, slice_set_nonneg by lia.
  replace (off + a + b - (off + a)) with b by ring.
  set (A0 := firstn (Z.to_nat off) data).
  assert (LA : List.length A0 = Z.to_nat off)
    by (subst A0; rewrite length_firstn; lia).
  rewrite skipn_app, LA.
  rewrite skipn_all2 by lia. cbn [app].
  replace (Z.to_nat (off + a) - Z.to_nat off)%nat with (Z.to_nat a) by lia.
  rewrite skipn_app.
  replace (Z.to_nat a - List.length v)%nat with O by lia.
  cbn [skipn]. rewrite firstn_app.
  replace (Z.to_nat b - List.length (skipn (Z.to_nat a) v))%nat with O
    by (rewrite length_skipn; lia).
  rewrite firstn_O, app_nil_r. reflexivity.
Qed.

Lemma _writefat_Ok (st : FAT12) :
  fst (_writefat st) = Ok tt ->
  exists fats img,
    FloppyImage.write_sectors (_image st) (fat_start_sector (params st))
      (sectors_per_fat (params st) * fat_count (params st))
      (bytes_times fats (Z.to_nat (fat_count (params st)))) = Ok img /\
    snd (_writefat st) = set_image (set_fat st (fat_pad (_fat st))) img.
Proof.
  cbv [_writefat bind gets modify assert lift rassert image_write_sectors].
  destruct (Zlength (_fat st) <=? _); [|simpl; discriminate].
  cbn [_fat params set_fat _image].
  destruct (fat_pack _ _) as [fats|]; [|simpl; discriminate].
  destruct (FloppyImage.write_sectors _ _ _ _) as [img|] eqn:W;
    [|simpl; discriminate].
  intros _. exists fats, img. split; [exact W | reflexivity].
Qed.

(** When [_writefat] returns, every copy in the image is the packed FAT. *)
Lemma _writefat_copies (st : FAT12) :
  0 <= FloppyImage.bytes_per_sector (_image st) ->
  fst (_writefat st) = Ok tt ->
  fat_copies_equal (snd (_writefat st)).
Proof.
  intros Hbps H. destruct (_writefat_Ok st H) as (fats & img & W & E).
  rewrite E. clear E H.
  unfold FloppyImage.write_sectors in W.
  set (p := params st) in *. set (im := _image st) in *.
  set (bps := FloppyImage.bytes_per_sector im) in *.
  destruct (fat_start_sector p <? 0) eqn:E1; [discriminate|].
  rewrite len_le_spec in W.
  destruct (Zlength (FloppyImage._data im) <=? fat_start_sector p * bps) eqn:E2;
    [discriminate|].
  cbn [orb] in W.
  destruct (Zlength (bytes_times fats (Z.to_nat (fat_count p)))
            =? sectors_per_fat p * fat_count p * bps) eqn:E3;
    [|discriminate].
  cbn [negb] in W. inversion W; subst img. clear W.
  apply Z.ltb_ge in E1. apply Z.leb_gt in E2. apply Z.eqb_eq in E3.
  assert (G : forall k, 0 <= k < fat_count p ->
            fat_copy k (set_image (set_fat st (fat_pad (_fat st)))
                          (FloppyImage.write im (fat_start_sector p * bps)
                             (bytes_times fats (Z.to_nat (fat_count p)))))
            = fats).
  { intros k Hk. unfold fat_copy.
    cbn [params set_image set_fat _image]. fold p.
    unfold FloppyImage.write, FloppyImage.read.
    cbn [FloppyImage.set_data FloppyImage._data FloppyImage.bytes_per_sector].
    fold bps.
    set (v := bytes_times fats (Z.to_nat (fat_count p))) in *.
    assert (Lv : List.length v = (Z.to_nat (fat_count p) * List.length fats)%nat)
      by (subst v; apply bytes_times_length).
    rewrite Zlength_length in E3.
    assert (Ln : Z.of_nat (List.length fats) = sectors_per_fat p * bps) by nia.
    replace ((fat_start_sector p + k * sectors_per_fat p) * bps)
      with (fat_start_sector p * bps + k * Z.of_nat (List.length fats)) by nia.
    rewrite <- Ln.
    rewrite slice_of_written; try nia.
    - replace (Z.to_nat (Z.of_nat (List.length fats))) with (List.length fats) by lia.
      replace (Z.to_nat (k * Z.of_nat (List.length fats)))
        with (Z.to_nat k * List.length fats)%nat by nia.
      subst v. apply bytes_times_block. lia.
    - rewrite Zlength_length. nia. }
  intros k Hk. cbn [params set_image set_fat] in Hk. fold p in Hk.
  rewrite (G k Hk), (G 0) by lia. reflexivity.
Qed.

(** ** Operations that end with [commit] *)

Lemma hoare_bind {A B} (P P' R : FAT12 -> Prop) (m : M A) (k : A -> M B) :
  (forall st, P st -> P' (snd (m st))) ->
  (forall a, hoare P' (k a) R) ->
  hoare P (bind m k) R.
Proof.
  intros Hm Hk st HP [b Hb]. unfold bind in *.
  specialize (Hm st HP).
  destruct (m st) as [[a|e] st1]; simpl in Hm; [|simpl in Hb; discriminate].
  apply (Hk a st1 Hm). eauto.
Qed.

Lemma hoare_bind_val {A B} (P P' R : FAT12 -> Prop) (V : A -> Prop)
  (m : M A) (k : A -> M B) :
  (forall st, P st -> P' (snd (m st))) ->
  (forall st a, fst (m st) = Ok a -> V a) ->
  (forall a, V a -> hoare P' (k a) R) ->
  hoare P (bind m k) R.
Proof.
  intros Hm Hv Hk st HP [b Hb]. unfold bind in *.
  specialize (Hm st HP). specialize (Hv st).
  destruct (m st) as [[a|e] st1]; simpl in Hm; [|simpl in Hb; discriminate].
  apply (Hk a (Hv a eq_refl) st1 Hm). eauto.
Qed.

Lemma hoare_raise {A} (P R : FAT12 -> Prop) (e : exn) : hoare P (@raise A e) R.
Proof. intros st _ [a Ha]. discriminate. Qed.

Lemma hoare_ret {A} (P R : FAT12 -> Prop) (a : A) :
  (forall st, P st -> R st) -> hoare P (ret a) R.
Proof. intros H st HP _. apply H, HP. Qed.

Lemma hoare_weaken {A} (P P' R : FAT12 -> Prop) (m : M A) :
  (forall st, P st -> P' st) -> hoare P' m R -> hoare P m R.
Proof. intros H Hm st HP Hok. apply Hm; auto. Qed.

Lemma bps_ok_preserved {A} (m : M A) :
  preserves image_bps m -> forall st, bps_ok st -> bps_ok (snd (m st)).
Proof. intros H st. unfold bps_ok. rewrite (H st). auto. Qed.

Create HintDb bps discriminated.

#[local] Hint Resolve readonly_ret readonly_raise readonly_lift readonly_gets
  readonly_assert readonly_image_read_sectors readonly_fat_get
  readonly_makedirentry readonly_readcluster readonly_read_rootdir
  readonly_readdirentry readonly_parse_slot readonly_resolvefile
  readonly_resolvepath : bps.

Ltac frame_hyps := intros; reflexivity.

Ltac bps_preserved :=
  repeat match goal with
         | |- preserves _ (bind _ _) => apply preserves_bind; [|intros]
         | |- preserves _ (if ?b then _ else _) => destruct b
         | |- preserves _ (match ?x with _ => _ end) => destruct x
         end;
  first
    [ apply preserves_readonly; solve [auto with bps]
    | apply preserves_modify; frame_hyps
    | apply preserves_alloccluster; frame_hyps
    | apply preserves_writedirentry; frame_hyps
    | apply preserves_allocdirentry; frame_hyps
    | apply preserves_rmdirentry; frame_hyps
    | apply preserves_resolvedir; frame_hyps
    | apply preserves_chdirroot; frame_hyps
    | apply preserves_createfile; frame_hyps
    | apply preserves_createdirectory; frame_hyps
    | apply preserves_free_chain; frame_hyps
    | apply preserves_readfile; frame_hyps
    | apply preserves_writefile_last; frame_hyps
    | apply preserves_writefile_extend; frame_hyps
    | apply preserves_writefile_data; frame_hyps
    | apply preserves_writefile_truncate; frame_hyps
    | apply preserves_updatelabel; frame_hyps
    | apply preserves_writebpb; frame_hyps ].

Lemma hoare_writefat : hoare bps_ok _writefat fat_copies_equal.
Proof. intros st HP [[] Ha]. apply _writefat_copies; assumption. Qed.

Lemma hoare_commit : hoare bps_ok commit fat_copies_equal.
Proof.
  unfold commit.
  apply (hoare_bind _ bps_ok); [apply bps_ok_preserved; bps_preserved | intros _].
  apply (hoare_bind _ bps_ok); [apply bps_ok_preserved; bps_preserved | intros _].
  apply hoare_writefat.
Qed.

(** One step of a method that goes on to commit: the step keeps the sector
    size of the image. *)
Ltac to_commit :=
  repeat
    match goal with
    | |- hoare bps_ok commit _ => apply hoare_commit
    | |- hoare _ (raise _) _ => apply hoare_raise
    | |- hoare bps_ok (bind _ _) _ =>
        apply (hoare_bind _ bps_ok);
        [apply bps_ok_preserved; solve [bps_preserved] | intros]
    | |- hoare _ (let x := _ in _) _ => cbv zeta
    | |- hoare _ (if ?b then _ else _) _ => destruct b
    | |- hoare _ (match ?x with _ => _ end) _ => destruct x
    end.

Lemma hoare_set_label (l : label_value) :
  hoare bps_ok (set_label l) fat_copies_equal.
Proof. unfold set_label. to_commit. Qed.

Lemma hoare_create_directory (path : str) (c : bool) :
  hoare bps_ok (create_directory path c) fat_copies_equal.
Proof. unfold create_directory. to_commit. Qed.

Lemma hoare_delete_file (path : str) (ro : bool) :
  hoare bps_ok (delete_file path ro) fat_copies_equal.
Proof. unfold delete_file. to_commit. Qed.

Lemma hoare_writefile (fc fo : Z) (b : bytes) (ro : bool) :
  b <> [] ->
  hoare bps_ok (_writefile fc fo b ro) fat_copies_equal.
Proof.
  intros Hb. destruct b as [|x b]; [congruence|].
  unfold _writefile. cbn [nonempty negb].
  apply (hoare_bind _ bps_ok); [apply bps_ok_preserved; solve [bps_preserved] | intros p].
  cbv zeta.
  apply (hoare_bind _ bps_ok); [apply bps_ok_preserved; solve [bps_preserved] | intros e].
  destruct e as [[[[fn at_] md] cl] sz].
  destruct (negb (Z.land at_ 16 =? 0)); [apply hoare_raise|].
  destruct (negb ro && (Z.land at_ 1 =? 1)); [apply hoare_raise|].
  apply (hoare_bind_val _ bps_ok _ (fun a => a <> None)).
  - apply bps_ok_preserved. bps_preserved.
  - intros st a. destruct (cl =? 0).
    + unfold bind, assert, lift, ret.
      destruct (rassert (sz =? 0)); cbn [fst]; [|discriminate].
      destruct (_alloccluster None st) as [[c|err] st1]; cbn [fst];
        intros H; inversion H; discriminate.
    + cbn [ret fst]. intros H; inversion H; discriminate.
  - intros [[c n]|] Hv; [|congruence]. to_commit.
Qed.

Lemma hoare_post {A} (P R R' : FAT12 -> Prop) (m : M A) :
  (forall st, R st -> R' st) -> hoare P m R -> hoare P m R'.
Proof. intros H Hm st HP Hok. apply H, Hm; assumption. Qed.

Lemma hoare_write_file (path : str) (b : bytes) (ro : bool) :
  b <> [] ->
  hoare bps_ok (write_file path b ro) fat_copies_equal.
Proof.
  intros Hb. unfold write_file.
  apply (hoare_bind _ bps_ok); [apply bps_ok_preserved; solve [bps_preserved] | intros r].
  apply (hoare_bind _ bps_ok); [apply bps_ok_preserved; solve [bps_preserved] | intros r'].
  destruct r' as [[[c fc] fo]|]; [|apply hoare_raise].
  apply hoare_writefile, Hb.
Qed.

(** [move] returns at once when the source is in the target directory;
    the image is then as it was. *)
Lemma hoare_move (path folder : str) (img : FloppyImage.t) :
  hoare (fun st => bps_ok st /\ _image st = img) (move path folder)
    (fun st => fat_copies_equal st \/ _image st = img).
Proof.
  unfold move.
  set (P := fun st => bps_ok st /\ _image st = img).
  assert (Keep : forall A (m : M A),
             preserves image_bps m -> preserves _image m ->
             forall st, P st -> P (snd (m st))).
  { intros A m H1 H2 st [Hb Hi]. split.
    - apply bps_ok_preserved; assumption.
    - rewrite (H2 st). exact Hi. }
  apply (hoare_bind _ P).
  { apply Keep; apply preserves_readonly; auto with bps. }
  intros r.
  apply (hoare_bind _ P).
  { apply Keep; apply preserves_resolvedir; intros; reflexivity. }
  intros d.
  destruct r as [[[c fc] fo]|]; [|apply hoare_raise].
  destruct d as [[dc ps]|]; [|apply hoare_raise].
  apply (hoare_bind _ P).
  { apply Keep; apply preserves_readonly; destruct (negb (c =? 1)); auto with bps. }
  intros dot. destruct dot; [apply hoare_raise|].
  destruct (c =? dc).
  - apply hoare_ret. intros st [_ Hi]. right. exact Hi.
  - apply (hoare_weaken _ bps_ok); [intros st [Hb _]; exact Hb|].
    apply (hoare_post _ fat_copies_equal); [intros st H; left; exact H|].
    to_commit.
Qed.

(** [copy] ends with the write of what it read from the source. *)
Lemma hoare_copy (source destination : str) (ro : bool) :
  hoare bps_ok (copy source destination ro)
    (fun st => fat_copies_equal st \/
               exists sfc sfo st0, fst (_readfile sfc sfo st0) = Ok []).
Proof.
  unfold copy.
  apply (hoare_bind _ bps_ok); [apply bps_ok_preserved; solve [bps_preserved] | intros s].
  apply (hoare_bind _ bps_ok); [apply bps_ok_preserved; solve [bps_preserved] | intros d].
  destruct s as [[[sc sfc] sfo]|]; [|apply hoare_raise].
  cbv zeta.
  match goal with |- hoare _ (if ?b then _ else _) _ => destruct b end;
    [apply hoare_raise|].
  apply (hoare_bind _ bps_ok); [apply bps_ok_preserved; solve [bps_preserved] | intros d'].
  destruct d' as [[[dc dfc] dfo]|]; [|apply hoare_raise].
  apply (hoare_bind _ bps_ok); [apply bps_ok_preserved; solve [bps_preserved] | intros e].
  destruct e as [[[[fn at_] md] cl] sz].
  apply (hoare_bind _ bps_ok); [apply bps_ok_preserved; solve [bps_preserved] | intros de].
  destruct de as [[[[dfn dat] dmd] dcl] dsz].
  apply (hoare_bind _ bps_ok); [apply bps_ok_preserved; solve [bps_preserved] | intros _].
  match goal with |- hoare _ (if ?b then _ else _) _ => destruct b end;
    [apply hoare_raise|].
  apply (hoare_bind _ bps_ok); [apply bps_ok_preserved; solve [bps_preserved] | intros entry].
  apply (hoare_bind _ bps_ok); [apply bps_ok_preserved; solve [bps_preserved] | intros _].
  apply (hoare_bind_val _ bps_ok _
           (fun a => exists st0, fst (_readfile sfc sfo st0) = Ok a)).
  - apply bps_ok_preserved. bps_preserved.
  - intros st a H. exists st. exact H.
  - intros contents [st0 H0]. destruct contents as [|x contents].
    + intros st _ _. right. exists sfc, sfo, st0. exact H0.
    + apply (hoare_post _ fat_copies_equal); [intros st H; left; exact H|].
      apply hoare_writefile. discriminate.
Qed.




(** ** Slices of a sequence around a slice assignment *)

Lemma Zlength_slice_set_le {A} (l v : list A) (off : Z) :
  0 <= off -> Zlength l <= Zlength (slice_set l off (off + Zlength v) v).
Proof.
  intros Hoff. pose proof (Zlength_nonneg v) as Hv.
  rewrite slice_set_nonneg by lia.
  rewrite !Zlength_length in *. rewrite !length_app, length_firstn, length_skipn.
  lia.
Qed.

Lemma Zlength_slice_set_inside {A} (l v : list A) (off : Z) :
  0 <= off -> off + Zlength v <= Zlength l ->
  Zlength (slice_set l off (off + Zlength v) v) = Zlength l.
Proof.
  intros Hoff Hin. pose proof (Zlength_nonneg v) as Hv.
  rewrite slice_set_nonneg by lia.
  rewrite !Zlength_length in *. rewrite !length_app, length_firstn, length_skipn.
  lia.
Qed.

Lemma Zlength_slice_set_fits {A} (l v : list A) (off : Z) :
  0 <= off -> 0 < Zlength v ->
  Zlength (slice_set l off (off + Zlength v) v) = Zlength l ->
  off + Zlength v <= Zlength l.
Proof.
  intros Hoff Hpos. pose proof (Zlength_nonneg v) as Hv.
  rewrite slice_set_nonneg by lia.
  rewrite !Zlength_length in *. rewrite !length_app, length_firstn, length_skipn.
  lia.
Qed.

Lemma Zlength_slice {A} (l : list A) (i n : Z) :
  0 <= i -> 0 <= n -> i + n <= Zlength l -> Zlength (slice l i (i + n)) = n.
Proof.
  intros Hi Hn Hin. rewrite slice_nonneg by lia.
  rewrite !Zlength_length in *. rewrite length_firstn, length_skipn. lia.
Qed.

Lemma firstn_skipn_firstn {A} (l : list A) (a b k : nat) :
  (a + b <= k)%nat ->
  firstn b (skipn a (firstn k l)) = firstn b (skipn a l).
Proof.
  intros H. rewrite skipn_firstn_comm, firstn_firstn.
  replace (Nat.min b (k - a)) with b by lia. reflexivity.
Qed.

Lemma slice_slice_set_other {A} (l v : list A) (off i j : Z) :
  0 <= off -> off <= Zlength l -> 0 <= i -> i <= j -> j <= Zlength l ->
  j <= off \/ off + Zlength v <= i ->
  slice (slice_set l off (off + Zlength v) v) i j = slice l i j.
Proof.
  intros Hoff Hlen Hi Hij Hj Hd. pose proof (Zlength_nonneg v) as Hv.
  rewrite !slice_nonneg, slice_set_nonneg by lia.
  rewrite Zlength_length in *.
  replace (Z.max off (off + Z.of_nat (List.length v)))
    with (off + Z.of_nat (List.length v)) by lia.
  set (A0 := firstn (Z.to_nat off) l).
  assert (LA : List.length A0 = Z.to_nat off)
    by (subst A0; rewrite length_firstn; lia).
  destruct Hd as [Hd|Hd].
  - rewrite skipn_app, firstn_app, length_skipn, LA.
    replace (Z.to_nat (j - i) - (Z.to_nat off - Z.to_nat i))%nat with O by lia.
    rewrite firstn_O, app_nil_r. subst A0.
    apply firstn_skipn_firstn. lia.
  - rewrite skipn_app, LA, skipn_all2 by lia. cbn [app].
    rewrite skipn_app, skipn_all2 by lia. cbn [app].
    rewrite skipn_skipn. f_equal. f_equal. lia.
Qed.

Lemma slice_slice_set_same {A} (l v : list A) (off : Z) :
  0 <= off -> off <= Zlength l ->
  slice (slice_set l off (off + Zlength v) v) off (off + Zlength v) = v.
Proof.
  intros Hoff Hlen. pose proof (Zlength_nonneg v) as Hv.
  pose proof (slice_of_written l v off 0 (Zlength v)) as H.
  rewrite Z.add_0_r in H. rewrite H by lia.
  cbn [skipn Z.to_nat]. rewrite Zlength_length, Nat2Z.id. apply firstn_all.
Qed.

Lemma slice_slice {A} (l : list A) (i n a b : Z) :
  0 <= i -> 0 <= a -> a <= b -> b <= n ->
  slice (slice l i (i + n)) a b = slice l (i + a) (i + b).
Proof.
  intros Hi Ha Hab Hb. rewrite !slice_nonneg by lia.
  replace (i + n - i) with n by ring.
  replace (i + b - (i + a)) with (b - a) by ring.
  rewrite firstn_skipn_firstn by lia.
  rewrite skipn_skipn. f_equal. f_equal. lia.
Qed.

(** ** Sectors of the image *)

Lemma image_data_set_image (st : FAT12) (d : bytes) :
  image_data (set_image st (FloppyImage.set_data (_image st) d)) = d.
Proof. reflexivity. Qed.

Lemma image_read_sectors_Ok (st : FAT12) (s n : Z) (r : bytes) :
  image_bps st = 512 ->
  fst (image_read_sectors s n st) = Ok r ->
  0 <= s /\ (s + n) * 512 <= Zlength (image_data st) /\
  r = slice (image_data st) (s * 512) (s * 512 + n * 512).
Proof.
  unfold image_bps, image_read_sectors, FloppyImage.read_sectors,
    FloppyImage.read, image_data.
  intros -> H. cbn [fst] in H. rewrite len_lt_spec in H.
  destruct (s <? 0) eqn:E1; [discriminate|].
  destruct (Zlength (FloppyImage._data (_image st)) <? (s + n) * 512) eqn:E2;
    [discriminate|].
  cbn [orb] in H. inversion H. repeat split; lia.
Qed.

Lemma image_read_sectors_intro (st : FAT12) (s n : Z) :
  image_bps st = 512 ->
  0 <= s -> (s + n) * 512 <= Zlength (image_data st) ->
  image_read_sectors s n st
  = (Ok (slice (image_data st) (s * 512) (s * 512 + n * 512)), st).
Proof.
  unfold image_bps, image_read_sectors, FloppyImage.read_sectors,
    FloppyImage.read, image_data.
  intros -> H1 H2. rewrite len_lt_spec.
  destruct (s <? 0) eqn:E1; [lia|].
  destruct (Zlength (FloppyImage._data (_image st)) <? (s + n) * 512) eqn:E2;
    [lia|].
  reflexivity.
Qed.

Lemma image_write_sectors_Ok (st st' : FAT12) (s n : Z) (w : bytes) :
  image_bps st = 512 ->
  image_write_sectors s n w st = (Ok tt, st') ->
  0 <= s /\ s * 512 < Zlength (image_data st) /\ Zlength w = n * 512 /\
  st' = set_image st
          (FloppyImage.set_data (_image st)
             (slice_set (image_data st) (s * 512) (s * 512 + Zlength w) w)).
Proof.
  unfold image_bps, image_write_sectors, FloppyImage.write_sectors,
    FloppyImage.write, image_data.
  intros -> H. rewrite len_le_spec in H.
  destruct (s <? 0) eqn:E1; [discriminate|].
  destruct (Zlength (FloppyImage._data (_image st)) <=? s * 512) eqn:E2;
    [discriminate|].
  cbn [orb] in H.
  destruct (Zlength w =? n * 512) eqn:E3; [|discriminate].
  cbn [negb] in H. inversion H. repeat split; lia.
Qed.

(** What a write of [w] at sector [s] leaves of the image. *)
Lemma image_write_sectors_frame (st st' : FAT12) (s n : Z) (w : bytes) :
  image_bps st = 512 ->
  image_write_sectors s n w st = (Ok tt, st') ->
  Zlength (image_data st) <= Zlength (image_data st') /\
  (s + n) * 512 <= Zlength (image_data st') /\
  slice (image_data st') (s * 512) (s * 512 + n * 512) = w /\
  forall i j, 0 <= i -> i <= j -> j <= Zlength (image_data st) ->
              j <= s * 512 \/ (s + n) * 512 <= i ->
              slice (image_data st') i j = slice (image_data st) i j.
Proof.
  intros Hb H. destruct (image_write_sectors_Ok _ _ _ _ _ Hb H)
    as (H1 & H2 & H3 & ->).
  rewrite image_data_set_image.
  pose proof (Zlength_nonneg w) as Hw.
  repeat split.
  - apply Zlength_slice_set_le. lia.
  - rewrite slice_set_nonneg by lia.
    rewrite !Zlength_length in *.
    rewrite !length_app, length_firstn, length_skipn. lia.
  - rewrite <- H3. apply slice_slice_set_same; lia.
  - intros i j Hi Hij Hj Hd. apply slice_slice_set_other; lia.
Qed.

(** ** Well-formed volumes *)

Lemma wf_volume_spec (st : FAT12) :
  wf_volume st = true ->
  bytes_per_sector (params st) = 512 /\
  sectors_per_cluster (params st) = 1 /\
  image_bps st = 512 /\
  1 <= fat_start_sector (params st) /\
  0 <= sectors_per_fat (params st) /\
  1 <= fat_count (params st) /\
  0 <= root_entries (params st) /\
  _root_dir_sector st
  = fat_start_sector (params st)
    + sectors_per_fat (params st) * fat_count (params st) /\
  _first_cluster_sector st
  = _root_dir_sector st + root_entries (params st) / 16 - 2 /\
  _write_label st = false /\
  1980 <= year (now st) <= 2107 /\
  Z.land (Zlength (_fat st)) 1 = 0 /\
  Zlength (_fat st) <= 0xFF0.
Proof.
  unfold wf_volume. cbv zeta. intros H.
  repeat (apply andb_prop in H; let H' := fresh "W" in destruct H as [H H']).
  repeat match goal with
         | W : (_ =? _) = true |- _ => apply Z.eqb_eq in W
         | W : (_ <=? _) = true |- _ => apply Z.leb_le in W
         | W : negb _ = true |- _ => apply negb_true_iff in W
         end.
  repeat split; assumption.
Qed.

Lemma wf_volume_transfer (st st' : FAT12) :
  layout st' = layout st ->
  _write_label st' = _write_label st ->
  Zlength (_fat st') = Zlength (_fat st) ->
  wf_volume st' = wf_volume st.
Proof.
  unfold layout, wf_volume. intros L W F. inversion L as [[L1 L2 L3 L4 L5]].
  cbv zeta. rewrite L1, L2, L3, L4, L5, W, F. reflexivity.
Qed.

(** ** End-of-chain values and valid clusters *)

Lemma eoc_not_valid (e : Z) :
  _cluster_is_end_of_chain e = true -> _isvalidcluster e = false.
Proof.
  unfold _cluster_is_end_of_chain, _isvalidcluster. intros H.
  apply Z.eqb_eq in H.
  destruct (2 <=? e) eqn:E1; [|reflexivity].
  destruct (e <? 0xFF0) eqn:E2; [|reflexivity].
  exfalso. apply Z.leb_le in E1. apply Z.ltb_lt in E2.
  assert (Hle : Z.land e 0xFF8 <= e).
  { rewrite Z.land_comm. change 0xFF8 with (Z.ones 12 - 7) in *.
    assert (Hm : Z.land e (Z.ones 12) = e).
    { rewrite Z.land_ones by lia. apply Z.mod_small.
      change (2 ^ 12) with 4096. lia. }
    pose proof (Z.land_nonneg (Z.ones 12 - 7) e) as Hn.
    pose proof (Z.sub_nocarry_ldiff e (Z.land (Z.ones 12 - 7) e)) as Hs.
    assert (Hl : Z.ldiff (Z.land (Z.ones 12 - 7) e) e = 0).
    { apply Z.bits_inj'. intros n Hn0.
      rewrite Z.ldiff_spec, Z.land_spec, Z.bits_0.
      destruct (Z.testbit e n); rewrite ?andb_false_r; reflexivity. }
    specialize (Hs Hl).
    pose proof (Z.ldiff_nonneg e (Z.land (Z.ones 12 - 7) e)) as Hd.
    lia. }
  lia.
Qed.

Lemma valid_not_eoc (c : Z) :
  _isvalidcluster c = true -> _cluster_is_end_of_chain c = false.
Proof.
  intros H. destruct (_cluster_is_end_of_chain c) eqn:E; [|reflexivity].
  apply eoc_not_valid in E. congruence.
Qed.

Lemma valid_range (c : Z) : _isvalidcluster c = true <-> 2 <= c < 0xFF0.
Proof.
  unfold _isvalidcluster. rewrite andb_true_iff, Z.leb_le, Z.ltb_lt. tauto.
Qed.

(** ** Assignments to one item *)

Lemma index_set_spec {A} (l l' : list A) (i : Z) (v : A) :
  0 <= i -> index_set l i v = Ok l' ->
  Zlength l' = Zlength l /\ i < Zlength l /\
  index l' i = Ok v /\
  forall j, 0 <= j -> j <> i -> index l' j = index l j.
Proof.
  intros Hi. unfold index_set.
  destruct (i <? 0) eqn:E1; [lia|]. rewrite E1.
  destruct (skipn (Z.to_nat i) l) as [|x r] eqn:Es; [discriminate|].
  intros H. inversion H. subst l'. clear H.
  assert (Hlen : (Z.to_nat i < List.length l)%nat).
  { destruct (Nat.lt_ge_cases (Z.to_nat i) (List.length l)) as [Hc|Hc];
      [exact Hc|].
    rewrite skipn_all2 in Es by lia. discriminate. }
  assert (Hl : l = firstn (Z.to_nat i) l ++ x :: r).
  { rewrite <- Es. symmetry. apply firstn_skipn. }
  assert (Hf : List.length (firstn (Z.to_nat i) l) = Z.to_nat i)
    by (rewrite length_firstn; lia).
  repeat split.
  - rewrite !Zlength_length. rewrite Hl at 2.
    rewrite !length_app. reflexivity.
  - rewrite Zlength_length. lia.
  - apply index_nth_error; [lia|].
    rewrite nth_error_app2 by lia. rewrite Hf, Nat.sub_diag. reflexivity.
  - intros j Hj Hne. unfold index.
    destruct (j <? 0) eqn:E2; [lia|]. rewrite E2.
    rewrite Hl at 2.
    destruct (Nat.lt_ge_cases (Z.to_nat j) (Z.to_nat i)) as [Hc|Hc].
    + rewrite !nth_error_app1 by lia. reflexivity.
    + rewrite !nth_error_app2 by lia. rewrite Hf.
      destruct (Z.to_nat j - Z.to_nat i)%nat as [|k] eqn:Ek; [lia|].
      reflexivity.
Qed.

Lemma fat_set_Ok (c v : Z) (st st' : FAT12) :
  0 <= c -> fat_set c v st = (Ok tt, st') ->
  exists fat', st' = set_fat st fat' /\
    Zlength fat' = Zlength (_fat st) /\ c < Zlength (_fat st) /\
    index fat' c = Ok v /\
    forall j, 0 <= j -> j <> c -> index fat' j = index (_fat st) j.
Proof.
  intros Hc. unfold fat_set.
  destruct (index_set (_fat st) c v) as [fat'|e] eqn:E; [|discriminate].
  intros H. inversion H. exists fat'. split; [reflexivity|].
  apply index_set_spec; assumption.
Qed.

(** ** Chains *)

Lemma last_cons_default {A} (x : A) (l : list A) (d d' : A) :
  last (x :: l) d = last (x :: l) d'.
Proof.
  revert x. induction l as [|y l IH]; intros x; [reflexivity|].
  change (last (y :: l) d = last (y :: l) d'). apply IH.
Qed.

Lemma last_cons_In {A} (x : A) (l : list A) (d : A) : In (last (x :: l) d) (x :: l).
Proof.
  revert x. induction l as [|y l IH]; intros x; [left; reflexivity|].
  right. change (In (last (y :: l) d) (y :: l)). apply IH.
Qed.

Lemma chain_head (fat : list Z) (c : Z) (xs : list Z) :
  chain fat c xs -> exists t, xs = c :: t.
Proof. intros H. destruct H; eauto. Qed.

Lemma chain_det (fat : list Z) (c : Z) (xs ys : list Z) :
  chain fat c xs -> chain fat c ys -> xs = ys.
Proof.
  intros H. revert ys. induction H as [c e H1 H2|c x xs H1 H2 H3 IH];
    intros ys Hy; inversion Hy; subst; try congruence.
  f_equal. apply IH. congruence.
Qed.

Lemma chain_in (fat : list Z) (c x : Z) (xs : list Z) :
  chain fat c xs -> In x xs ->
  exists ys, chain fat x ys /\ (List.length ys <= List.length xs)%nat.
Proof.
  intros H. induction H as [c e H1 H2|c y xs H1 H2 H3 IH]; intros Hin.
  - destruct Hin as [<-|[]]. exists [c]. split; [econstructor; eauto|lia].
  - destruct Hin as [<-|Hin].
    + exists (c :: xs). split; [econstructor; eauto|lia].
    + destruct (IH Hin) as (ys & Hc & Hl). exists ys. split; [exact Hc|].
      simpl. lia.
Qed.

Lemma chain_NoDup (fat : list Z) (c : Z) (xs : list Z) :
  chain fat c xs -> NoDup xs.
Proof.
  intros H. induction H as [c e H1 H2|c y xs H1 H2 H3 IH].
  - constructor; [intros []|constructor].
  - constructor; [|exact IH].
    intros Hin. destruct (chain_in _ _ _ _ H3 Hin) as (ys & Hc & Hl).
    assert (E : ys = c :: xs) by (eapply chain_det; [exact Hc|econstructor; eauto]).
    subst ys. simpl in Hl. lia.
Qed.

Lemma chain_entries (fat : list Z) (c : Z) (xs : list Z) :
  chain fat c xs -> ~ In 0 xs -> forall x, In x xs -> in_use fat x.
Proof.
  intros H. induction H as [c e H1 H2|c y xs H1 H2 H3 IH]; intros H0 x Hin.
  - destruct Hin as [<-|[]]. exists e. split; [exact H1|].
    intros ->. discriminate.
  - destruct Hin as [<-|Hin].
    + exists y. split; [exact H1|].
      destruct (chain_head _ _ _ H3) as (t & ->).
      intros ->. apply H0. right. left. reflexivity.
    + apply IH; [|exact Hin]. intros Hz. apply H0. right. exact Hz.
Qed.

Lemma file_chain_chain (fuel : nat) (fat : list Z) (c : Z) (xs : list Z) :
  file_chain fuel fat c = Some xs ->
  chain fat c xs /\ Forall (fun x => _isvalidcluster x = true) xs.
Proof.
  revert c xs. induction fuel as [|fuel IH]; intros c xs H; [discriminate|].
  cbn [file_chain] in H.
  destruct (_isvalidcluster c) eqn:Ev; [|discriminate].
  destruct (index fat c) as [e|err] eqn:Ei; [|discriminate].
  destruct (_cluster_is_end_of_chain e) eqn:Ee.
  - inversion H. subst xs. split.
    + econstructor; eauto.
    + constructor; [exact Ev|constructor].
  - destruct (file_chain fuel fat e) as [ys|] eqn:Ef; [|discriminate].
    inversion H. subst xs. destruct (IH _ _ Ef) as [Hc Hv]. split.
    + econstructor; eauto.
    + constructor; assumption.
Qed.

Lemma valid_not_zero (xs : list Z) :
  Forall (fun x => _isvalidcluster x = true) xs -> ~ In 0 xs.
Proof.
  intros H Hin. rewrite Forall_forall in H. specialize (H _ Hin).
  discriminate.
Qed.

(** The walk of [_writefile] to the last cluster of the file. *)
Lemma _writefile_last_chain (fuel : nat) (c l : Z) (xs : list Z)
  (st st' : FAT12) :
  chain (_fat st) c xs ->
  _writefile_last fuel c st = (Ok l, st') ->
  l = last xs c /\ st' = st.
Proof.
  intros H. revert fuel. induction H as [c e H1 H2|c y xs H1 H2 H3 IH];
    intros fuel Hw; (destruct fuel as [|fuel]; [discriminate|]);
    cbn [_writefile_last] in Hw; unfold bind, fat_get in Hw;
    rewrite H1 in Hw.
  - rewrite H2 in Hw. inversion Hw. split; reflexivity.
  - rewrite H2 in Hw. cbn [negb] in Hw.
    destruct (IH _ Hw) as [-> ->]. split; [|reflexivity].
    destruct (chain_head _ _ _ H3) as (t & ->).
    change (last (y :: t) y = last (y :: t) c). apply last_cons_default.
Qed.

(** ** Allocation *)

Lemma In_range_from (a : Z) (k : nat) (i : Z) :
  In i (range_from a 1 k) -> a <= i < a + Z.of_nat k.
Proof.
  revert a. induction k as [|k IH]; intros a H; [destruct H|].
  destruct H as [<-|H]; [lia|]. apply IH in H. lia.
Qed.

Lemma _alloccluster_loop_Ok (fat idx : list Z) (i : Z) :
  _alloccluster_loop fat idx = Ok (Some i) -> In i idx /\ index fat i = Ok 0.
Proof.
  induction idx as [|j idx IH]; intros H; [discriminate|].
  cbn [_alloccluster_loop] in H.
  destruct (index fat j) as [x|e] eqn:E; [|discriminate]. cbn [rbind] in H.
  destruct (x =? 0) eqn:Ex.
  - inversion H. subst j. apply Z.eqb_eq in Ex. subst x.
    split; [left; reflexivity|exact E].
  - destruct (IH H) as [H1 H2]. split; [right; exact H1|exact H2].
Qed.

(** A cluster allocated at the end of a chain: it was free, it is now the
    end of the chain, and the other entries are as they were. *)
Lemma _alloccluster_attach (l i : Z) (st st' : FAT12) :
  Zlength (_fat st) <= 0xFF0 ->
  in_use (_fat st) l ->
  _alloccluster (Some l) st = (Ok i, st') ->
  exists fat', st' = set_fat st fat' /\
    Zlength fat' = Zlength (_fat st) /\
    _isvalidcluster l = true /\ _isvalidcluster i = true /\
    index (_fat st) i = Ok 0 /\ i <> l /\
    index fat' i = Ok 0xFFF /\ index fat' l = Ok i /\
    forall j, 0 <= j -> j <> i -> j <> l -> index fat' j = index (_fat st) j.
Proof.
  intros Hlen Hl H. unfold _alloccluster in H.
  apply bind_Ok in H. destruct H as (u & st1 & Ha & H).
  apply assert_Ok in Ha. destruct Ha as [Hv ->].
  apply bind_Ok in H. destruct H as (fat & st1 & Hg & H).
  inversion Hg. subst fat st1. clear Hg.
  apply bind_Ok in H. destruct H as (found & st1 & Hf & H).
  apply lift_Ok in Hf. destruct Hf as [Hf ->].
  destruct found as [k|]; [|discriminate].
  destruct (_alloccluster_loop_Ok _ _ _ Hf) as [Hin Hk].
  unfold range in Hin. apply In_range_from in Hin.
  pose proof (Zlength_nonneg (_fat st)) as Hn.
  assert (Hk2 : 2 <= k) by lia.
  assert (Hkl : k <> l).
  { intros ->. destruct Hl as (e & He & Hne). congruence. }
  apply valid_range in Hv.
  apply bind_Ok in H. destruct H as ([] & st1 & Hs1 & H).
  apply fat_set_Ok in Hs1; [|lia].
  destruct Hs1 as (fat1 & -> & L1 & B1 & I1 & O1).
  apply bind_Ok in H. destruct H as ([] & st2 & Hs2 & H).
  inversion H. subst i st'. clear H.
  destruct (negb (l =? 0)) eqn:El; [|apply negb_false_iff, Z.eqb_eq in El; lia].
  apply fat_set_Ok in Hs2; [|lia]. cbn [_fat set_fat] in Hs2.
  destruct Hs2 as (fat2 & -> & L2 & B2 & I2 & O2).
  exists fat2. repeat split.
  - congruence.
  - apply valid_range. lia.
  - apply valid_range.
    assert (Hb : k < Zlength (_fat st)).
    { destruct (index_in_range (_fat st) k) as [Hr _].
      destruct Hr as [_ Hr]; [eexists; exact Hk|]. exact Hr. }
    lia.
  - exact Hk.
  - exact Hkl.
  - rewrite O2 by lia. exact I1.
  - exact I2.
  - intros j Hj Hji Hjl. rewrite O2, O1 by lia. reflexivity.
Qed.

Lemma _alloccluster_first (i : Z) (st st' : FAT12) :
  Zlength (_fat st) <= 0xFF0 ->
  _alloccluster None st = (Ok i, st') ->
  exists fat', st' = set_fat st fat' /\
    Zlength fat' = Zlength (_fat st) /\
    _isvalidcluster i = true /\
    index (_fat st) i = Ok 0 /\
    index fat' i = Ok 0xFFF /\
    forall j, 0 <= j -> j <> i -> index fat' j = index (_fat st) j.
Proof.
  intros Hlen H. unfold _alloccluster in H.
  apply bind_Ok in H. destruct H as (u & st1 & Ha & H).
  inversion Ha. subst st1. clear Ha.
  apply bind_Ok in H. destruct H as (fat & st1 & Hg & H).
  inversion Hg. subst fat st1. clear Hg.
  apply bind_Ok in H. destruct H as (found & st1 & Hf & H).
  apply lift_Ok in Hf. destruct Hf as [Hf ->].
  destruct found as [k|]; [|discriminate].
  destruct (_alloccluster_loop_Ok _ _ _ Hf) as [Hin Hk].
  unfold range in Hin. apply In_range_from in Hin.
  pose proof (Zlength_nonneg (_fat st)) as Hn.
  assert (Hk2 : 2 <= k) by lia.
  apply bind_Ok in H. destruct H as ([] & st1 & Hs1 & H).
  apply fat_set_Ok in Hs1; [|lia].
  destruct Hs1 as (fat1 & -> & L1 & B1 & I1 & O1).
  apply bind_Ok in H. destruct H as (u2 & st2 & Hs2 & H).
  inversion Hs2. subst st2. inversion H. subst i st'. clear H Hs2.
  exists fat1. repeat split; try assumption.
  apply valid_range. lia.
Qed.

Lemma in_use_other (fat fat' : list Z) (j : Z) :
  0 <= j ->
  (forall e, index fat j = Ok e -> e <> 0 -> exists e', index fat' j = Ok e' /\ e' <> 0) ->
  in_use fat j -> in_use fat' j.
Proof. intros Hj H (e & He & Hne). exact (H e He Hne). Qed.

(** The chain after a cluster is attached to its last one. *)
Lemma chain_attach (fat fat' : list Z) (c i : Z) (xs : list Z) :
  chain fat c xs -> ~ In i xs -> Forall (fun x => 0 <= x) xs ->
  _isvalidcluster i = true ->
  index fat' i = Ok 0xFFF ->
  index fat' (last xs c) = Ok i ->
  (forall j, 0 <= j -> j <> i -> j <> last xs c -> index fat' j = index fat j) ->
  chain fat' c (xs ++ [i]).
Proof.
  intros H. pose proof (chain_NoDup _ _ _ H) as Hnd. revert Hnd.
  induction H as [c e H1 H2|c y xs H1 H2 H3 IH];
    intros Hnd Hni Hpos Hv Hi Hl Ho.
  - cbn [last] in *. cbn [app].
    eapply chain_step; [exact Hl|apply valid_not_eoc; exact Hv|].
    eapply chain_end; [exact Hi|reflexivity].
  - destruct (chain_head _ _ _ H3) as (t & ->).
    assert (Hlast : last (c :: y :: t) c = last (y :: t) y).
    { change (last (y :: t) c = last (y :: t) y). apply last_cons_default. }
    rewrite Hlast in *.
    inversion Hnd as [|? ? Hc Hnd']. subst.
    inversion Hpos as [|? ? Hc0 Hpos']. subst.
    change (chain fat' c (c :: ((y :: t) ++ [i]))).
    eapply chain_step with (x := y).
    + rewrite Ho; [exact H1|exact Hc0| |].
      * intros ->. apply Hni. left. reflexivity.
      * intros E. apply Hc. rewrite E. apply last_cons_In.
    + exact H2.
    + apply IH; try assumption. intros Hin. apply Hni. right. exact Hin.
Qed.

(** The fuel of the walks along the FAT is enough for every chain: a chain
    has no cluster twice, and each of its clusters is an index of the
    FAT, negative or not. *)
Lemma chain_indices (fat : list Z) (c : Z) (xs : list Z) :
  chain fat c xs ->
  forall x, In x xs -> - Zlength fat <= x < Zlength fat.
Proof.
  intros H. induction H as [c e H1 H2|c y xs H1 H2 H3 IH]; intros x Hin.
  - destruct Hin as [<-|[]]. apply index_in_range. eexists. exact H1.
  - destruct Hin as [<-|Hin]; [|exact (IH _ Hin)].
    apply index_in_range. eexists. exact H1.
Qed.

Lemma chain_length (fat : list Z) (c : Z) (xs : list Z) :
  chain fat c xs -> (List.length xs <= 2 * List.length fat)%nat.
Proof.
  intros H.
  pose proof (chain_NoDup _ _ _ H) as Hnd.
  pose proof (chain_indices _ _ _ H) as Hix.
  set (n := List.length fat).
  assert (Hincl : incl xs (map (fun k => Z.of_nat k - Z.of_nat n) (seq 0 (2 * n)))).
  { intros x Hin. specialize (Hix _ Hin). rewrite Zlength_length in Hix.
    fold n in Hix. apply in_map_iff.
    exists (Z.to_nat (x + Z.of_nat n)). split; [lia|].
    apply in_seq. lia. }
  apply NoDup_incl_length in Hincl; [|exact Hnd].
  rewrite length_map, length_seq in Hincl. exact Hincl.
Qed.

Lemma _writefile_last_fuel (fuel : nat) (c : Z) (xs : list Z) (st : FAT12) :
  chain (_fat st) c xs -> (List.length xs <= fuel)%nat ->
  _writefile_last fuel c st = (Ok (last xs c), st).
Proof.
  intros H. revert fuel. induction H as [c e H1 H2|c y xs H1 H2 H3 IH];
    intros fuel Hf; (destruct fuel as [|fuel]; [cbn in Hf; lia|]);
    cbn [_writefile_last]; unfold bind, fat_get; rewrite H1, H2; cbn [negb].
  - reflexivity.
  - rewrite IH by (cbn in Hf; lia).
    destruct (chain_head _ _ _ H3) as (t & ->).
    do 2 f_equal. change (last (y :: t) y = last (y :: t) c).
    apply last_cons_default.
Qed.

Lemma _writefile_last_returns (c : Z) (xs : list Z) (st : FAT12) :
  chain (_fat st) c xs ->
  _writefile_last (chain_fuel st) c st = (Ok (last xs c), st).
Proof.
  intros H. apply _writefile_last_fuel; [exact H|].
  pose proof (chain_length _ _ _ H). unfold chain_fuel. lia.
Qed.

(** ** The loops of [_writefile] and [_readfile] along a chain *)

Lemma set_fat_same (st : FAT12) : set_fat st (_fat st) = st.
Proof. destruct st. reflexivity. Qed.

Lemma set_image_same (st : FAT12) :
  set_image st (FloppyImage.set_data (_image st) (image_data st)) = st.
Proof. destruct st as [[] ? ? ? ? ? ? ? ? ? ? ?]. reflexivity. Qed.

Lemma valid_Forall_app (xs : list Z) (i : Z) :
  Forall (fun x => _isvalidcluster x = true) xs ->
  _isvalidcluster i = true ->
  Forall (fun x => _isvalidcluster x = true) (xs ++ [i]).
Proof.
  intros H Hi. apply Forall_app. split; [exact H|].
  constructor; [exact Hi|constructor].
Qed.

Lemma valid_nonneg (xs : list Z) :
  Forall (fun x => _isvalidcluster x = true) xs -> Forall (fun x => 0 <= x) xs.
Proof.
  intros H. eapply Forall_impl; [|exact H].
  intros a Ha. apply valid_range in Ha. lia.
Qed.

Lemma In_firstn {A} (x : A) (n : nat) (l : list A) :
  In x (firstn n l) -> In x l.
Proof.
  revert l. induction n as [|n IH]; intros l H; [destruct H|].
  destruct l as [|y l]; [destruct H|].
  destruct H as [H|H]; [left; exact H|right; apply IH; exact H].
Qed.

Lemma last_app_one {A} (xs : list A) (i d : A) : last (xs ++ [i]) d = i.
Proof. apply last_last. Qed.

(** The clusters [_writefile] attaches to a file: the chain grows by
    them, they were free, and the clusters in use stay in use. *)
Lemma _writefile_extend_chain (idx : list Z) (c l l' : Z) (xs : list Z)
  (st st' : FAT12) :
  Zlength (_fat st) <= 0xFF0 ->
  chain (_fat st) c xs ->
  Forall (fun x => _isvalidcluster x = true) xs ->
  l = last xs c ->
  _writefile_extend idx l st = (Ok l', st') ->
  exists fat' ys,
    st' = set_fat st fat' /\
    Zlength fat' = Zlength (_fat st) /\
    chain fat' c (xs ++ ys) /\
    Forall (fun x => _isvalidcluster x = true) (xs ++ ys) /\
    forall j, 0 <= j -> in_use (_fat st) j -> in_use fat' j /\ ~ In j ys.
Proof.
  revert l xs st. induction idx as [|k idx IH]; intros l xs st Hlen Hc Hv Hl H.
  - inversion H. subst l' st'. exists (_fat st), [].
    rewrite app_nil_r, set_fat_same. repeat split; try assumption.
    intros [].
  - cbn [_writefile_extend] in H.
    apply bind_Ok in H. destruct H as (i & st1 & Ha & H).
    destruct (chain_head _ _ _ Hc) as (t & Ht).
    assert (Hlin : In l xs) by (rewrite Hl, Ht; apply last_cons_In).
    pose proof (chain_entries _ _ _ Hc (valid_not_zero _ Hv)) as Huse.
    destruct (_alloccluster_attach _ _ _ _ Hlen (Huse _ Hlin) Ha)
      as (fat1 & -> & L1 & Vl & Vi & Z1 & Nl & I1 & I2 & O1).
    assert (Hni : ~ In i xs).
    { intros Hin. destruct (Huse _ Hin) as (e & He & Hne). congruence. }
    assert (Hc1 : chain fat1 c (xs ++ [i])).
    { eapply chain_attach; try eassumption.
      - apply valid_nonneg. exact Hv.
      - rewrite <- Hl. exact I2.
      - rewrite <- Hl. exact O1. }
    specialize (IH i (xs ++ [i]) (set_fat st fat1)).
    cbn [_fat set_fat] in IH.
    destruct IH as (fat' & ys & -> & L2 & C2 & V2 & U2).
    + lia.
    + exact Hc1.
    + apply valid_Forall_app; assumption.
    + symmetry. apply last_app_one.
    + exact H.
    + exists fat', (i :: ys). rewrite <- app_assoc in C2, V2.
      repeat split; try assumption.
      * lia.
      * destruct (U2 j) as [U _]; [assumption| |exact U].
        destruct H1 as (e & He & Hne).
        destruct (Z.eq_dec j i) as [->|Hji]; [congruence|].
        destruct (Z.eq_dec j l) as [->|Hjl].
        -- exists i. split; [exact I2|]. apply valid_range in Vi. lia.
        -- exists e. split; [|exact Hne]. rewrite O1; assumption.
      * intros [<-|Hin].
        -- destruct H1 as (e & He & Hne). congruence.
        -- destruct (U2 j) as [_ U]; [assumption| |exact (U Hin)].
           destruct H1 as (e & He & Hne).
           destruct (Z.eq_dec j i) as [->|Hji]; [congruence|].
           destruct (Z.eq_dec j l) as [->|Hjl].
           ++ exists i. split; [exact I2|]. apply valid_range in Vi. lia.
           ++ exists e. split; [|exact Hne]. rewrite O1; assumption.
Qed.

Lemma _writecluster_sector (c : Z) (w : bytes) (st : FAT12) :
  sectors_per_cluster (params st) = 1 ->
  _writecluster c w st
  = image_write_sectors (_first_cluster_sector st + c) 1 w st.
Proof.
  intros H. unfold _writecluster, _cluster_index, bind, gets.
  rewrite H, Z.mul_1_r. reflexivity.
Qed.

Lemma _readcluster_sector (c : Z) (st : FAT12) :
  sectors_per_cluster (params st) = 1 ->
  _readcluster c st = image_read_sectors (_first_cluster_sector st + c) 1 st.
Proof.
  intros H. unfold _readcluster, _cluster_index, bind, gets.
  rewrite H, Z.mul_1_r. reflexivity.
Qed.

(** The blocks [_writefile] writes along the chain, and the bytes of the
    image that it leaves alone. *)
Lemma _writefile_data_chain (idx : list Z) (b : bytes) (i c : Z) (zs : list Z)
  (st st' : FAT12) :
  image_bps st = 512 -> sectors_per_cluster (params st) = 1 ->
  chain (_fat st) c zs ->
  _writefile_data idx b 512 i c st = (Ok tt, st') ->
  (List.length idx <= List.length zs)%nat /\
  (exists d', st' = set_image st (FloppyImage.set_data (_image st) d')) /\
  Zlength (image_data st) <= Zlength (image_data st') /\
  (forall k d, nth_error zs k = Some d -> (k < List.length idx)%nat ->
     0 <= _first_cluster_sector st + d /\
     (_first_cluster_sector st + d + 1) * 512 <= Zlength (image_data st') /\
     slice (image_data st') ((_first_cluster_sector st + d) * 512)
       ((_first_cluster_sector st + d) * 512 + 512)
     = block b (i + 512 * Z.of_nat k)) /\
  (forall p q, 0 <= p -> p <= q -> q <= Zlength (image_data st) ->
     (forall d, In d (firstn (List.length idx) zs) ->
        q <= (_first_cluster_sector st + d) * 512
        \/ (_first_cluster_sector st + d + 1) * 512 <= p) ->
     slice (image_data st') p q = slice (image_data st) p q).
Proof.
  revert i c zs st. induction idx as [|x idx IH]; intros i c zs st Hb Hs Hc H.
  - inversion H. subst st'.
    split; [cbn; lia|]. split; [|split; [lia|split]].
    + exists (image_data st). symmetry. apply set_image_same.
    + intros k d Hk Hlt. cbn in Hlt. lia.
    + intros p q Hp Hpq Hq Hd. reflexivity.
  - cbn [_writefile_data] in H.
    apply bind_Ok in H. destruct H as ([] & st0 & Ha & H).
    apply assert_Ok in Ha. destruct Ha as [Hv ->].
    apply bind_Ok in H. destruct H as ([] & st1 & Hw & H).
    change (_writecluster c (block b i) st = (Ok tt, st1)) in Hw.
    rewrite _writecluster_sector in Hw by exact Hs.
    pose proof (image_write_sectors_frame _ _ _ _ _ Hb Hw) as (F1 & F2 & F3 & F4).
    destruct (image_write_sectors_Ok _ _ _ _ _ Hb Hw) as (G1 & G2 & G3 & E1).
    apply bind_Ok in H. destruct H as (y & st2 & Hg & H).
    unfold fat_get in Hg.
    assert (Hfat : _fat st1 = _fat st) by (rewrite E1; reflexivity).
    assert (Hfcs : _first_cluster_sector st1 = _first_cluster_sector st)
      by (rewrite E1; reflexivity).
    assert (Hb1 : image_bps st1 = 512) by (rewrite E1; exact Hb).
    assert (Hs1 : sectors_per_cluster (params st1) = 1)
      by (rewrite E1; exact Hs).
    rewrite Hfat in Hg.
    assert (Hy : index (_fat st) c = Ok y /\ st2 = st1).
    { destruct (index (_fat st) c); inversion Hg; split; reflexivity. }
    destruct Hy as [Hy ->]. clear Hg.
    pose proof (chain_NoDup _ _ _ Hc) as Hnd.
    assert (Hc0 : slice (image_data st1) ((_first_cluster_sector st + c) * 512)
                    ((_first_cluster_sector st + c) * 512 + 512)
                  = block b i).
    { rewrite <- F3. f_equal; lia. }
    inversion Hc as [c0 e H1 H2 Ec Ez|c0 y0 zs' H1 H2 H3 Ec Ez].
    + (* the chain ends here *)
      subst c0. assert (e = y) by congruence. subst e.
      destruct idx as [|x' idx].
      * inversion H. subst st'.
        split; [cbn; lia|]. split; [|split; [exact F1|split]].
        -- eexists. exact E1.
        -- intros k d Hk Hlt. destruct k as [|k]; [|cbn in Hlt; lia].
           cbn in Hk. inversion Hk. subst d.
           replace (i + 512 * Z.of_nat 0) with i by lia.
           split; [lia|]. split; [lia|exact Hc0].
        -- intros p q Hp Hpq Hq Hd. apply F4; try assumption.
           specialize (Hd c (or_introl eq_refl)). lia.
      * cbn [_writefile_data] in H.
        apply bind_Ok in H. destruct H as ([] & st0 & Ha & H).
        apply assert_Ok in Ha. destruct Ha as [Hv' _].
        apply eoc_not_valid in H2. congruence.
    + subst c0. assert (y0 = y) by congruence. subst y0.
      rewrite <- Hfat in H3.
      destruct (IH _ _ _ _ Hb1 Hs1 H3 H) as (I1 & (d' & I2) & I3 & I4 & I5).
      rewrite Hfcs in I4, I5.
      rewrite <- Ez in Hnd.
      inversion Hnd as [|? ? Hnc Hnd' En].
      assert (Hc512 : slice (image_data st') ((_first_cluster_sector st + c) * 512)
                        ((_first_cluster_sector st + c) * 512 + 512)
                      = block b i).
      { rewrite I5.
        - exact Hc0.
        - lia.
        - lia.
        - lia.
        - intros d Hd. apply In_firstn in Hd.
          assert (d <> c) by (intros ->; exact (Hnc Hd)). lia. }
      split; [cbn [List.length]; lia|]. split; [|split; [lia|split]].
      * exists d'. rewrite I2, E1. reflexivity.
      * intros k d Hk Hlt. cbn [List.length] in Hlt.
        destruct k as [|k]; cbn in Hk.
        -- inversion Hk. subst d.
           replace (i + 512 * Z.of_nat 0) with i by lia.
           split; [lia|]. split; [lia|exact Hc512].
        -- destruct (I4 k d Hk) as (J1 & J2 & J3); [lia|].
           split; [exact J1|]. split; [exact J2|].
           rewrite J3. f_equal. lia.
      * intros p q Hp Hpq Hq Hd. cbn [List.length firstn] in Hd.
        rewrite I5; try lia.
        -- apply F4; try assumption.
           specialize (Hd c (or_introl eq_refl)). lia.
        -- intros d Hin. apply Hd. right. exact Hin.
Qed.

(** ** Blocks of the contents *)

Lemma firstn_add_skipn {A} (l : list A) (a k : nat) :
  firstn (a + k) l = firstn a l ++ firstn k (skipn a l).
Proof.
  revert l. induction a as [|a IH]; intros l; [reflexivity|].
  destruct l as [|x l]; [cbn; rewrite firstn_nil; reflexivity|].
  cbn [Nat.add firstn skipn app]. f_equal. apply IH.
Qed.

Lemma block_prefix (b : bytes) (i : Z) :
  0 <= i -> i < Zlength b ->
  slice_to (block b i) (Zlength b - i) = firstn 512 (skipn (Z.to_nat i) b).
Proof.
  intros Hi Hlt. unfold block. cbv zeta.
  rewrite slice_to_nonneg by lia.
  rewrite slice_nonneg by lia.
  replace (i + 512 - i) with 512 by ring.
  change (Z.to_nat 512) with 512%nat.
  set (w := firstn 512 (skipn (Z.to_nat i) b)).
  assert (Hw : Zlength w = Z.min 512 (Zlength b - i)).
  { subst w. rewrite !Zlength_length. rewrite length_firstn, length_skipn.
    rewrite Zlength_length in Hlt. lia. }
  destruct (Zlength w <? 512) eqn:E.
  - apply Z.ltb_lt in E. rewrite firstn_app.
    rewrite Zlength_length in Hw, E.
    rewrite firstn_all2 by lia.
    replace (Z.to_nat (Zlength b - i) - List.length w)%nat with O by lia.
    rewrite firstn_O, app_nil_r. reflexivity.
  - apply Z.ltb_ge in E. rewrite Zlength_length in Hw, E.
    apply firstn_all2. lia.
Qed.

Lemma _readfile_loop_chain (count : nat) (b : bytes) (i c : Z) (zs : list Z)
  (acc : bytes) (st : FAT12) :
  image_bps st = 512 -> sectors_per_cluster (params st) = 1 ->
  chain (_fat st) c zs ->
  (count <= List.length zs)%nat ->
  (forall k d, nth_error zs k = Some d -> (k < count)%nat ->
     0 <= _first_cluster_sector st + d /\
     (_first_cluster_sector st + d + 1) * 512 <= Zlength (image_data st) /\
     slice (image_data st) ((_first_cluster_sector st + d) * 512)
       ((_first_cluster_sector st + d) * 512 + 512)
     = block b (i + 512 * Z.of_nat k)) ->
  0 <= i -> i + 512 * (Z.of_nat count - 1) < Zlength b ->
  acc = firstn (Z.to_nat i) b ->
  _readfile_loop (range_from i 512 count) (Zlength b) c acc st
  = (Ok (firstn (Z.to_nat (i + 512 * Z.of_nat count)) b), st).
Proof.
  revert i c zs acc.
  induction count as [|count IH]; intros i c zs acc Hb Hs Hc Hn Hr Hi Hlt ->.
  - cbn [range_from _readfile_loop]. unfold ret. do 3 f_equal; lia.
  - cbn [range_from _readfile_loop].
    destruct (chain_head _ _ _ Hc) as (t & ->).
    destruct (Hr O c eq_refl) as (R1 & R2 & R3); [lia|].
    replace (i + 512 * Z.of_nat 0) with i in R3 by lia.
    unfold bind at 1. rewrite _readcluster_sector by exact Hs.
    rewrite image_read_sectors_intro by (try assumption; lia).
    replace ((_first_cluster_sector st + c) * 512 + 1 * 512)
      with ((_first_cluster_sector st + c) * 512 + 512) by lia.
    rewrite R3.
    rewrite block_prefix by lia.
    change 512%nat with (Z.to_nat 512).
    rewrite <- firstn_add_skipn.
    replace (Z.to_nat i + Z.to_nat 512)%nat with (Z.to_nat (i + 512)) by lia.
    unfold bind at 1, fat_get.
    inversion Hc as [c0 e H1 H2|c0 y zs' H1 H2 H3]; subst.
    + rewrite H1. destruct count as [|count]; [|cbn in Hn; lia].
      cbn [range_from _readfile_loop]. unfold ret. do 3 f_equal; lia.
    + rewrite H1.
      rewrite (IH (i + 512) y t (firstn (Z.to_nat (i + 512)) b));
        try assumption; try reflexivity; try lia.
      * do 3 f_equal; lia.
      * cbn [List.length] in Hn. lia.
      * intros k d Hk Hlt'. destruct (Hr (S k) d Hk) as (J1 & J2 & J3); [lia|].
        repeat split; try assumption.
        rewrite J3. f_equal. lia.
Qed.

(** ** Directory entries: what [_makedirentry] makes, [_parsedirentry] reads *)

(** The packed time of any timestamp of the years 1980..2107 decodes
    (to the timestamp with its seconds made even). *)
Lemma packed_datetime_decodes (t : datetime) :
  1980 <= year t <= 2107 ->
  exists e t', _pdt_to_edt t = Ok e /\ List.length e = 4%nat /\
               _edt_to_pdt e = Ok t'.
Proof.
  intros Hy. pose proof (datetime_range t) as (_ & Hmo & Hd & Hh & Hmi & Hs).
  assert (Hs2 : 0 <= second t / 2 < 32).
  { split; [apply Z.div_pos; lia|].
    apply Z.div_lt_upper_bound; lia. }
  pose proof (packed_fields (year t - 1980) (month t) (day t) (hour t)
                (minute t) (second t / 2)) as Hp.
  pose proof (unpacked_fields (year t - 1980) (month t) (day t) (hour t)
                (minute t) (second t / 2)) as Hu.
  cbv zeta in Hu.
  destruct Hu as (U1 & U2 & U3 & U4 & U5 & U6 & U7); try lia.
  unfold _pdt_to_edt. cbv zeta beta iota.
  rewrite Hp by lia.
  set (i := second t / 2 + 2 ^ 5 * minute t + 2 ^ 11 * hour t
            + 2 ^ 16 * day t + 2 ^ 21 * month t + 2 ^ 25 * (year t - 1980)) in *.
  destruct (struct_pack_uint 4 i) as [e|err] eqn:E.
  - destruct (struct_unpack_pack_uint _ _ _ E) as (E1 & E2 & E3).
    exists e. unfold _edt_to_pdt. rewrite E1. cbn [rbind].
    rewrite U1, U2, U3, U4, U5, U6.
    replace (1980 + (year t - 1980)) with (year t) by ring.
    unfold datetime_new.
    destruct (bool_dec _ true) as [H|H].
    + eexists. split; [reflexivity|]. split; [exact E2|reflexivity].
    + exfalso. apply H. clear H.
      pose proof (datetime_ok t) as H. unfold datetime_fields_ok in *.
      repeat (apply andb_prop in H; destruct H as [H ?]).
      repeat (apply andb_true_intro; split); try assumption.
      * apply Z.leb_le. lia.
      * apply Z.leb_le.
        assert (second t / 2 * 2 <= second t); [|lia].
        rewrite Z.mul_comm. apply Z.mul_div_le. lia.
  - exfalso. unfold struct_pack_uint in E.
    change (256 ^ Z.of_nat 4) with (2 ^ 32) in E.
    destruct (0 <=? i) eqn:E1; [|lia].
    destruct (i <? 2 ^ 32) eqn:E2; [discriminate|lia].
Qed.

(** *** The first byte of the stored name *)

Lemma upper_char_head (x : Z) :
  x <> 0 -> exists u r, upper_char x = u :: r /\ u <> 0 /\ u <> 963.
Proof.
  intros Hx. unfold upper_char.
  repeat match goal with
         | |- context [if ?b then _ else _] => destruct b eqn:?
         end;
    eexists; eexists; (split; [reflexivity|]);
    repeat match goal with
           | H : (_ && _) = true |- _ => apply andb_prop in H; destruct H
           | H : (_ && _) = false |- _ => apply andb_false_iff in H
           | H : (_ <=? _) = true |- _ => apply Z.leb_le in H
           | H : (_ =? _) = true |- _ => apply Z.eqb_eq in H
           | H : (_ =? _) = false |- _ => apply Z.eqb_neq in H
           | H : negb _ = true |- _ => apply negb_true_iff in H
           end; lia.
Qed.

Lemma upper_head (fn : str) :
  (forall x s, fn = x :: s -> x <> 0) ->
  forall u r, upper fn = u :: r -> u <> 0 /\ u <> 963.
Proof.
  intros H u r E. destruct fn as [|x s]; [discriminate|].
  destruct (upper_char_head x (H x s eq_refl)) as (u' & r' & E' & H1 & H2).
  unfold upper in E. cbn [flat_map] in E. rewrite E' in E.
  inversion E. subst u'. split; assumption.
Qed.

Lemma rbreak_at_prefix (c : Z) (s h t : str) :
  rbreak_at c s = Some (h, t) -> exists t', s = h ++ t'.
Proof.
  revert h t. induction s as [|x s IH]; intros h t H; [discriminate|].
  cbn [rbreak_at] in H.
  destruct (rbreak_at c s) as [[h' t']|] eqn:E.
  - inversion H. subst h t. destruct (IH _ _ eq_refl) as (t'' & ->).
    exists t''. reflexivity.
  - destruct (x =? c); [|discriminate]. inversion H. subst h t.
    exists (x :: s). reflexivity.
Qed.

Lemma position_spec (c : Z) (l : list Z) (i b : Z) :
  position c l i = Some b ->
  i <= b /\ nth_error l (Z.to_nat (b - i)) = Some c.
Proof.
  revert i. induction l as [|x l IH]; intros i H; [discriminate|].
  cbn [position] in H. destruct (x =? c) eqn:E.
  - inversion H. subst b. apply Z.eqb_eq in E. subst x.
    rewrite Z.sub_diag. split; [lia|reflexivity].
  - apply IH in H. destruct H as [H1 H2]. split; [lia|].
    replace (Z.to_nat (b - i)) with (S (Z.to_nat (b - (i + 1)))) by lia.
    exact H2.
Qed.

Lemma cp437_encode_char_head (u b : Z) :
  u <> 0 -> u <> 963 -> cp437_encode_char u = Ok b -> b <> 0 /\ b <> 0xE5.
Proof.
  intros H0 H1. unfold cp437_encode_char.
  destruct ((0 <=? u) && (u <? 128)) eqn:E.
  - intros H. inversion H. subst b.
    apply andb_prop in E. destruct E as [E1 E2].
    apply Z.leb_le in E1. apply Z.ltb_lt in E2. lia.
  - destruct (position u cp437_high 128) as [p|] eqn:Ep; [|discriminate].
    intros H. inversion H. subst p.
    apply position_spec in Ep. destruct Ep as [P1 P2].
    split; [lia|]. intros ->.
    change (nth_error cp437_high (Z.to_nat (229 - 128)))
      with (Some 963) in P2.
    congruence.
Qed.

Lemma ljust_first (f : bytes) (n0 : Z) (rest : bytes) :
  (forall b r, f = b :: r -> b <> 0 /\ b <> 0xE5) ->
  Zlength f <= 8 ->
  ljust f 8 = n0 :: rest ->
  n0 <> 0 /\ n0 <> 0xE5.
Proof.
  intros H Hlen E. unfold ljust in E. destruct f as [|b r].
  - cbn in E. inversion E. lia.
  - cbn [app] in E. inversion E. subst. apply (H _ _ eq_refl).
Qed.

Lemma ljust_length (f : bytes) (n : Z) :
  Zlength f <= n -> List.length (ljust f n) = Z.to_nat n.
Proof.
  intros H. unfold ljust. rewrite length_app, repeat_length.
  rewrite Zlength_length in *. lia.
Qed.

(** The name [_makedirentry] stores for a file name that does not start
    with a NUL starts with a byte that is neither [0x00] nor [0xE5]. *)
Lemma stored_name_first (fn f e : str) (f' : bytes) (n0 : Z) (rest : bytes) :
  (forall x s, fn = x :: s -> x <> 0) ->
  (f, e) = (if mem 46 (upper fn) then
              match rbreak_at 46 (upper fn) with
              | Some p => p
              | None => (upper fn, [])
              end
            else (upper fn, py "   ")) ->
  encode_cp437 f = Ok f' ->
  Zlength f' <= 8 ->
  ljust f' 8 = n0 :: rest ->
  n0 <> 0 /\ n0 <> 0xE5.
Proof.
  intros Hfn Hsplit Henc Hlen Hl.
  assert (Hf : forall u r, f = u :: r -> u <> 0 /\ u <> 963).
  { intros u r ->.
    assert (Hp : exists t', upper fn = (u :: r) ++ t').
    { destruct (mem 46 (upper fn)).
      - destruct (rbreak_at 46 (upper fn)) as [[h t]|] eqn:E.
        + inversion Hsplit. subst. eapply rbreak_at_prefix. exact E.
        + inversion Hsplit. exists []. rewrite app_nil_r. reflexivity.
      - inversion Hsplit. exists []. rewrite app_nil_r. reflexivity. }
    destruct Hp as (t' & Hp). eapply upper_head; [exact Hfn|exact Hp]. }
  eapply ljust_first; [|exact Hlen|exact Hl].
  intros b r ->. destruct f as [|u s]; [discriminate|].
  cbn [encode_cp437] in Henc.
  destruct (cp437_encode_char u) as [b'|] eqn:Eb; [|discriminate].
  cbn [rbind] in Henc.
  destruct (encode_cp437 s) as [r'|]; [|discriminate].
  inversion Henc. subst.
  destruct (Hf _ _ eq_refl) as [H1 H2].
  eapply cp437_encode_char_head; eassumption.
Qed.

(** *** The first character of the name read from an entry *)

Lemma index_0 {A} (l : list A) (x : A) :
  index l 0 = Ok x -> exists t, l = x :: t.
Proof.
  unfold index. cbn. destruct l as [|y t]; [discriminate|].
  intros H. inversion H. eauto.
Qed.

Lemma rstrip_head (s : str) (x : Z) (r : str) :
  rstrip s = x :: r -> exists t, s = x :: t.
Proof.
  destruct s as [|c s']; [discriminate|]. cbn [rstrip].
  destruct (rstrip s'); [destruct (is_space c)|]; intros H; inversion H; eauto.
Qed.

Lemma cp437_high_nonzero : forallb (fun x => negb (x =? 0)) cp437_high = true.
Proof. reflexivity. Qed.

Lemma cp437_decode_byte_nonzero (b : Z) :
  is_byte b = true -> b <> 0 -> cp437_decode_byte b <> 0.
Proof.
  unfold is_byte, cp437_decode_byte. intros H Hb.
  apply andb_prop in H. destruct H as [H1 H2].
  apply Z.leb_le in H1. apply Z.ltb_lt in H2.
  destruct (b <? 128) eqn:E; [exact Hb|].
  apply Z.ltb_ge in E.
  pose proof cp437_high_nonzero as Hnz. rewrite forallb_forall in Hnz.
  assert (Hin : In (nth (Z.to_nat (b - 128)) cp437_high 0) cp437_high).
  { apply nth_In. change (List.length cp437_high) with 128%nat. lia. }
  specialize (Hnz _ Hin). apply negb_true_iff, Z.eqb_neq in Hnz. exact Hnz.
Qed.

Lemma _efn_to_cfn_head (raw : bytes) (b0 : Z) (fn : str) :
  index raw 0 = Ok b0 -> is_byte b0 = true -> b0 <> 0 ->
  _efn_to_cfn raw = Ok fn ->
  forall x s, fn = x :: s -> x <> 0.
Proof.
  intros Hi Hb Hnz H x s ->.
  destruct (index_0 _ _ Hi) as (t & ->).
  unfold _efn_to_cfn in H. rewrite Hi in H. cbn [rbind] in H.
  set (b0' := if b0 =? 5 then 0xE5 else b0).
  assert (Hraw : (if b0 =? 5 then index_set (b0 :: t) 0 229 else Ok (b0 :: t))
                 = Ok (b0' :: t)).
  { subst b0'. destruct (b0 =? 5); reflexivity. }
  unfold bytes, str in *. rewrite Hraw in H. cbn [rbind] in H. cbv zeta in H.
  assert (Hb' : is_byte b0' = true /\ b0' <> 0).
  { subst b0'. destruct (b0 =? 5); [split; [reflexivity|lia]|split; assumption]. }
  destruct Hb' as [Hb1 Hb2].
  pose proof (cp437_decode_byte_nonzero _ Hb1 Hb2) as Hd.
  cbn [decode_cp437 map] in H.
  rewrite slice_to_nonneg in H by lia.
  change (Z.to_nat 8) with 8%nat in H.
  change (firstn 8 (cp437_decode_byte b0' :: map cp437_decode_byte t))
    with (cp437_decode_byte b0' :: firstn 7 (map cp437_decode_byte t)) in H.
  set (base := rstrip (cp437_decode_byte b0' :: firstn 7 (map cp437_decode_byte t))) in H.
  assert (Hbase : forall y r, base = y :: r -> y <> 0).
  { intros y r E. subst base. apply rstrip_head in E. destruct E as (t' & E).
    inversion E. subst. exact Hd. }
  destruct base as [|y r] eqn:Eb.
  - change (py ".") with [46] in H.
    destruct (nonempty _) in H; inversion H. lia.
  - destruct (nonempty _) in H; inversion H; subst; eapply Hbase; reflexivity.
Qed.

Lemma _efn_to_cfn_total (x : Z) (l : bytes) :
  exists fn, _efn_to_cfn (x :: l) = Ok fn.
Proof.
  unfold _efn_to_cfn.
  change (index (x :: l) 0) with (Ok x). cbn [rbind].
  assert (Hraw : exists l', (if x =? 5 then index_set (x :: l) 0 229 else Ok (x :: l))
                            = Ok l').
  { destruct (x =? 5); eexists; reflexivity. }
  destruct Hraw as (l' & Hraw). unfold bytes, str in *.
  rewrite Hraw. cbn [rbind]. cbv zeta.
  destruct (nonempty _); eexists; reflexivity.
Qed.

(** *** The round trip of an entry *)

Ltac explode l H :=
  repeat (let x := fresh "x" in
          destruct l as [|x l]; cbn [List.length] in H;
          try discriminate H; try apply eq_add_S in H).

Lemma struct_pack_cluster_size (cluster size : Z) (c : bytes) :
  struct_pack [2; 4]%nat [cluster; size] = Ok c ->
  exists c0 c1 s0 s1 s2 s3,
    c = [c0; c1; s0; s1; s2; s3] /\
    struct_unpack_uint 2 [c0; c1] = Ok cluster /\
    struct_unpack_uint 4 [s0; s1; s2; s3] = Ok size.
Proof.
  cbn [struct_pack]. intros H.
  destruct (struct_pack_uint 2 cluster) as [b1|] eqn:E1; [|discriminate].
  cbn [rbind] in H.
  destruct (struct_pack_uint 4 size) as [b2|] eqn:E2; [|discriminate].
  cbn [rbind] in H. inversion H. subst c. clear H.
  destruct (struct_unpack_pack_uint _ _ _ E1) as (U1 & L1 & _).
  destruct (struct_unpack_pack_uint _ _ _ E2) as (U2 & L2 & _).
  explode b1 L1. explode b2 L2.
  do 6 eexists. repeat split; eassumption.
Qed.

Lemma _makedirentry_parse (fn : str) (a cluster size : Z) (entry : bytes)
  (st st' : FAT12) :
  1980 <= year (now st) <= 2107 ->
  (forall x s, fn = x :: s -> x <> 0) ->
  _makedirentry (NameStr fn) a None cluster size st = (Ok entry, st') ->
  Zlength entry = 32 /\
  exists fn' t', _parsedirentry entry = Ok (Entry fn' a t' cluster size).
Proof.
  intros Hy Hfn H. unfold _makedirentry in H.
  remember (struct_pack [2; 4]%nat [cluster; size]) as sp eqn:Ec.
  symmetry in Ec.
  inversion H as [[H1 H2]]. clear H H2.
  destruct (if mem 46 (upper fn)
            then match rbreak_at 46 (upper fn) with
                 | Some p => p
                 | None => (upper fn, [])
                 end
            else (upper fn, py "   ")) as [f e] eqn:Esplit.
  destruct (encode_cp437 f) as [f'|] eqn:Ef; [|discriminate].
  cbn [rbind] in H1.
  destruct (encode_cp437 e) as [e'|] eqn:Ee; [|discriminate].
  cbn [rbind] in H1.
  destruct ((8 <? Zlength f') || (3 <? Zlength e')) eqn:Elen; [discriminate|].
  apply orb_false_iff in Elen. destruct Elen as [L1 L2].
  apply Z.ltb_ge in L1. apply Z.ltb_ge in L2.
  destruct (size <? 0) eqn:Esz; [discriminate|].
  destruct ((cluster <? 0) || (4086 <=? cluster)) eqn:Ecl; [discriminate|].
  unfold bytearray_of in H1.
  destruct (forallb is_byte [a; 0; 0; 0; 0; 0; 0; 0; 0; 0; 0]) eqn:Ea;
    [|discriminate].
  cbn [rbind] in H1.
  destruct (packed_datetime_decodes (now st) Hy) as (t & t' & T1 & T2 & T3).
  rewrite T1 in H1. cbn [rbind] in H1.
  destruct sp as [c|]; [|cbn [rbind] in H1; discriminate H1].
  cbn [rbind] in H1. inversion H1. subst entry. clear H1.
  destruct (struct_pack_cluster_size _ _ _ Ec)
    as (c0 & c1 & s0 & s1 & s2 & s3 & -> & U1 & U2).
  pose proof (ljust_length f' 8 L1) as Lf.
  pose proof (ljust_length e' 3 L2) as Le.
  change (Z.to_nat 8) with 8%nat in Lf. change (Z.to_nat 3) with 3%nat in Le.
  destruct (ljust f' 8) as [|n0 nrest] eqn:En; [discriminate Lf|].
  destruct (stored_name_first fn f e f' n0 nrest Hfn (eq_sym Esplit) Ef L1 En)
    as [N1 N2].
  cbn [List.length] in Lf. apply eq_add_S in Lf.
  explode nrest Lf.
  set (ext := ljust e' 3) in *. explode ext Le.
  explode t T2.
  split; [reflexivity|].
  unfold _parsedirentry.
  match goal with
  | |- context [index ?l 0] => change (index l 0) with (Ok n0)
  end.
  cbn [rbind].
  apply Z.eqb_neq in N1. apply Z.eqb_neq in N2. rewrite N1, N2.
  match goal with
  | |- context [slice_to ?l 11] =>
      let v := eval cbv in (slice_to l 11) in change (slice_to l 11) with v
  end.
  match goal with
  | |- context [_efn_to_cfn (?x :: ?l)] =>
      destruct (_efn_to_cfn_total x l) as (fn' & ->)
  end.
  cbn [rbind].
  match goal with
  | |- context [index ?l 11] => change (index l 11) with (Ok a)
  end.
  cbn [rbind].
  match goal with
  | |- context [slice ?l 22 26] =>
      let v := eval cbv in (slice l 22 26) in change (slice l 22 26) with v
  end.
  rewrite T3. cbn [rbind].
  match goal with
  | |- context [slice ?l 26 28] => change (slice l 26 28) with [c0; c1]
  end.
  rewrite U1. cbn [rbind].
  match goal with
  | |- context [slice ?l 28 32] => change (slice l 28 32) with [s0; s1; s2; s3]
  end.
  rewrite U2. cbn [rbind].
  eexists. eexists. reflexivity.
Qed.

(** ** What [commit] leaves of the image *)

Lemma frame_from_refl (lo : Z) (st : FAT12) : frame_from lo st st.
Proof. split; [lia|reflexivity]. Qed.

Lemma frame_from_trans (lo : Z) (st st1 st2 : FAT12) :
  frame_from lo st st1 -> frame_from lo st1 st2 -> frame_from lo st st2.
Proof.
  intros [L1 F1] [L2 F2]. split; [lia|].
  intros i j Hi Hij Hj. rewrite F2, F1; try lia. reflexivity.
Qed.

Lemma frame_from_same (lo : Z) (st st' : FAT12) :
  image_data st' = image_data st -> frame_from lo st st'.
Proof. intros E. unfold frame_from. rewrite E. split; [lia|reflexivity]. Qed.

Lemma frame_image_write (lo o : Z) (d : bytes) (st st' : FAT12) :
  0 <= o -> o + Zlength d <= lo -> lo <= Zlength (image_data st) ->
  image_write o d st = (Ok tt, st') ->
  frame_from lo st st'.
Proof.
  intros Ho Hlo Hlen H. inversion H. subst st'. clear H.
  pose proof (Zlength_nonneg d) as Hd.
  unfold frame_from, FloppyImage.write.
  change (image_data (set_image st
            (FloppyImage.set_data (_image st)
               (slice_set (FloppyImage._data (_image st)) o (o + Zlength d) d))))
    with (slice_set (image_data st) o (o + Zlength d) d).
  split.
  - apply Zlength_slice_set_le. exact Ho.
  - intros i j Hi Hij Hj. apply slice_slice_set_other; lia.
Qed.

Lemma struct_pack_length (fmt : list nat) (vals : list Z) (b : bytes) :
  struct_pack fmt vals = Ok b ->
  List.length b = fold_right Nat.add O fmt.
Proof.
  revert vals b. induction fmt as [|n fmt IH]; intros vals b H.
  - destruct vals; [|discriminate]. inversion H. reflexivity.
  - destruct vals as [|x vals]; [discriminate|]. cbn [struct_pack] in H.
    destruct (struct_pack_uint n x) as [b1|] eqn:E1; [|discriminate].
    cbn [rbind] in H.
    destruct (struct_pack fmt vals) as [b2|] eqn:E2; [|discriminate].
    cbn [rbind] in H. inversion H. subst b.
    destruct (struct_unpack_pack_uint _ _ _ E1) as (_ & L1 & _).
    rewrite length_app, L1, (IH _ _ E2). reflexivity.
Qed.

Lemma list_eqb_eq (a b : list Z) : list_eqb a b = true -> a = b.
Proof.
  revert b. induction a as [|x a IH]; intros [|y b] H; try discriminate.
  - reflexivity.
  - cbn [list_eqb] in H. apply andb_prop in H. destruct H as [H1 H2].
    apply Z.eqb_eq in H1. subst y. f_equal. apply IH. exact H2.
Qed.

Lemma fs_types_length (b : bytes) : bytes_in b fs_types = true -> Zlength b = 8.
Proof.
  unfold bytes_in, fs_types. cbn [existsb]. intros H.
  repeat (apply orb_prop in H; destruct H as [H|H]);
    try discriminate; apply list_eqb_eq in H; subst b; reflexivity.
Qed.

Lemma padded_label_length (l : bytes) :
  Zlength (slice_to l 11
           ++ (if Zlength l <? 11 then zeros (11 - Zlength l) else [])) = 11.
Proof.
  rewrite slice_to_nonneg by lia. rewrite Zlength_app.
  rewrite !Zlength_length. rewrite length_firstn.
  destruct (Z.of_nat (List.length l) <? 11) eqn:E.
  - apply Z.ltb_lt in E. rewrite zeros_length. lia.
  - apply Z.ltb_ge in E. cbn [List.length]. lia.
Qed.

Lemma gets_Ok {A} (f : FAT12 -> A) (st st' : FAT12) (a : A) :
  gets f st = (Ok a, st') -> a = f st /\ st' = st.
Proof. unfold gets. intros H. injection H as <- <-. split; reflexivity. Qed.

Lemma modify_Ok (g : FAT12 -> FAT12) (st st' : FAT12) (u : unit) :
  modify g st = (Ok u, st') -> st' = g st.
Proof. unfold modify. intros H. injection H as _ H. symmetry. exact H. Qed.

Lemma ret_Ok {A} (a b : A) (st st' : FAT12) :
  ret a st = (Ok b, st') -> b = a /\ st' = st.
Proof. unfold ret. intros H. injection H as <- <-. split; reflexivity. Qed.

Lemma readonly_Ok {A} (m : M A) (st st' : FAT12) (a : A) :
  readonly m -> m st = (Ok a, st') -> st' = st /\ fst (m st) = Ok a.
Proof.
  intros Hro H. pose proof (Hro st) as E. rewrite H in E. cbn [snd] in E.
  subst st'. rewrite H. split; reflexivity.
Qed.

(** [_updatelabel] with no label to write: the image is read and left as
    it is, and the label becomes eleven bytes. *)
Lemma _updatelabel_idle (st st' : FAT12) :
  image_bps st = 512 ->
  _write_label st = false ->
  _updatelabel st = (Ok tt, st') ->
  image_data st' = image_data st /\
  (exists l, _label st' = LabelBytes l /\ Zlength l = 11) /\
  (_root_dir_sector st + root_entries (params st) / 16) * 512
  <= Zlength (image_data st).
Proof.
  intros Hb Hw H. unfold _updatelabel in H.
  apply bind_Ok in H. destruct H as (l0 & st1 & H0 & H).
  apply gets_Ok in H0. destruct H0 as [-> ->].
  apply bind_Ok in H. destruct H as (l & st1 & H1 & H).
  assert (E1 : st1 = st).
  { destruct (_label st); [apply lift_Ok in H1|apply ret_Ok in H1];
      destruct H1 as [_ ->]; reflexivity. }
  subst st1. clear H1.
  pose proof (padded_label_length l) as Hl11.
  set (l11 := slice_to l 11
              ++ (if Zlength l <? 11 then zeros (11 - Zlength l) else [])) in *.
  apply bind_Ok in H. destruct H as ([] & st1 & H2 & H).
  apply modify_Ok in H2. subst st1.
  apply bind_Ok in H. destruct H as (rootdir & st1 & H3 & H).
  apply (readonly_Ok _ _ _ _ readonly_read_rootdir) in H3.
  destruct H3 as [-> H3].
  apply bind_Ok in H. destruct H as (w & st1 & H4 & H).
  apply gets_Ok in H4. destruct H4 as [-> ->].
  change (_write_label (set__label st (LabelBytes l11))) with (_write_label st) in H.
  rewrite Hw in H. apply ret_Ok in H. destruct H as [_ ->].
  split; [reflexivity|]. split.
  - exists l11. split; [reflexivity|exact Hl11].
  - unfold read_rootdir, root_region, bind, gets in H3. cbn [fst snd] in H3.
    apply image_read_sectors_Ok in H3; [|exact Hb].
    destruct H3 as (_ & H6 & _). exact H6.
Qed.

Lemma image_write_fields (o : Z) (d : bytes) (st st' : FAT12) :
  image_write o d st = (Ok tt, st') ->
  _label st' = _label st /\ params st' = params st.
Proof. intros H. apply modify_Ok in H. subst st'. split; reflexivity. Qed.

Lemma _writebpb_frame (lo : Z) (st st' : FAT12) :
  62 <= lo -> lo <= Zlength (image_data st) ->
  (exists l, _label st = LabelBytes l /\ Zlength l = 11) ->
  _writebpb st = (Ok tt, st') ->
  frame_from lo st st'.
Proof.
  intros Hlo Hlen (l & Hl & Hl11) H. unfold _writebpb in H.
  apply bind_Ok in H. destruct H as (p & st1 & H0 & H).
  apply gets_Ok in H0. destruct H0 as [-> ->].
  apply bind_Ok in H. destruct H as ([] & st1 & H0 & H).
  apply assert_Ok in H0. destruct H0 as [_ ->].
  apply bind_Ok in H. destruct H as (b1 & st1 & H0 & H).
  apply lift_Ok in H0. destruct H0 as [B1 ->].
  apply struct_pack_length in B1. cbn [fold_right Nat.add] in B1.
  apply bind_Ok in H. destruct H as ([] & st1 & W1 & H).
  destruct (image_write_fields _ _ _ _ W1) as [Lb1 _].
  apply (frame_image_write lo) in W1;
    [|lia|rewrite Zlength_length, B1; lia|exact Hlen].
  apply bind_Ok in H. destruct H as (b2 & st2 & H0 & H).
  apply lift_Ok in H0. destruct H0 as [B2 ->].
  apply struct_pack_length in B2. cbn [fold_right Nat.add] in B2.
  apply bind_Ok in H. destruct H as ([] & st2 & W2 & H).
  pose proof W1 as [Len1 _].
  destruct (image_write_fields _ _ _ _ W2) as [Lb2 _].
  apply (frame_image_write lo) in W2;
    [|lia|rewrite Zlength_length, B2; lia|lia].
  pose proof W2 as [Len2 _].
  pose proof (frame_from_trans _ _ _ _ W1 W2) as W12.
  destruct (has_ebpb (params st)).
  - destruct (serial (params st)) as [ser|]; [|discriminate].
    destruct (fs_type (params st)) as [fst_|]; [|discriminate].
    apply bind_Ok in H. destruct H as ([] & st3 & H0 & H).
    apply assert_Ok in H0. destruct H0 as [S1 ->].
    apply Z.eqb_eq in S1.
    apply bind_Ok in H. destruct H as ([] & st3 & H0 & H).
    apply assert_Ok in H0. destruct H0 as [S2 ->].
    apply fs_types_length in S2.
    apply bind_Ok in H. destruct H as (l' & st3 & H0 & H).
    apply gets_Ok in H0. destruct H0 as [-> ->].
    rewrite Lb2, Lb1, Hl in H.
    apply bind_Ok in H. destruct H as ([] & st3 & H0 & H).
    apply modify_Ok in H0.
    assert (F3 : frame_from lo st2 st3)
      by (apply frame_from_same; subst st3; reflexivity).
    pose proof F3 as [Len3 _].
    apply bind_Ok in H. destruct H as ([] & st4 & W3 & H).
    apply (frame_image_write lo) in W3; [|lia|lia|lia].
    pose proof W3 as [Len4 _].
    apply bind_Ok in H. destruct H as ([] & st5 & W4 & H).
    apply (frame_image_write lo) in W4; [|lia|lia|lia].
    pose proof W4 as [Len5 _].
    apply (frame_image_write lo) in H; [|lia|lia|lia].
    eapply frame_from_trans; [exact W12|].
    eapply frame_from_trans; [exact F3|].
    eapply frame_from_trans; [exact W3|].
    eapply frame_from_trans; [exact W4|exact H].
  - apply ret_Ok in H. destruct H as [_ ->]. exact W12.
Qed.

Lemma fat_pad_even (fat : list Z) :
  Z.land (Zlength fat) 1 = 0 -> fat_pad fat = fat.
Proof. unfold fat_pad. intros ->. reflexivity. Qed.

Lemma _writefat_frame (st st' : FAT12) :
  image_bps st = 512 ->
  Z.land (Zlength (_fat st)) 1 = 0 ->
  0 <= sectors_per_fat (params st) * fat_count (params st) ->
  _writefat st = (Ok tt, st') ->
  _fat st' = _fat st /\
  frame_from ((fat_start_sector (params st)
               + sectors_per_fat (params st) * fat_count (params st)) * 512)
    st st'.
Proof.
  intros Hb Hev Hpos H. unfold _writefat in H.
  apply bind_Ok in H. destruct H as (p & st1 & H0 & H).
  apply gets_Ok in H0. destruct H0 as [-> ->].
  apply bind_Ok in H. destruct H as (fat & st1 & H0 & H).
  apply gets_Ok in H0. destruct H0 as [-> ->].
  apply bind_Ok in H. destruct H as ([] & st1 & H0 & H).
  apply assert_Ok in H0. destruct H0 as [_ ->].
  apply bind_Ok in H. destruct H as ([] & st1 & H0 & H).
  apply modify_Ok in H0. rewrite fat_pad_even in H0 by exact Hev.
  rewrite set_fat_same in H0. subst st1.
  apply bind_Ok in H. destruct H as (fat & st1 & H0 & H).
  apply gets_Ok in H0. destruct H0 as [-> ->].
  apply bind_Ok in H. destruct H as (fats & st1 & H0 & H).
  apply lift_Ok in H0. destruct H0 as [_ ->].
  pose proof (image_write_sectors_frame _ _ _ _ _ Hb H) as (F1 & F2 & F3 & F4).
  destruct (image_write_sectors_Ok _ _ _ _ _ Hb H) as (G1 & G2 & G3 & ->).
  split; [reflexivity|]. split; [exact F1|].
  intros i j Hi Hij Hj. apply F4; try lia.
Qed.

Lemma commit_frame (st st' : FAT12) :
  wf_volume st = true ->
  commit st = (Ok tt, st') ->
  layout st' = layout st /\ _fat st' = _fat st /\
  frame_from (_root_dir_sector st * 512) st st'.
Proof.
  intros Hwf H.
  destruct (wf_volume_spec _ Hwf)
    as (W1 & W2 & W3 & W4 & W5 & W6 & W7 & W8 & W9 & W10 & W11 & W12 & W13).
  assert (HL : layout st' = layout st).
  { pose proof (preserves_commit layout) as P. unfold preserves in P.
    specialize (P (fun _ _ => eq_refl) (fun _ _ => eq_refl)
                  (fun _ _ => eq_refl) (fun _ _ => eq_refl)
                  (fun _ _ => eq_refl) st).
    rewrite H in P. exact P. }
  split; [exact HL|].
  unfold commit in H.
  apply bind_Ok in H. destruct H as ([] & st1 & H1 & H).
  apply bind_Ok in H. destruct H as ([] & st2 & H2 & H).
  assert (Hf1 : _fat st1 = _fat st).
  { pose proof (preserves_updatelabel _fat (fun _ _ => eq_refl)
                  (fun _ _ => eq_refl) (fun _ _ => eq_refl) st) as P.
    rewrite H1 in P. exact P. }
  assert (Hf2 : _fat st2 = _fat st1).
  { pose proof (preserves_writebpb _fat (fun _ _ => eq_refl)
                  (fun _ _ => eq_refl) st1) as P.
    rewrite H2 in P. exact P. }
  assert (HL1 : layout st1 = layout st).
  { pose proof (preserves_updatelabel layout (fun _ _ => eq_refl)
                  (fun _ _ => eq_refl) (fun _ _ => eq_refl) st) as P.
    rewrite H1 in P. exact P. }
  assert (HL2 : layout st2 = layout st1).
  { pose proof (preserves_writebpb layout (fun _ _ => eq_refl)
                  (fun _ _ => eq_refl) st1) as P.
    rewrite H2 in P. exact P. }
  destruct (_updatelabel_idle _ _ W3 W10 H1) as (I1 & I2 & I3).
  assert (Hdiv : 0 <= root_entries (params st) / 16)
    by (apply Z.div_pos; lia).
  assert (Hrds : 1 <= _root_dir_sector st) by nia.
  assert (F1 : frame_from (_root_dir_sector st * 512) st st1)
    by (apply frame_from_same; exact I1).
  assert (F2 : frame_from (_root_dir_sector st * 512) st1 st2).
  { apply _writebpb_frame with (lo := _root_dir_sector st * 512) in H2;
      [exact H2|lia|rewrite I1; nia|exact I2]. }
  unfold layout in HL1, HL2.
  injection HL1 as P1 R1 C1 B1 N1. injection HL2 as P2 R2 C2 B2 N2.
  apply _writefat_frame in H; [|congruence|congruence|rewrite P2, P1; nia].
  destruct H as [Hf3 F3].
  split; [congruence|].
  rewrite P2, P1, <- W8 in F3.
  eapply frame_from_trans; [exact F1|].
  eapply frame_from_trans; [exact F2|exact F3].
Qed.

(** ** Directory slots *)

Lemma mem_In (x : Z) (l : list Z) : mem x l = true <-> In x l.
Proof.
  unfold mem. rewrite existsb_exists. split.
  - intros (y & Hy & E). apply Z.eqb_eq in E. subst y. exact Hy.
  - intros H. exists x. split; [exact H|apply Z.eqb_refl].
Qed.

Lemma slot_cluster_apart_spec (fat : list Z) (fc : Z) (xs : list Z) :
  slot_cluster_apart fat fc xs = true ->
  fc = 1 \/ (2 <= fc /\ in_use fat fc /\ ~ In fc xs).
Proof.
  unfold slot_cluster_apart. intros H.
  apply orb_prop in H. destruct H as [H|H]; [left; apply Z.eqb_eq; exact H|].
  right. apply andb_prop in H. destruct H as [H H3].
  apply andb_prop in H. destruct H as [H1 H2].
  apply Z.leb_le in H1. split; [exact H1|]. split.
  - destruct (index fat fc) as [e|] eqn:E; [|discriminate].
    exists e. split; [exact E|].
    apply negb_true_iff, Z.eqb_neq in H2. exact H2.
  - intros Hin. apply mem_In in Hin. rewrite Hin in H3. discriminate.
Qed.

Lemma _readdirentry_region (fc fo : Z) (st : FAT12) :
  _readdirentry fc fo st
  = bind (image_read_sectors (fst (slot_region st fc)) (snd (slot_region st fc)))
      (fun r => ret (slice r fo (fo + 32))) st.
Proof. unfold _readdirentry, slot_region. destruct (fc =? 1); reflexivity. Qed.

Lemma _writedirentry_region (fc fo : Z) (e : bytes) (st : FAT12) :
  _writedirentry fc fo e st
  = bind (assert (Zlength e =? 32))
      (fun _ =>
         bind (image_read_sectors (fst (slot_region st fc))
                 (snd (slot_region st fc)))
           (fun r =>
              image_write_sectors (fst (slot_region st fc))
                (snd (slot_region st fc)) (slice_set r fo (fo + 32) e))) st.
Proof.
  unfold _writedirentry, slot_region, bind, assert, lift.
  destruct (rassert (Zlength e =? 32)); [|reflexivity].
  destruct (fc =? 1); reflexivity.
Qed.

Lemma _readdirentry_slot (fc fo : Z) (st : FAT12) :
  image_bps st = 512 ->
  0 <= fst (slot_region st fc) ->
  (fst (slot_region st fc) + snd (slot_region st fc)) * 512
  <= Zlength (image_data st) ->
  _readdirentry fc fo st
  = (Ok (slice (slice (image_data st) (fst (slot_region st fc) * 512)
                  (fst (slot_region st fc) * 512
                   + snd (slot_region st fc) * 512))
           fo (fo + 32)), st).
Proof.
  intros Hb H0 Hlen. rewrite _readdirentry_region. unfold bind.
  rewrite image_read_sectors_intro by assumption. reflexivity.
Qed.

Lemma _writedirentry_slot (fc fo : Z) (entry : bytes) (st st' : FAT12) :
  image_bps st = 512 -> 0 <= fo -> 0 <= snd (slot_region st fc) ->
  _writedirentry fc fo entry st = (Ok tt, st') ->
  (exists d', st' = set_image st (FloppyImage.set_data (_image st) d')) /\
  Zlength (image_data st) <= Zlength (image_data st') /\
  0 <= fst (slot_region st fc) /\
  (fst (slot_region st fc) + snd (slot_region st fc)) * 512
  <= Zlength (image_data st) /\
  slice (slice (image_data st') (fst (slot_region st fc) * 512)
           (fst (slot_region st fc) * 512 + snd (slot_region st fc) * 512))
    fo (fo + 32) = entry /\
  (forall i j, 0 <= i -> i <= j -> j <= Zlength (image_data st) ->
     j <= fst (slot_region st fc) * 512
     \/ (fst (slot_region st fc) + snd (slot_region st fc)) * 512 <= i ->
     slice (image_data st') i j = slice (image_data st) i j).
Proof.
  intros Hb Hfo Hn H. rewrite _writedirentry_region in H.
  set (s := fst (slot_region st fc)) in *.
  set (n := snd (slot_region st fc)) in *.
  apply bind_Ok in H. destruct H as ([] & st1 & H0 & H).
  apply assert_Ok in H0. destruct H0 as [H32 ->]. apply Z.eqb_eq in H32.
  apply bind_Ok in H. destruct H as (r & st1 & H0 & H).
  apply (readonly_Ok _ _ _ _ (readonly_image_read_sectors s n)) in H0.
  destruct H0 as [-> H0].
  apply image_read_sectors_Ok in H0; [|exact Hb].
  destruct H0 as (R1 & R2 & R3).
  pose proof (image_write_sectors_frame _ _ _ _ _ Hb H) as (F1 & F2 & F3 & F4).
  destruct (image_write_sectors_Ok _ _ _ _ _ Hb H) as (G1 & G2 & G3 & G4).
  split; [eexists; exact G4|]. split; [exact F1|]. split; [exact R1|].
  split; [exact R2|]. split; [|exact F4].
  rewrite F3.
  assert (Hr : Zlength r = n * 512).
  { rewrite R3. apply Zlength_slice; lia. }
  rewrite <- H32 in *.
  apply slice_slice_set_same; [exact Hfo|].
  pose proof (Zlength_slice_set_fits r entry fo Hfo) as Hfit.
  lia.
Qed.

Lemma _writefile_truncate_Ok (fuel : nat) (fc c c' : Z) (st st' : FAT12) :
  _writefile_truncate fuel fc c st = (Ok c', st') -> c' = c /\ st' = st.
Proof.
  revert c st. induction fuel as [|fuel IH]; intros c st H; [discriminate|].
  cbn [_writefile_truncate] in H.
  destruct (_isvalidcluster fc) eqn:Ev.
  - exfalso.
    apply bind_Ok in H. destruct H as (nc & st1 & _ & H).
    apply bind_Ok in H. destruct H as ([] & st2 & _ & H).
    clear IH. revert nc st2 H.
    induction fuel as [|fuel IH]; intros nc st2 H; [discriminate|].
    cbn [_writefile_truncate] in H. rewrite Ev in H.
    apply bind_Ok in H. destruct H as (nc' & st3 & _ & H).
    apply bind_Ok in H. destruct H as ([] & st4 & _ & H).
    exact (IH _ _ H).
  - apply ret_Ok in H. destruct H as [-> ->]. split; reflexivity.
Qed.

Lemma parsedirentry_name_head (raw : bytes) (b0 : Z) (fn : str)
  (a : Z) (m : datetime) (cl sz : Z) :
  index raw 0 = Ok b0 -> is_byte b0 = true ->
  _parsedirentry raw = Ok (Entry fn a m cl sz) ->
  forall x s, fn = x :: s -> x <> 0.
Proof.
  intros Hi Hb H. unfold _parsedirentry in H. rewrite Hi in H.
  cbn [rbind] in H.
  destruct (b0 =? 0) eqn:E0; [discriminate|].
  destruct (b0 =? 229) eqn:E5; [discriminate|].
  destruct (_efn_to_cfn (slice_to raw 11)) as [fn'|] eqn:Ef; [|discriminate].
  cbn [rbind] in H.
  destruct (index raw 11) as [a'|]; [|discriminate]. cbn [rbind] in H.
  destruct (_edt_to_pdt (slice raw 22 26)) as [m'|]; [|discriminate].
  cbn [rbind] in H.
  destruct (struct_unpack_uint 2 (slice raw 26 28)) as [cl'|]; [|discriminate].
  cbn [rbind] in H.
  destruct (struct_unpack_uint 4 (slice raw 28 32)) as [sz'|]; [|discriminate].
  cbn [rbind] in H. injection H as -> _ _ _ _.
  apply Z.eqb_neq in E0.
  destruct (index_0 _ _ Hi) as (t & ->).
  eapply _efn_to_cfn_head; [|exact Hb|exact E0|exact Ef].
  reflexivity.
Qed.

Lemma slot_region_facts (st : FAT12) (fc : Z) :
  wf_volume st = true -> fc = 1 \/ 2 <= fc ->
  _root_dir_sector st <= fst (slot_region st fc) /\
  0 <= snd (slot_region st fc) /\
  forall d, 2 <= d -> fc = 1 \/ d <> fc ->
    _first_cluster_sector st + d + 1 <= fst (slot_region st fc)
    \/ fst (slot_region st fc) + snd (slot_region st fc)
       <= _first_cluster_sector st + d.
Proof.
  intros Hwf Hfc.
  destruct (wf_volume_spec _ Hwf)
    as (W1 & W2 & W3 & W4 & W5 & W6 & W7 & W8 & W9 & W10 & W11 & W12 & W13).
  assert (Hdiv : 0 <= root_entries (params st) / 16)
    by (apply Z.div_pos; lia).
  unfold slot_region. destruct (fc =? 1) eqn:E; cbn [fst snd].
  - split; [lia|]. split; [lia|]. intros d Hd _. right. lia.
  - apply Z.eqb_neq in E. rewrite W2.
    split; [lia|]. split; [lia|]. intros d Hd [->|Hne]; lia.
Qed.

Lemma slot_region_layout (st st' : FAT12) (fc : Z) :
  layout st' = layout st -> slot_region st' fc = slot_region st fc.
Proof.
  unfold layout, slot_region. intros H. injection H as P R C B N.
  rewrite P, R, C. reflexivity.
Qed.

Lemma range_from_length (a step : Z) (count : nat) :
  List.length (range_from a step count) = count.
Proof.
  revert a. induction count as [|count IH]; intros a; [reflexivity|].
  cbn [range_from List.length]. rewrite IH. reflexivity.
Qed.

Lemma clusters_of_size (n : Z) :
  0 <= n ->
  0 <= (n + 511) / 512 /\ n <= 512 * ((n + 511) / 512)
  /\ 512 * ((n + 511) / 512) - 512 < n.
Proof.
  intros Hn.
  pose proof (Z.div_mod (n + 511) 512 ltac:(lia)) as E.
  pose proof (Z.mod_pos_bound (n + 511) 512 ltac:(lia)) as B.
  split; [apply Z.div_pos; lia|]. lia.
Qed.

(** The round trip at a directory slot: what [_writefile] has written,
    [_readfile] reads. *)
Lemma _writefile_then_readfile (st st' : FAT12) (fc fo : Z) (b : bytes)
  (ro : bool) :
  wf_volume st = true -> wf_slot st fc fo = true ->
  _writefile fc fo b ro st = (Ok tt, st') ->
  _readfile fc fo st' = (Ok b, st').
Proof.
  intros Hwf Hslot H.
  destruct (wf_volume_spec _ Hwf)
    as (W1 & W2 & W3 & W4 & W5 & W6 & W7 & W8 & W9 & W10 & W11 & W12 & W13).
  (* the slot *)
  unfold wf_slot in Hslot.
  apply andb_prop in Hslot. destruct Hslot as [Hfo Hslot].
  apply Z.leb_le in Hfo.
  destruct (fst (_readdirentry fc fo st)) as [raw|] eqn:Eraw; [|discriminate].
  apply andb_prop in Hslot. destruct Hslot as [Hb0 Hslot].
  destruct (index raw 0) as [b0|] eqn:Eb0; [|discriminate].
  destruct (_parsedirentry raw) as [[| |fn a m cl sz]|] eqn:Eparse;
    try discriminate.
  pose proof (parsedirentry_name_head _ _ _ _ _ _ _ Eb0 Hb0 Eparse) as Hname.
  assert (Hps : parse_slot fc fo st = (Ok (fn, a, m, cl, sz), st)).
  { unfold parse_slot, bind.
    pose proof (readonly_readdirentry fc fo st) as R.
    destruct (_readdirentry fc fo st) as [r s1]. cbn [fst snd] in *.
    subst r s1. unfold lift. rewrite Eparse. reflexivity. }
  unfold _writefile in H.
  apply bind_Ok in H. destruct H as (p & st1 & H0 & H).
  apply gets_Ok in H0. destruct H0 as [-> ->].
  rewrite W1, W2 in H. change (512 * 1) with 512 in H. cbv zeta in H.
  apply bind_Ok in H. destruct H as (e & st1 & H0 & H).
  rewrite Hps in H0. injection H0 as <- <-.
  cbv beta iota in H.
  destruct (Z.land a 16 =? 0) eqn:Edir; cbn [negb] in H; [|discriminate].
  destruct (negb ro && (Z.land a 1 =? 1)); [discriminate|].
  apply bind_Ok in H. destruct H as (first & st1 & Hfirst & H).
  assert (Hmid :
    (first = None /\ st1 = st /\ b = [] /\ cl = 0 /\ sz = 0) \/
    exists cluster n_old fat1 xs,
      first = Some (cluster, n_old) /\ st1 = set_fat st fat1 /\
      Zlength fat1 = Zlength (_fat st) /\
      chain fat1 cluster xs /\
      Forall (fun x => _isvalidcluster x = true) xs /\
      (fc = 1 \/ (2 <= fc /\ in_use fat1 fc /\ ~ In fc xs))).
  { destruct (cl =? 0) eqn:Ecl.
    - apply Z.eqb_eq in Ecl.
      apply slot_cluster_apart_spec in Hslot.
      apply bind_Ok in Hfirst. destruct Hfirst as ([] & s0 & H0 & Hfirst).
      apply assert_Ok in H0. destruct H0 as [Hsz ->]. apply Z.eqb_eq in Hsz.
      destruct b as [|x0 b']; cbn [nonempty negb] in Hfirst.
      + apply ret_Ok in Hfirst. destruct Hfirst as [-> ->]. left.
        repeat split; assumption.
      + right. apply bind_Ok in Hfirst.
        destruct Hfirst as (c & s0 & Ha & Hfirst).
        apply ret_Ok in Hfirst. destruct Hfirst as [-> ->].
        destruct (_alloccluster_first _ _ _ W13 Ha)
          as (fat1 & -> & L1 & Vc & Z1 & I1 & O1).
        exists c, 1, fat1, [c].
        split; [reflexivity|]. split; [reflexivity|]. split; [exact L1|].
        split; [eapply chain_end; [exact I1|reflexivity]|].
        split; [constructor; [exact Vc|constructor]|].
        destruct Hslot as [->|(F1 & (e & He & Hne) & _)]; [left; reflexivity|].
        right. split; [exact F1|].
        assert (Hfc : fc <> c) by (intros ->; congruence).
        split.
        * exists e. split; [|exact Hne]. rewrite O1; [exact He|lia|exact Hfc].
        * intros [Hin|[]]. congruence.
    - right. apply ret_Ok in Hfirst. destruct Hfirst as [-> ->].
      destruct (file_chain (chain_fuel st) (_fat st) cl) as [xs|] eqn:Efc;
        [|discriminate].
      destruct (file_chain_chain _ _ _ _ Efc) as [C1 V1].
      apply slot_cluster_apart_spec in Hslot.
      exists cl, ((sz + (512 - 1)) / 512), (_fat st), xs.
      split; [reflexivity|]. split; [symmetry; apply set_fat_same|].
      split; [reflexivity|]. split; [exact C1|]. split; [exact V1|].
      exact Hslot. }
  clear Hfirst Hslot.
  destruct Hmid as [(-> & -> & -> & -> & ->)
                   |(cluster & n_old & fat1 & xs & -> & -> & L1 & C1 & V1 & A1)].
  - (* an empty file stays empty *)
    apply ret_Ok in H. destruct H as [_ ->].
    unfold _readfile.
    unfold bind at 1, gets. cbv zeta.
    unfold bind at 1. rewrite Hps. cbv beta iota.
    rewrite Edir, W1, W2. cbn [negb]. reflexivity.
  - assert (Hnn : (Zlength b + (512 - 1)) / 512 = (Zlength b + 511) / 512)
      by reflexivity.
    rewrite Hnn in H. clear Hnn.
    set (nn := (Zlength b + 511) / 512) in *.
    pose proof (clusters_of_size (Zlength b) (Zlength_nonneg b))
      as (N1 & N2 & N3). fold nn in N1, N2, N3.
    apply bind_Ok in H. destruct H as (fuel & s1 & H0 & H).
    apply gets_Ok in H0. destruct H0 as [-> ->].
    apply bind_Ok in H. destruct H as (l & s1 & H0 & H).
    apply (_writefile_last_chain _ _ _ xs) in H0; [|exact C1].
    destruct H0 as [-> ->].
    apply bind_Ok in H. destruct H as (l' & s2 & H0 & H).
    apply (_writefile_extend_chain _ cluster _ _ xs) in H0;
      [|cbn [_fat set_fat]; lia|exact C1|exact V1|reflexivity].
    destruct H0 as (fat2 & ys & -> & L2 & C2 & V2 & U2).
    cbn [_fat set_fat] in L2, U2.
    change (set_fat (set_fat st fat1) fat2) with (set_fat st fat2) in H.
    assert (A2 : fc = 1 \/ (2 <= fc /\ ~ In fc (xs ++ ys))).
    { destruct A1 as [->|(F1 & F2 & F3)]; [left; reflexivity|].
      right. split; [exact F1|].
      intros Hin. apply in_app_or in Hin.
      destruct Hin as [Hin|Hin]; [exact (F3 Hin)|].
      destruct (U2 fc) as [_ U]; [lia|exact F2|exact (U Hin)]. }
    clear A1 U2.
    apply bind_Ok in H. destruct H as ([] & s3 & H0 & H).
    apply (_writefile_data_chain _ _ _ _ (xs ++ ys)) in H0;
      [|exact W3|exact W2|exact C2].
    destruct H0 as (D1 & (d3 & ->) & D3 & D4 & D5).
    set (s3 := set_image (set_fat st fat2)
                 (FloppyImage.set_data (_image (set_fat st fat2)) d3)) in *.
    change (image_data (set_fat st fat2)) with (image_data st) in D3, D5.
    change (_first_cluster_sector (set_fat st fat2))
      with (_first_cluster_sector st) in D4, D5.
    unfold range in D1, D4, D5. rewrite range_from_length in D1, D4, D5.
    replace ((nn - 0 + 1 - 1) / 1) with nn in D1, D4, D5
      by (rewrite Z.div_1_r; lia).
    apply bind_Ok in H. destruct H as (cluster0 & s3' & H0 & H).
    assert (E0 : cluster0 = cluster /\ s3' = s3).
    { destruct (nn <? n_old).
      - apply bind_Ok in H0. destruct H0 as (fuel0 & s0 & G & H0).
        apply gets_Ok in G. destruct G as [-> ->].
        apply _writefile_truncate_Ok in H0. exact H0.
      - apply ret_Ok in H0. exact H0. }
    destruct E0 as [-> ->]. clear H0.
    apply bind_Ok in H. destruct H as (entry & s4 & H0 & H).
    pose proof H0 as Hmk.
    apply (readonly_Ok _ _ _ _ (readonly_makedirentry _ _ _ _ _)) in H0.
    destruct H0 as [-> _].
    apply _makedirentry_parse in Hmk; [|exact W11|exact Hname].
    destruct Hmk as (E32 & fn' & t' & Hparse').
    assert (Hfc : fc = 1 \/ 2 <= fc) by (destruct A2 as [->|[F _]]; lia).
    pose proof (slot_region_facts st fc Hwf Hfc) as (R1 & R2 & R3).
    assert (Hreg3 : slot_region s3 fc = slot_region st fc) by reflexivity.
    apply bind_Ok in H. destruct H as ([] & s4 & H0 & H).
    apply _writedirentry_slot in H0; [|exact W3|exact Hfo|rewrite Hreg3; exact R2].
    rewrite Hreg3 in H0.
    set (s := fst (slot_region st fc)) in *.
    set (n := snd (slot_region st fc)) in *.
    destruct H0 as ((d4 & E4) & S2 & S3 & S4 & S5 & S6).
    assert (Hwf4 : wf_volume s4 = true).
    { rewrite <- Hwf. apply wf_volume_transfer.
      - rewrite E4. reflexivity.
      - rewrite E4. reflexivity.
      - rewrite E4. cbn [_fat set_image set_fat s3]. lia. }
    destruct (commit_frame _ _ Hwf4 H) as (HL & Hf & [F1 F2]).
    assert (HL4 : layout s4 = layout st) by (rewrite E4; reflexivity).
    assert (Hf4 : _fat s4 = fat2) by (rewrite E4; reflexivity).
    assert (Hr4 : _root_dir_sector s4 = _root_dir_sector st)
      by (rewrite E4; reflexivity).
    rewrite Hr4 in F2. rewrite HL4 in HL. rewrite Hf4 in Hf.
    clear H Hwf4 HL4 Hf4 Hr4.
    change (image_data s3) with d3 in *.
    pose proof HL as HL'. unfold layout in HL'.
    injection HL' as P' R' C' B' N'.
    assert (Hdiv : 0 <= root_entries (params st) / 16)
      by (apply Z.div_pos; lia).
    assert (Hrds : 1 <= _root_dir_sector st) by nia.
    assert (Hps' : parse_slot fc fo st'
                   = (Ok (fn', a, t', cluster, Zlength b), st')).
    { unfold parse_slot, bind.
      rewrite _readdirentry_slot.
      - rewrite (slot_region_layout _ _ _ HL). fold s n.
        rewrite F2 by lia. rewrite S5. unfold lift. rewrite Hparse'.
        reflexivity.
      - rewrite B'. exact W3.
      - rewrite (slot_region_layout _ _ _ HL). fold s. exact S3.
      - rewrite (slot_region_layout _ _ _ HL). fold s n. lia. }
    unfold _readfile.
    unfold bind at 1, gets. cbv zeta.
    unfold bind at 1. rewrite Hps'. cbv beta iota. rewrite Edir. cbn [negb].
    rewrite P', W1, W2. change (512 * 1) with 512.
    unfold range.
    replace ((Zlength b - 0 + 512 - 1) / 512) with nn
      by (subst nn; f_equal; lia).
    rewrite (_readfile_loop_chain (Z.to_nat nn) b 0 cluster (xs ++ ys) [] st').
    + do 2 f_equal. apply firstn_all2. rewrite Zlength_length in N2. lia.
    + rewrite B'. exact W3.
    + rewrite P'. exact W2.
    + rewrite Hf. exact C2.
    + exact D1.
    + intros k d Hk Hlt. rewrite C'.
      destruct (D4 k d Hk Hlt) as (J1 & J2 & J3).
      assert (Hin : In d (xs ++ ys)) by (eapply nth_error_In; exact Hk).
      assert (Hv : 2 <= d).
      { rewrite Forall_forall in V2. specialize (V2 _ Hin).
        apply valid_range in V2. lia. }
      assert (Hd : fc = 1 \/ d <> fc).
      { destruct A2 as [->|[_ F]]; [left; reflexivity|].
        right. intros ->. exact (F Hin). }
      specialize (R3 d Hv Hd).
      split; [exact J1|]. split; [lia|].
      rewrite F2 by lia.
      rewrite S6 by lia. exact J3.
    + lia.
    + rewrite Z2Nat.id by lia. lia.
    + reflexivity.
Qed.

Lemma write_file_locate (path : str) (contents : bytes) (ro : bool)
  (st : FAT12) :
  write_file path contents ro st
  = bind (locate path)
      (fun r =>
         match r with
         | None => raise FileNotFoundError
         | Some (cluster, fcluster, foffset) =>
             _writefile fcluster foffset contents ro
         end) st.
Proof.
  unfold write_file, locate, bind.
  destruct (_resolvepath path false st) as [[r|e] st1]; reflexivity.
Qed.




(** * Further properties of the code *)

(** ** [pyfat12.floppy] *)

(** X1.  [FloppyImage(size, capacity)] returns only for a 3.5 inch image of
    360, 720 or 1440 KB, which then holds [capacity * 1024] zero bytes in
    sectors of 512 bytes; every other size or capacity raises (5.25 inch
    always does). *)
Theorem floppy_new_returns (size : FloppyImage.inches) (capacity : Z) :
  match FloppyImage.new size capacity with
  | Ok img =>
      size = FloppyImage.In3_5 /\ In capacity [360; 720; 1440] /\
      img = FloppyImage.mk FloppyImage.In3_5 (capacity * 1024) 512
              (zeros (capacity * 1024))
  | Raise e =>
      ~ (size = FloppyImage.In3_5 /\ In capacity [360; 720; 1440])
  end.
Proof.
  unfold FloppyImage.new, mem. cbn [existsb].
  destruct size; cbn [FloppyImage.is3_5 negb andb rbind].
  - destruct (capacity =? 360) eqn:E1; cbn [orb negb rbind].
    { apply Z.eqb_eq in E1. subst. repeat split. left. reflexivity. }
    destruct (capacity =? 720) eqn:E2; cbn [orb negb rbind].
    { apply Z.eqb_eq in E2. subst. repeat split. right. left. reflexivity. }
    destruct (capacity =? 1440) eqn:E3; cbn [orb negb rbind].
    { apply Z.eqb_eq in E3. subst. repeat split. right. right. left.
      reflexivity. }
    apply Z.eqb_neq in E1, E2, E3.
    intros [_ [H|[H|[H|[]]]]]; congruence.
  - destruct (capacity =? 360) eqn:E1, (capacity =? 1200) eqn:E2,
      (capacity =? 1440) eqn:E3; cbn [orb negb rbind];
      try (intros [H _]; discriminate);
      apply Z.eqb_eq in E3; subst capacity; discriminate.
  - intros [H _]. discriminate.
Qed.

(** X2.  [read_sectors] returns exactly when the first sector is not
    negative and the last one ends inside the image, and then gives
    [sectorcount * bytes_per_sector] bytes, those of the image from
    [sectornum * bytes_per_sector] on; otherwise it raises [ValueError]. *)
Theorem read_sectors_bounds (img : FloppyImage.t) (sectornum sectorcount : Z) :
  0 <= sectorcount -> 0 <= FloppyImage.bytes_per_sector img ->
  match FloppyImage.read_sectors img sectornum sectorcount with
  | Ok d =>
      0 <= sectornum /\
      (sectornum + sectorcount) * FloppyImage.bytes_per_sector img
      <= Zlength (FloppyImage._data img) /\
      Zlength d = sectorcount * FloppyImage.bytes_per_sector img /\
      d = slice (FloppyImage._data img)
            (sectornum * FloppyImage.bytes_per_sector img)
            ((sectornum + sectorcount) * FloppyImage.bytes_per_sector img)
  | Raise e =>
      e = ValueError "invalid sector index" /\
      (sectornum < 0
       \/ Zlength (FloppyImage._data img)
          < (sectornum + sectorcount) * FloppyImage.bytes_per_sector img)
  end.
Proof.
  intros Hn Hb. unfold FloppyImage.read_sectors, FloppyImage.read.
  rewrite len_lt_spec.
  set (bps := FloppyImage.bytes_per_sector img) in *.
  set (data := FloppyImage._data img).
  destruct (sectornum <? 0) eqn:E1; cbn [orb].
  - apply Z.ltb_lt in E1. split; [reflexivity|left; exact E1].
  - apply Z.ltb_ge in E1.
    destruct (Zlength data <? (sectornum + sectorcount) * bps) eqn:E2.
    + apply Z.ltb_lt in E2. split; [reflexivity|right; exact E2].
    + apply Z.ltb_ge in E2.
      replace ((sectornum + sectorcount) * bps)
        with (sectornum * bps + sectorcount * bps) in * by ring.
      assert (H0 : 0 <= sectornum * bps) by (apply Z.mul_nonneg_nonneg; lia).
      assert (H1 : 0 <= sectorcount * bps) by (apply Z.mul_nonneg_nonneg; lia).
      repeat split; try lia.
      apply Zlength_slice; lia.
Qed.

Lemma read_sectors_bounds_witness :
  match FloppyImage.read_sectors small_image 1 2 with
  | Ok d =>
      0 <= 1 /\
      (1 + 2) * FloppyImage.bytes_per_sector small_image
      <= Zlength (FloppyImage._data small_image) /\
      Zlength d = 2 * FloppyImage.bytes_per_sector small_image /\
      d = slice (FloppyImage._data small_image)
            (1 * FloppyImage.bytes_per_sector small_image)
            ((1 + 2) * FloppyImage.bytes_per_sector small_image)
  | Raise e =>
      e = ValueError "invalid sector index" /\
      (1 < 0
       \/ Zlength (FloppyImage._data small_image)
          < (1 + 2) * FloppyImage.bytes_per_sector small_image)
  end.
Proof.
  apply (read_sectors_bounds small_image 1 2); vm_compute; discriminate.
Defined.

Lemma write_sectors_Ok (img img' : FloppyImage.t) (s n : Z) (d : bytes) :
  FloppyImage.write_sectors img s n d = Ok img' ->
  0 <= s /\
  s * FloppyImage.bytes_per_sector img < Zlength (FloppyImage._data img) /\
  Zlength d = n * FloppyImage.bytes_per_sector img /\
  img' = FloppyImage.set_data img
           (slice_set (FloppyImage._data img)
              (s * FloppyImage.bytes_per_sector img)
              (s * FloppyImage.bytes_per_sector img + Zlength d) d).
Proof.
  unfold FloppyImage.write_sectors, FloppyImage.write. rewrite len_le_spec.
  destruct (s <? 0) eqn:E1; [discriminate|].
  destruct (Zlength (FloppyImage._data img)
            <=? s * FloppyImage.bytes_per_sector img) eqn:E2; [discriminate|].
  cbn [orb].
  destruct (Zlength d =? n * FloppyImage.bytes_per_sector img) eqn:E3;
    [|discriminate].
  cbn [negb]. intros H. injection H as <-.
  apply Z.ltb_ge in E1. apply Z.leb_gt in E2. apply Z.eqb_eq in E3.
  repeat split; assumption.
Qed.

(** X3.  What [write_sectors] has written, [read_sectors] reads back from
    the same sectors. *)
Theorem write_sectors_read_sectors (img img' : FloppyImage.t)
  (sectornum sectorcount : Z) (data : bytes) :
  0 < FloppyImage.bytes_per_sector img ->
  FloppyImage.write_sectors img sectornum sectorcount data = Ok img' ->
  FloppyImage.read_sectors img' sectornum sectorcount = Ok data.
Proof.
  intros Hb H. destruct (write_sectors_Ok _ _ _ _ _ H) as (H1 & H2 & H3 & ->).
  unfold FloppyImage.read_sectors, FloppyImage.read.
  cbn [FloppyImage.bytes_per_sector FloppyImage._data FloppyImage.set_data].
  set (bps := FloppyImage.bytes_per_sector img) in *.
  set (old := FloppyImage._data img) in *.
  rewrite len_lt_spec.
  assert (H0 : 0 <= sectornum * bps) by (apply Z.mul_nonneg_nonneg; lia).
  pose proof (Zlength_nonneg data) as Hd.
  replace ((sectornum + sectorcount) * bps)
    with (sectornum * bps + Zlength data) by (rewrite H3; ring).
  rewrite <- H3.
  destruct (sectornum <? 0) eqn:E1; [lia|]. cbn [orb].
  assert (Hlen : sectornum * bps + Zlength data
                 <= Zlength (slice_set old (sectornum * bps)
                               (sectornum * bps + Zlength data) data)).
  { rewrite slice_set_nonneg by lia. rewrite !Zlength_length in *.
    rewrite !length_app, length_firstn, length_skipn. lia. }
  destruct (Zlength (slice_set old (sectornum * bps)
                       (sectornum * bps + Zlength data) data)
            <? sectornum * bps + Zlength data) eqn:E2; [lia|].
  f_equal. apply slice_slice_set_same; lia.
Qed.

Lemma write_sectors_read_sectors_witness :
  FloppyImage.read_sectors
    (FloppyImage.write small_image 512 (repeat 7 (Z.to_nat 1024))) 1 2
  = Ok (repeat 7 (Z.to_nat 1024)).
Proof.
  apply (write_sectors_read_sectors small_image
           (FloppyImage.write small_image 512 (repeat 7 (Z.to_nat 1024)))
           1 2 (repeat 7 (Z.to_nat 1024))); vm_compute; reflexivity.
Defined.

(** X4.  [write_sectors] checks only where the first sector starts: the
    image keeps its length when the sectors written end inside it, and
    grows to their end when they run past its end. *)
Theorem write_sectors_length (img img' : FloppyImage.t)
  (sectornum sectorcount : Z) (data : bytes) :
  0 < FloppyImage.bytes_per_sector img ->
  FloppyImage.write_sectors img sectornum sectorcount data = Ok img' ->
  Zlength (FloppyImage._data img')
  = Z.max (Zlength (FloppyImage._data img))
      ((sectornum + sectorcount) * FloppyImage.bytes_per_sector img)
  /\ FloppyImage.bytes_per_sector img' = FloppyImage.bytes_per_sector img.
Proof.
  intros Hb H. destruct (write_sectors_Ok _ _ _ _ _ H) as (H1 & H2 & H3 & ->).
  cbn [FloppyImage.bytes_per_sector FloppyImage._data FloppyImage.set_data].
  split; [|reflexivity].
  set (bps := FloppyImage.bytes_per_sector img) in *.
  set (old := FloppyImage._data img) in *.
  assert (H0 : 0 <= sectornum * bps) by (apply Z.mul_nonneg_nonneg; lia).
  pose proof (Zlength_nonneg data) as Hd.
  replace ((sectornum + sectorcount) * bps)
    with (sectornum * bps + Zlength data) by (rewrite H3; ring).
  rewrite slice_set_nonneg by lia. rewrite !Zlength_length in *.
  rewrite !length_app, length_firstn, length_skipn. lia.
Qed.

Lemma write_sectors_length_witness :
  Zlength (FloppyImage._data
             (FloppyImage.write small_image 1536 (repeat 7 (Z.to_nat 1024))))
  = Z.max (Zlength (FloppyImage._data small_image))
      ((3 + 2) * FloppyImage.bytes_per_sector small_image)
  /\ FloppyImage.bytes_per_sector
       (FloppyImage.write small_image 1536 (repeat 7 (Z.to_nat 1024)))
     = FloppyImage.bytes_per_sector small_image.
Proof.
  apply (write_sectors_length small_image
           (FloppyImage.write small_image 1536 (repeat 7 (Z.to_nat 1024)))
           3 2 (repeat 7 (Z.to_nat 1024))); vm_compute; reflexivity.
Defined.

(** X5.  [write_sector] leaves the other sectors as they are: every whole
    sector of the image other than the one written reads as before. *)
Theorem write_sector_other_sector (img img' : FloppyImage.t)
  (sectornum other : Z) (data : bytes) :
  0 < FloppyImage.bytes_per_sector img ->
  FloppyImage.write_sector img sectornum data = Ok img' ->
  other <> sectornum -> 0 <= other ->
  (other + 1) * FloppyImage.bytes_per_sector img
  <= Zlength (FloppyImage._data img) ->
  FloppyImage.read_sector img' other = FloppyImage.read_sector img other
  /\ exists d, FloppyImage.read_sector img other = Ok d.
Proof.
  intros Hb H Hne Ho Hin.
  unfold FloppyImage.write_sector, FloppyImage.write in H.
  rewrite len_le_spec in H.
  set (bps := FloppyImage.bytes_per_sector img) in *.
  set (old := FloppyImage._data img) in *.
  destruct (sectornum <? 0) eqn:E1; [discriminate|].
  destruct (Zlength old <=? sectornum * bps) eqn:E2; [discriminate|].
  cbn [orb] in H.
  destruct (Zlength data =? bps) eqn:E3; [|discriminate].
  cbn [negb] in H. injection H as <-.
  apply Z.ltb_ge in E1. apply Z.leb_gt in E2. apply Z.eqb_eq in E3.
  unfold FloppyImage.read_sector, FloppyImage.read.
  cbn [FloppyImage.bytes_per_sector FloppyImage._data FloppyImage.set_data].
  fold bps old. rewrite !len_le_spec.
  assert (H0 : 0 <= sectornum * bps) by (apply Z.mul_nonneg_nonneg; lia).
  assert (H1 : 0 <= other * bps) by (apply Z.mul_nonneg_nonneg; lia).
  assert (H2 : other * bps + bps <= Zlength old) by lia.
  pose proof (Zlength_slice_set_le old data (sectornum * bps) H0) as Hle.
  destruct (other <? 0) eqn:E4; [lia|]. cbn [orb].
  destruct (Zlength old <=? other * bps) eqn:E5; [lia|].
  destruct (Zlength (slice_set old (sectornum * bps)
                       (sectornum * bps + Zlength data) data)
            <=? other * bps) eqn:E6; [lia|].
  split; [|eexists; reflexivity].
  f_equal. apply slice_slice_set_other; try lia.
  rewrite E3.
  destruct (Z.lt_ge_cases other sectornum) as [Hlt|Hge].
  - left. nia.
  - right. nia.
Qed.

Lemma write_sector_other_sector_witness :
  FloppyImage.read_sector
    (FloppyImage.write small_image 512 (repeat 7 (Z.to_nat 512))) 2
  = FloppyImage.read_sector small_image 2
  /\ exists d, FloppyImage.read_sector small_image 2 = Ok d.
Proof.
  apply (write_sector_other_sector small_image
           (FloppyImage.write small_image 512 (repeat 7 (Z.to_nat 512)))
           1 2 (repeat 7 (Z.to_nat 512)));
    vm_compute; try reflexivity; discriminate.
Defined.

(** ** [pyfat12.path] *)

Lemma replace_backslash_none (s : str) : ~ In 92 (replace_backslash s).
Proof.
  induction s as [|c s IH]; [intros []|].
  cbn [replace_backslash map]. intros [H|H]; [|exact (IH H)].
  destruct (c =? 92) eqn:E; [discriminate|].
  apply Z.eqb_neq in E. congruence.
Qed.

Lemma replace_backslash_id (s : str) :
  ~ In 92 s -> replace_backslash s = s.
Proof.
  induction s as [|c s IH]; intros H; [reflexivity|].
  cbn [replace_backslash map]. fold (replace_backslash s).
  rewrite IH by (intros Hin; apply H; right; exact Hin).
  destruct (c =? 92) eqn:E; [|reflexivity].
  apply Z.eqb_eq in E. exfalso. apply H. left. exact E.
Qed.

Lemma rbreak_at_None (c : Z) (s : str) : rbreak_at c s = None -> ~ In c s.
Proof.
  induction s as [|x s IH]; intros H; [intros []|].
  cbn [rbreak_at] in H.
  destruct (rbreak_at c s) as [[h t]|]; [discriminate|].
  destruct (x =? c) eqn:E; [discriminate|].
  apply Z.eqb_neq in E. intros [Hin|Hin]; [congruence|exact (IH eq_refl Hin)].
Qed.

Lemma rbreak_at_Some (c : Z) (s h t : str) :
  rbreak_at c s = Some (h, t) -> s = h ++ c :: t /\ ~ In c t.
Proof.
  revert h t. induction s as [|x s IH]; intros h t H; [discriminate|].
  cbn [rbreak_at] in H.
  destruct (rbreak_at c s) as [[h' t']|] eqn:E.
  - injection H as <- <-. destruct (IH _ _ eq_refl) as [-> Hn].
    split; [reflexivity|exact Hn].
  - destruct (x =? c) eqn:Ex; [|discriminate].
    injection H as <- <-. apply Z.eqb_eq in Ex. subst x.
    split; [reflexivity|]. apply rbreak_at_None. exact E.
Qed.

Lemma rbreak_at_app (c : Z) (h t : str) :
  ~ In c t -> rbreak_at c (h ++ c :: t) = Some (h, t).
Proof.
  intros Hn. induction h as [|x h IH].
  - cbn [app rbreak_at].
    destruct (rbreak_at c t) as [[h' t']|] eqn:E.
    + apply rbreak_at_Some in E. destruct E as [-> _].
      exfalso. apply Hn. apply in_or_app. right. left. reflexivity.
    + rewrite Z.eqb_refl. reflexivity.
  - cbn [app rbreak_at]. rewrite IH. reflexivity.
Qed.

(** X6.  [basename(path)] holds no separator, neither [/] nor [\]: it is
    the part of the path, backslashes made slashes, after its last slash,
    and the whole of it when there is none. *)
Theorem basename_after_last_separator (path : str) :
  ~ In 47 (Path.basename path) /\ ~ In 92 (Path.basename path) /\
  (replace_backslash path = Path.basename path
   \/ exists dir, replace_backslash path = dir ++ [47] ++ Path.basename path).
Proof.
  unfold Path.basename. cbv zeta.
  pose proof (replace_backslash_none path) as Hb.
  destruct (rbreak_at 47 (replace_backslash path)) as [[h t]|] eqn:E.
  - apply rbreak_at_Some in E. destruct E as [E Hn].
    split; [exact Hn|]. split.
    + intros Hin. apply Hb. rewrite E. apply in_or_app. right. right. exact Hin.
    + right. exists h. exact E.
  - apply rbreak_at_None in E. split; [exact E|]. split; [exact Hb|].
    left. reflexivity.
Qed.

Lemma endswith_app (s : str) (c : Z) :
  endswith s c = true -> exists s', s = s' ++ [c].
Proof.
  unfold endswith. intros H.
  destruct (rev s) as [|x r] eqn:E; [discriminate|].
  apply Z.eqb_eq in H. subst x.
  exists (rev r). rewrite <- (rev_involutive s), E. reflexivity.
Qed.

(** X7.  The last component survives [join]: for a name that holds no
    separator, [basename(join(dir, name))] is the name, whatever [dir]
    is. *)
Theorem basename_join (dir name : str) :
  ~ In 47 name -> ~ In 92 name ->
  Path.basename (Path.join [dir; name]) = name.
Proof.
  intros H47 H92. unfold Path.join. cbn [fold_left app nonempty andb].
  rewrite (replace_backslash_id name H92).
  set (d := replace_backslash dir).
  pose proof (replace_backslash_none dir) as Hd. fold d in Hd.
  unfold Path.basename. cbv zeta.
  assert (Hid : forall x, ~ In 92 x -> ~ In 92 (x ++ name)).
  { intros x Hx Hin. apply in_app_or in Hin. tauto. }
  destruct (nonempty d && negb (endswith d 47)) eqn:E.
  - assert (Hn : ~ In 92 (d ++ [47] ++ name)).
    { intros Hin. apply in_app_or in Hin. destruct Hin as [Hin|Hin]; [tauto|].
      destruct Hin as [Hin|Hin]; [discriminate|tauto]. }
    rewrite (replace_backslash_id _ Hn).
    change (d ++ [47] ++ name) with (d ++ 47 :: name).
    rewrite rbreak_at_app by exact H47. reflexivity.
  - cbn [app]. rewrite (replace_backslash_id _ (Hid d Hd)).
    destruct d as [|x d'] eqn:Ed.
    + cbn [app]. destruct (rbreak_at 47 name) as [[h t]|] eqn:Er;
        [|reflexivity].
      apply rbreak_at_Some in Er. destruct Er as [-> _].
      exfalso. apply H47. apply in_or_app. right. left. reflexivity.
    + cbn [nonempty andb] in E. apply negb_false_iff in E.
      apply endswith_app in E. destruct E as (s' & E). rewrite E.
      rewrite <- app_assoc. cbn [app].
      rewrite rbreak_at_app by exact H47. reflexivity.
Qed.

Lemma basename_join_witness :
  Path.basename (Path.join [py "\SUB\"; py "A.TXT"]) = py "A.TXT".
Proof.
  apply (basename_join (py "\SUB\") (py "A.TXT")); vm_compute;
    intuition discriminate.
Defined.

(** ** The FAT as [_writefat] packs it and [_readfat] unpacks it *)

Lemma land_mask_range (e : Z) : 0 <= Z.land e 0xFFF < 4096.
Proof.
  change 0xFFF with (Z.ones 12). rewrite Z.land_ones by lia.
  change (2 ^ 12) with 4096. apply Z.mod_pos_bound. lia.
Qed.

Lemma fat_pack_pair_unpack (e0 e1 : Z) (w : bytes) :
  fat_pack_pair e0 e1 = Ok w ->
  exists b0 b1 b2,
    w = [b0; b1; b2] /\
    Z.land (le_value ([b0; b1; b2] ++ [0])) 0xFFF = Z.land e0 0xFFF /\
    Z.land (Z.shiftr (le_value ([b0; b1; b2] ++ [0])) 12) 0xFFF
    = Z.land e1 0xFFF.
Proof.
  unfold fat_pack_pair.
  pose proof (land_mask_range e0) as H0. pose proof (land_mask_range e1) as H1.
  set (m0 := Z.land e0 0xFFF) in *. set (m1 := Z.land e1 0xFFF) in *.
  rewrite Z.shiftl_mul_pow2 by lia. rewrite Z.lor_comm.
  rewrite lor_high_low by (pow2_norm; lia).
  set (x := m1 * 2 ^ 12 + m0).
  assert (Hx : 0 <= x < 2 ^ 24) by (subst x; pow2_norm; lia).
  unfold struct_pack_uint. change (256 ^ Z.of_nat 4) with (2 ^ 32).
  destruct (0 <=? x) eqn:G1; [|lia].
  destruct (x <? 2 ^ 32) eqn:G2; [|apply Z.ltb_ge in G2; pow2_norm; lia].
  cbn [andb rbind]. intros H. injection H as <-.
  assert (Hv : le_value (le_bytes 4 x) = x).
  { apply le_value_le_bytes. change (256 ^ Z.of_nat 4) with (2 ^ 32).
    pow2_norm. pow2_norm. lia. }
  assert (H4 : x / 256 / 256 / 256 mod 256 = 0).
  { rewrite !Z.div_div by lia. change (256 * 256 * 256) with (2 ^ 24).
    rewrite Z.div_small by lia. reflexivity. }
  cbn [le_bytes] in Hv |- *. rewrite H4 in Hv.
  rewrite slice_to_nonneg by lia.
  change (Z.to_nat 3) with 3%nat. cbn [firstn].
  exists (x mod 256), (x / 256 mod 256), (x / 256 / 256 mod 256).
  split; [reflexivity|]. cbn [app]. rewrite Hv.
  assert (Ex : x = m0 + 2 ^ 12 * (m1 + 2 ^ 12 * 0)) by (subst x; ring).
  change 0xFFF with (Z.ones 12) in *. split.
  - rewrite Z.land_ones by lia. rewrite Ex.
    apply div_mod_split. pow2_norm. lia.
  - rewrite Ex. apply field_at; pow2_norm; lia.
Qed.

Lemma fat_pack_chunks_unpack (fat : list Z) (c : bytes) :
  fat_pack_chunks fat = Ok c ->
  (2 * List.length c = 3 * List.length fat)%nat /\
  forall r tl, fat_unpack r = Ok tl ->
    fat_unpack (c ++ r) = Ok (map (fun e => Z.land e 0xFFF) fat ++ tl).
Proof.
  assert (G : forall n fat c, (List.length fat <= n)%nat ->
            fat_pack_chunks fat = Ok c ->
            (2 * List.length c = 3 * List.length fat)%nat /\
            forall r tl, fat_unpack r = Ok tl ->
              fat_unpack (c ++ r)
              = Ok (map (fun e => Z.land e 0xFFF) fat ++ tl)).
  { clear. induction n as [|n IH]; intros fat c Hn H.
    - destruct fat; [|cbn in Hn; lia]. injection H as <-.
      split; [reflexivity|]. intros r tl Hr. exact Hr.
    - destruct fat as [|e0 [|e1 rest]]; cbn [fat_pack_chunks] in H.
      + injection H as <-. split; [reflexivity|]. intros r tl Hr. exact Hr.
      + discriminate.
      + destruct (fat_pack_pair e0 e1) as [w|] eqn:Ew; [|discriminate].
        cbn [rbind] in H.
        destruct (fat_pack_chunks rest) as [c'|] eqn:Ec; [|discriminate].
        cbn [rbind] in H. injection H as <-.
        destruct (fat_pack_pair_unpack _ _ _ Ew) as (b0 & b1 & b2 & -> & P0 & P1).
        destruct (IH rest c' ltac:(cbn in Hn; lia) Ec) as [L U].
        split; [cbn [List.length app]; lia|].
        intros r tl Hr. cbn [app] in *.
        change (fat_unpack (b0 :: b1 :: b2 :: c' ++ r))
          with (pair <-- struct_unpack_uint 4 [b0; b1; b2; 0] ;;
                t <-- fat_unpack (c' ++ r) ;;
                Ok (Z.land pair 0xFFF :: Z.land (Z.shiftr pair 12) 0xFFF :: t)).
        unfold struct_unpack_uint. cbn [List.length Nat.eqb rbind].
        rewrite (U r tl Hr). cbn [rbind map app]. rewrite P0, P1.
        reflexivity. }
  intros H. exact (G (List.length fat) fat c (le_n _) H).
Qed.

Lemma fat_unpack_zeros (k : nat) :
  fat_unpack (repeat 0 (3 * k)) = Ok (repeat 0 (2 * k)).
Proof.
  induction k as [|k IH]; [reflexivity|].
  replace (3 * S k)%nat with (S (S (S (3 * k)))) by lia.
  replace (2 * S k)%nat with (S (S (2 * k))) by lia.
  cbn [repeat]. 
  change (fat_unpack (0 :: 0 :: 0 :: repeat 0 (3 * k)))
    with (pair <-- struct_unpack_uint 4 [0; 0; 0; 0] ;;
          t <-- fat_unpack (repeat 0 (3 * k)) ;;
          Ok (Z.land pair 0xFFF :: Z.land (Z.shiftr pair 12) 0xFFF :: t)).
  rewrite IH. reflexivity.
Qed.

Lemma skipn_repeat {A} (x : A) (n m : nat) :
  skipn n (repeat x m) = repeat x (m - n).
Proof.
  revert m. induction n as [|n IH]; intros m.
  - rewrite Nat.sub_0_r. reflexivity.
  - destruct m as [|m]; [reflexivity|]. cbn [repeat skipn]. apply IH.
Qed.

(** X8.  What [_writefat] packs, [_readfat] unpacks: the bytes of a FAT
    that fits in [size] bytes, [size] a multiple of three, unpack to its
    entries, each reduced to twelve bits, followed by zero entries up to
    the two entries of every three bytes. *)
Theorem fat_pack_unpack (size : Z) (fat : list Z) (b : bytes) :
  size mod 3 = 0 -> 3 * Zlength fat <= 2 * size ->
  fat_pack size fat = Ok b ->
  fat_unpack b
  = Ok (map (fun e => Z.land e 0xFFF) fat
        ++ repeat 0 (Z.to_nat (2 * (size / 3) - Zlength fat))).
Proof.
  intros Hs Hfit H. unfold fat_pack in H.
  destruct (fat_pack_chunks fat) as [c|] eqn:Ec; [|discriminate].
  cbn [rbind] in H. injection H as <-.
  destruct (fat_pack_chunks_unpack _ _ Ec) as [L U].
  pose proof (Zlength_nonneg c) as Hc.
  rewrite slice_set_nonneg by lia. rewrite Z.max_r by lia.
  cbn [Z.to_nat firstn app].
  unfold zeros. rewrite skipn_repeat.
  rewrite !Zlength_length in *.
  pose proof (Z.div_mod size 3 ltac:(lia)) as Ed. rewrite Hs in Ed.
  set (q := size / 3) in *.
  replace (Z.to_nat size - Z.to_nat (Z.of_nat (List.length c)))%nat
    with (3 * Z.to_nat (q - Z.of_nat (List.length fat) / 2))%nat.
  - rewrite (U _ _ (fat_unpack_zeros _)). do 3 f_equal.
    pose proof (Z.div_mod (Z.of_nat (List.length fat)) 2 ltac:(lia)) as E2.
    pose proof (Z.mod_pos_bound (Z.of_nat (List.length fat)) 2 ltac:(lia)) as B2.
    assert (Z.of_nat (List.length fat) mod 2 = 0) by lia.
    lia.
  - pose proof (Z.div_mod (Z.of_nat (List.length fat)) 2 ltac:(lia)) as E2.
    pose proof (Z.mod_pos_bound (Z.of_nat (List.length fat)) 2 ltac:(lia)) as B2.
    assert (Z.of_nat (List.length fat) mod 2 = 0) by lia.
    lia.
Qed.

Lemma fat_pack_unpack_witness :
  fat_unpack [0xF0; 0xFF; 0xFF; 0x03; 0x40; 0x00; 0; 0; 0]
  = Ok (map (fun e => Z.land e 0xFFF) [0xFF0; 0xFFF; 0x1003; 4]
        ++ repeat 0 (Z.to_nat (2 * (9 / 3) - Zlength [0xFF0; 0xFFF; 0x1003; 4]))).
Proof.
  apply (fat_pack_unpack 9 [0xFF0; 0xFFF; 0x1003; 4]
           [0xF0; 0xFF; 0xFF; 0x03; 0x40; 0x00; 0; 0; 0]);
    vm_compute; try reflexivity; discriminate.
Defined.

Lemma fat_unpack_shape (data : bytes) :
  match fat_unpack data with
  | Ok fat =>
      Zlength data mod 3 = 0 /\ 3 * Zlength fat = 2 * Zlength data /\
      Forall (fun e => 0 <= e <= 0xFFF) fat
  | Raise e => e = StructError /\ Zlength data mod 3 <> 0
  end.
Proof.
  assert (G : forall n data, (List.length data <= n)%nat ->
            match fat_unpack data with
            | Ok fat =>
                Zlength data mod 3 = 0 /\ 3 * Zlength fat = 2 * Zlength data /\
                Forall (fun e => 0 <= e <= 0xFFF) fat
            | Raise e => e = StructError /\ Zlength data mod 3 <> 0
            end).
  { clear. induction n as [|n IH]; intros data Hn.
    - destruct data; [|cbn in Hn; lia]. cbn; repeat split; try constructor.
    - destruct data as [|b0 [|b1 [|b2 rest]]].
      + cbn; repeat split; try constructor.
      + cbn. split; [reflexivity|discriminate].
      + cbn. split; [reflexivity|discriminate].
      + change (fat_unpack (b0 :: b1 :: b2 :: rest))
          with (pair <-- struct_unpack_uint 4 [b0; b1; b2; 0] ;;
                t <-- fat_unpack rest ;;
                Ok (Z.land pair 0xFFF :: Z.land (Z.shiftr pair 12) 0xFFF :: t)).
        unfold struct_unpack_uint. cbn [List.length Nat.eqb rbind].
        specialize (IH rest ltac:(cbn in Hn; lia)).
        rewrite !Zlength_cons.
        destruct (fat_unpack rest) as [t|e]; cbn [rbind].
        * destruct IH as (I1 & I2 & I3).
          rewrite !Zlength_cons.
          pose proof (Zlength_nonneg rest) as Hr.
          split; [|split].
          -- replace (Z.succ (Z.succ (Z.succ (Zlength rest))))
               with (Zlength rest + 1 * 3) by lia.
             rewrite Z.mod_add by lia. exact I1.
          -- lia.
          -- constructor; [pose proof (land_mask_range (le_value [b0; b1; b2; 0])); lia|].
             constructor; [|exact I3].
             pose proof (land_mask_range
                           (Z.shiftr (le_value [b0; b1; b2; 0]) 12)); lia.
        * destruct IH as (I1 & I2). split; [exact I1|].
          replace (Z.succ (Z.succ (Z.succ (Zlength rest))))
            with (Zlength rest + 1 * 3) by lia.
          rewrite Z.mod_add by lia. exact I2. }
  exact (G (List.length data) data (le_n _)).
Qed.

(** X9.  The loop of [_readfat] takes three bytes for two entries: it
    returns exactly when the number of bytes is a multiple of three (a FAT
    of 1, 2, 4, 5, 7, ... sectors of 512 bytes raises [struct.error]),
    and every entry it gives is in [0 .. 0xFFF]. *)
Theorem fat_unpack_returns (data : bytes) :
  match fat_unpack data with
  | Ok fat =>
      Zlength data mod 3 = 0 /\ 3 * Zlength fat = 2 * Zlength data /\
      Forall (fun e => 0 <= e <= 0xFFF) fat
  | Raise e => e = StructError /\ Zlength data mod 3 <> 0
  end.
Proof. apply fat_unpack_shape. Qed.

(** ** Mounting *)

Lemma In_skipn {A} (x : A) (n : nat) (l : list A) : In x (skipn n l) -> In x l.
Proof.
  revert l. induction n as [|n IH]; intros l H; [exact H|].
  destruct l as [|y l]; [exact H|]. right. apply IH. exact H.
Qed.

Lemma Forall_slice {A} (P : A -> Prop) (l : list A) (i j : Z) :
  Forall P l -> Forall P (slice l i j).
Proof.
  intros H. rewrite slice_clamp. apply Forall_forall. intros x Hx.
  apply In_firstn in Hx. apply In_skipn in Hx.
  revert x Hx. apply Forall_forall. exact H.
Qed.

Lemma le_value_nonneg (b : bytes) : Forall (fun x => 0 <= x) b -> 0 <= le_value b.
Proof.
  induction 1 as [|x b Hx Hb IH]; cbn [le_value]; lia.
Qed.

Lemma struct_fields_nonneg (fmt : list nat) (b : bytes) :
  Forall (fun x => 0 <= x) b -> Forall (fun x => 0 <= x) (struct_fields fmt b).
Proof.
  revert b. induction fmt as [|n fmt IH]; intros b H; cbn [struct_fields].
  - constructor.
  - constructor.
    + apply le_value_nonneg. apply Forall_forall. intros x Hx.
      apply In_firstn in Hx. revert x Hx. apply Forall_forall. exact H.
    + apply IH. apply Forall_forall. intros x Hx.
      apply In_skipn in Hx. revert x Hx. apply Forall_forall. exact H.
Qed.

Lemma _readbpb_Ok (image : FloppyImage.t) (p : bpb) (lbl : bytes) :
  Forall (fun x => 0 <= x) (FloppyImage._data image) ->
  _readbpb image = Ok (p, lbl) ->
  bytes_per_sector p = 512 /\ sectors_per_cluster p = 1 /\
  descriptor p = 0xF0 /\ root_entries p mod 16 = 0 /\
  (fat_count p = 1 \/ fat_count p = 2) /\
  0 <= fat_start_sector p /\ 0 <= sectors_per_fat p /\ 0 <= root_entries p.
Proof.
  unfold _readbpb. intros Hbytes H.
  destruct (FloppyImage.read_mbr image) as [mbr|] eqn:Em; [|discriminate].
  assert (Hm : Forall (fun x => 0 <= x) mbr).
  { unfold FloppyImage.read_mbr, FloppyImage.read_sector, FloppyImage.read in Em.
    destruct (_ || _) in Em; [discriminate Em|]. injection Em as <-.
    apply Forall_slice. exact Hbytes. }
  cbn [rbind] in H. unfold struct_unpack in H.
  destruct (Nat.eqb (List.length (slice mbr 11 24)) _); [|discriminate].
  pose proof (struct_fields_nonneg [2; 1; 2; 1; 2; 2; 1; 2]%nat _
                (Forall_slice _ mbr 11 24 Hm)) as Hnn.
  cbn [rbind struct_fields] in H, Hnn.
  repeat (apply Forall_cons_iff in Hnn;
          let N := fresh "N" in destruct Hnn as [N Hnn]).
  cbv beta iota in H.
  destruct (negb (mem _ [1; 2])) eqn:Ec; [discriminate H|].
  destruct (negb (_ =? 512) || negb (_ =? 1) || negb (_ =? 240)
            || negb (_ mod 16 =? 0)) eqn:Eg; [discriminate H|].
  apply negb_false_iff in Ec. unfold mem in Ec. cbn [existsb] in Ec.
  apply orb_false_iff in Eg. destruct Eg as [Eg E4].
  apply orb_false_iff in Eg. destruct Eg as [Eg E3].
  apply orb_false_iff in Eg. destruct Eg as [E1 E2].
  apply negb_false_iff in E1, E2, E3, E4.
  apply Z.eqb_eq in E1, E2, E3, E4.
  rewrite orb_false_r in Ec. apply orb_true_iff in Ec.
  rewrite !Z.eqb_eq in Ec.
  destruct (Nat.eqb (List.length (slice mbr 24 38)) _); [|discriminate H].
  cbn [rbind struct_fields] in H. cbv beta iota in H.
  destruct (index mbr 38) as [sig|]; [|discriminate H].
  cbn [rbind] in H.
  destruct (sig =? 41).
  - destruct (negb (bytes_in _ fs_types)); [discriminate H|].
    injection H as <- _. cbn [bytes_per_sector sectors_per_cluster descriptor
      root_entries fat_count fat_start_sector sectors_per_fat].
    repeat split; assumption.
  - injection H as <- _. cbn [bytes_per_sector sectors_per_cluster descriptor
      root_entries fat_count fat_start_sector sectors_per_fat].
    repeat split; assumption.
Qed.

Lemma _readfat_Ok (image : FloppyImage.t) (p : bpb) (fat : list Z) (rds fcs : Z) :
  FloppyImage.bytes_per_sector image = 512 ->
  0 <= sectors_per_fat p ->
  _readfat image p = Ok (fat, rds, fcs) ->
  0 <= fat_start_sector p /\ 0 < sectors_per_fat p /\
  sectors_per_fat p mod 3 = 0 /\
  (fat_start_sector p + sectors_per_fat p) * 512
  <= Zlength (FloppyImage._data image) /\
  3 * Zlength fat = 1024 * sectors_per_fat p /\
  Forall (fun e => 0 <= e <= 0xFFF) fat /\
  index fat 0 = Ok 0xFF0 /\ index fat 1 = Ok 0xFFF /\
  rds = fat_start_sector p + sectors_per_fat p * fat_count p /\
  fcs = (rds + root_entries p / 16 - 2 * sectors_per_cluster p
         + (sectors_per_cluster p - 1)) / sectors_per_cluster p.
Proof.
  intros Hb Hnn H. unfold _readfat in H.
  destruct (FloppyImage.read_sectors image _ _) as [data|] eqn:Er;
    [|discriminate].
  cbn [rbind] in H.
  pose proof (fat_unpack_shape data) as Hs.
  destruct (fat_unpack data) as [f|]; [|discriminate]. cbn [rbind] in H.
  destruct (index f 0) as [e0|] eqn:I0; [|discriminate]. cbn [rbind] in H.
  destruct (e0 =? 4080) eqn:E0; [|discriminate]. cbn [rassert rbind] in H.
  destruct (index f 1) as [e1|] eqn:I1; [|discriminate]. cbn [rbind] in H.
  destruct (e1 =? 4095) eqn:E1; [|discriminate]. cbn [rassert rbind] in H.
  injection H as <- <- <-.
  apply Z.eqb_eq in E0, E1. subst e0 e1.
  destruct Hs as (S1 & S2 & S3).
  unfold FloppyImage.read_sectors, FloppyImage.read in Er. rewrite Hb in Er.
  rewrite len_lt_spec in Er.
  destruct (fat_start_sector p <? 0) eqn:G1; [discriminate|].
  destruct (Zlength (FloppyImage._data image)
            <? (fat_start_sector p + sectors_per_fat p) * 512) eqn:G2;
    [discriminate|].
  cbn [orb] in Er. injection Er as Er.
  apply Z.ltb_ge in G1, G2.
  assert (Hf : 2 <= Zlength f).
  { destruct f as [|a [|b f]]; [discriminate I0|discriminate I1|].
    rewrite !Zlength_cons. pose proof (Zlength_nonneg f). lia. }
  assert (Hpos : 0 < sectors_per_fat p).
  { destruct (Z_lt_le_dec 0 (sectors_per_fat p)) as [L|L]; [exact L|].
    exfalso. rewrite slice_nonneg in Er by lia.
    replace (Z.to_nat (fat_start_sector p * 512 + sectors_per_fat p * 512
                       - fat_start_sector p * 512)) with O in Er by lia.
    cbn [firstn] in Er. subst data. rewrite Zlength_nil in S2. lia. }
  assert (Hlen : Zlength data = sectors_per_fat p * 512).
  { subst data. apply Zlength_slice; lia. }
  rewrite Hlen in S1, S2.
  repeat split; try assumption; try lia.
  pose proof (Z.div_mod (sectors_per_fat p) 3 ltac:(lia)) as D.
  pose proof (Z.mod_pos_bound (sectors_per_fat p) 3 ltac:(lia)) as B.
  pose proof (Z.div_mod (sectors_per_fat p * 512) 3 ltac:(lia)) as D'.
  rewrite S1 in D'. lia.
Qed.

(** X10.  What [FAT12(image)] has established when it returns, for an
    image of 512-byte sectors that holds bytes: the geometry [_readbpb] accepts (512-byte
    sectors, one sector per cluster, media descriptor 0xF0, one or two
    FATs, whole sectors of root entries), a FAT whose sector count is a
    positive multiple of three (each three bytes give two entries, and a
    tail of one or two bytes raises), whose entries are in [0 .. 0xFFF]
    and start with 0xFF0 and 0xFFF, the two derived sector numbers, the
    root directory as current directory and no label write pending. *)
Theorem mount_invariants (image : FloppyImage.t) (clock : datetime)
  (st : FAT12) :
  FloppyImage.bytes_per_sector image = 512 ->
  Forall (fun b => 0 <= b) (FloppyImage._data image) ->
  _readfs image clock = Ok st ->
  _image st = image /\ now st = clock /\
  bytes_per_sector (params st) = 512 /\
  sectors_per_cluster (params st) = 1 /\
  descriptor (params st) = 0xF0 /\
  root_entries (params st) mod 16 = 0 /\
  (fat_count (params st) = 1 \/ fat_count (params st) = 2) /\
  0 <= root_entries (params st) /\
  0 <= fat_start_sector (params st) /\
  0 < sectors_per_fat (params st) /\
  sectors_per_fat (params st) mod 3 = 0 /\
  (fat_start_sector (params st) + sectors_per_fat (params st)) * 512
  <= Zlength (FloppyImage._data image) /\
  3 * Zlength (_fat st) = 1024 * sectors_per_fat (params st) /\
  Forall (fun e => 0 <= e <= 0xFFF) (_fat st) /\
  index (_fat st) 0 = Ok 0xFF0 /\ index (_fat st) 1 = Ok 0xFFF /\
  _root_dir_sector st
  = fat_start_sector (params st)
    + sectors_per_fat (params st) * fat_count (params st) /\
  _first_cluster_sector st
  = _root_dir_sector st + root_entries (params st) / 16 - 2 /\
  _dircluster st = 1 /\ _dirparents st = [] /\ _write_label st = false.
Proof.
  intros Hb Hbytes H. unfold _readfs in H.
  destruct (_readbpb image) as [[p lbl]|] eqn:Ep; [|discriminate].
  cbn [rbind] in H.
  destruct (_readfat image p) as [[[fat rds] fcs]|] eqn:Ef; [|discriminate].
  cbn [rbind] in H.
  destruct (_readlabel image p lbl rds) as [[[wl l_] l]|] eqn:El;
    [|discriminate].
  cbn [rbind] in H. injection H as <-. cbn [_image now params _fat
    _root_dir_sector _first_cluster_sector _dircluster _dirparents
    _write_label].
  destruct (_readbpb_Ok _ _ _ Hbytes Ep)
    as (B1 & B2 & B3 & B4 & B5 & B6 & B7 & B8).
  destruct (_readfat_Ok _ _ _ _ _ Hb B7 Ef)
    as (F1 & F2 & F3 & F4 & F5 & F6 & F7 & F8 & F9 & F10).
  assert (Hw : wl = false).
  { unfold _readlabel in El.
    destruct (FloppyImage.read_sectors image rds _); [|discriminate].
    cbn [rbind] in El.
    destruct (_readlabel_scan _ _) as [[s|]|]; [| |discriminate];
      cbn [rbind] in El; injection El as <- _ _; reflexivity. }
  rewrite B2 in F10.
  replace (rds + root_entries p / 16 - 2 * 1 + (1 - 1))
    with (rds + root_entries p / 16 - 2) in F10 by ring.
  rewrite Z.div_1_r in F10.
  repeat (apply conj); try assumption; reflexivity.
Qed.

Lemma mount_invariants_witness :
  _image (volume tiny) = tiny_image /\ now (volume tiny) = sample_time /\
  bytes_per_sector (params (volume tiny)) = 512 /\
  sectors_per_cluster (params (volume tiny)) = 1 /\
  descriptor (params (volume tiny)) = 0xF0 /\
  root_entries (params (volume tiny)) mod 16 = 0 /\
  (fat_count (params (volume tiny)) = 1
   \/ fat_count (params (volume tiny)) = 2) /\
  0 <= root_entries (params (volume tiny)) /\
  0 <= fat_start_sector (params (volume tiny)) /\
  0 < sectors_per_fat (params (volume tiny)) /\
  sectors_per_fat (params (volume tiny)) mod 3 = 0 /\
  (fat_start_sector (params (volume tiny))
   + sectors_per_fat (params (volume tiny))) * 512
  <= Zlength (FloppyImage._data tiny_image) /\
  3 * Zlength (_fat (volume tiny))
  = 1024 * sectors_per_fat (params (volume tiny)) /\
  Forall (fun e => 0 <= e <= 0xFFF) (_fat (volume tiny)) /\
  index (_fat (volume tiny)) 0 = Ok 0xFF0 /\
  index (_fat (volume tiny)) 1 = Ok 0xFFF /\
  _root_dir_sector (volume tiny)
  = fat_start_sector (params (volume tiny))
    + sectors_per_fat (params (volume tiny)) * fat_count (params (volume tiny)) /\
  _first_cluster_sector (volume tiny)
  = _root_dir_sector (volume tiny)
    + root_entries (params (volume tiny)) / 16 - 2 /\
  _dircluster (volume tiny) = 1 /\ _dirparents (volume tiny) = [] /\
  _write_label (volume tiny) = false.
Proof.
  apply (mount_invariants tiny_image sample_time (volume tiny)).
  - reflexivity.
  - unfold tiny_image, FloppyImage._data, zeros.
    repeat (apply Forall_app; split);
      try (apply Forall_forall; intros x Hx; apply repeat_spec in Hx; lia);
      repeat (constructor; [lia|]); constructor.
  - vm_compute. reflexivity.
Defined.

(** ** Packed times and directory entries *)

Lemma packed_datetime_fields (t : datetime) :
  1980 <= year t <= 2107 ->
  exists e t', _pdt_to_edt t = Ok e /\ List.length e = 4%nat /\
               _edt_to_pdt e = Ok t' /\
               datetime_tuple t'
               = (year t, month t, day t, hour t, minute t, second t / 2 * 2).
Proof.
  intros Hy. pose proof (datetime_range t) as (_ & Hmo & Hd & Hh & Hmi & Hs).
  assert (Hs2 : 0 <= second t / 2 < 32).
  { split; [apply Z.div_pos; lia|].
    apply Z.div_lt_upper_bound; lia. }
  pose proof (packed_fields (year t - 1980) (month t) (day t) (hour t)
                (minute t) (second t / 2)) as Hp.
  pose proof (unpacked_fields (year t - 1980) (month t) (day t) (hour t)
                (minute t) (second t / 2)) as Hu.
  cbv zeta in Hu.
  destruct Hu as (U1 & U2 & U3 & U4 & U5 & U6 & U7); try lia.
  unfold _pdt_to_edt. cbv zeta beta iota.
  rewrite Hp by lia.
  set (i := second t / 2 + 2 ^ 5 * minute t + 2 ^ 11 * hour t
            + 2 ^ 16 * day t + 2 ^ 21 * month t + 2 ^ 25 * (year t - 1980)) in *.
  destruct (struct_pack_uint 4 i) as [e|err] eqn:E.
  - destruct (struct_unpack_pack_uint _ _ _ E) as (E1 & E2 & E3).
    exists e. unfold _edt_to_pdt. rewrite E1. cbn [rbind].
    rewrite U1, U2, U3, U4, U5, U6.
    replace (1980 + (year t - 1980)) with (year t) by ring.
    unfold datetime_new.
    destruct (bool_dec _ true) as [H|H].
    + eexists. split; [reflexivity|]. split; [exact E2|].
      split; reflexivity.
    + exfalso. apply H. clear H.
      pose proof (datetime_ok t) as H. unfold datetime_fields_ok in *.
      repeat (apply andb_prop in H; destruct H as [H ?]).
      repeat (apply andb_true_intro; split); try assumption.
      * apply Z.leb_le. lia.
      * apply Z.leb_le.
        assert (second t / 2 * 2 <= second t); [|lia].
        rewrite Z.mul_comm. apply Z.mul_div_le. lia.
  - exfalso. unfold struct_pack_uint in E.
    change (256 ^ Z.of_nat 4) with (2 ^ 32) in E.
    destruct (0 <=? i) eqn:E1; [|lia].
    destruct (i <? 2 ^ 32) eqn:E2; [discriminate|lia].
Qed.

(** X11.  A timestamp of the years 1980..2107, whatever its seconds, is
    stored in four bytes that decode to the same date, hour and minute and
    to the seconds rounded down to an even number: the stored time has a
    resolution of two seconds. *)
Theorem packed_datetime_rounds_seconds (t : datetime) :
  1980 <= year t <= 2107 ->
  exists e t', _pdt_to_edt t = Ok e /\ List.length e = 4%nat /\
               _edt_to_pdt e = Ok t' /\
               datetime_tuple t'
               = (year t, month t, day t, hour t, minute t, second t / 2 * 2).
Proof. apply packed_datetime_fields. Qed.

Lemma packed_datetime_rounds_seconds_witness :
  1980 <= year (mk_datetime 1999 12 31 23 59 59 eq_refl) <= 2107 /\
  exists e t',
    _pdt_to_edt (mk_datetime 1999 12 31 23 59 59 eq_refl) = Ok e /\
    List.length e = 4%nat /\ _edt_to_pdt e = Ok t' /\
    datetime_tuple t' = (1999, 12, 31, 23, 59, 59 / 2 * 2).
Proof.
  split; [cbn; lia|].
  apply (packed_datetime_rounds_seconds (mk_datetime 1999 12 31 23 59 59 eq_refl)).
  cbn; lia.
Defined.

Lemma datetime_new_month_0 (y d h mi s : Z) :
  datetime_new y 0 d h mi s = Raise (ValueError "datetime field out of range").
Proof.
  unfold datetime_new. destruct (bool_dec _ true) as [H|H]; [|reflexivity].
  exfalso. unfold datetime_fields_ok in H.
  repeat (apply andb_prop in H; destruct H as [H ?]).
  discriminate.
Qed.



Lemma _makedirentry_parse_fields (fn : str) (a cluster size : Z)
  (modified : option datetime) (entry : bytes) (st st' : FAT12) :
  1980 <= year (match modified with None => now st | Some m => m end)
  <= 2107 ->
  (forall x s, fn = x :: s -> x <> 0) ->
  _makedirentry (NameStr fn) a modified cluster size st = (Ok entry, st') ->
  st' = st /\ Zlength entry = 32 /\
  exists fn' t',
    _parsedirentry entry = Ok (Entry fn' a t' cluster size) /\
    datetime_tuple t'
    = let m := match modified with None => now st | Some m => m end in
      (year m, month m, day m, hour m, minute m, second m / 2 * 2).
Proof.
  intros Hy Hfn H. unfold _makedirentry in H.
  set (m := match modified with None => now st | Some m => m end) in *.
  remember (struct_pack [2; 4]%nat [cluster; size]) as sp eqn:Ec.
  symmetry in Ec.
  inversion H as [[H1 H2]]. clear H. split; [reflexivity|]. clear H2.
  destruct (if mem 46 (upper fn)
            then match rbreak_at 46 (upper fn) with
                 | Some p => p
                 | None => (upper fn, [])
                 end
            else (upper fn, py "   ")) as [f e] eqn:Esplit.
  destruct (encode_cp437 f) as [f'|] eqn:Ef; [|discriminate].
  cbn [rbind] in H1.
  destruct (encode_cp437 e) as [e'|] eqn:Ee; [|discriminate].
  cbn [rbind] in H1.
  destruct ((8 <? Zlength f') || (3 <? Zlength e')) eqn:Elen; [discriminate|].
  apply orb_false_iff in Elen. destruct Elen as [L1 L2].
  apply Z.ltb_ge in L1. apply Z.ltb_ge in L2.
  destruct (size <? 0) eqn:Esz; [discriminate|].
  destruct ((cluster <? 0) || (4086 <=? cluster)) eqn:Ecl; [discriminate|].
  unfold bytearray_of in H1.
  destruct (forallb is_byte [a; 0; 0; 0; 0; 0; 0; 0; 0; 0; 0]) eqn:Ea;
    [|discriminate].
  cbn [rbind] in H1.
  destruct (packed_datetime_fields m Hy) as (t & t' & T1 & T2 & T3 & T4).
  rewrite T1 in H1. cbn [rbind] in H1.
  destruct sp as [c|]; [|cbn [rbind] in H1; discriminate H1].
  cbn [rbind] in H1. inversion H1. subst entry. clear H1.
  destruct (struct_pack_cluster_size _ _ _ Ec)
    as (c0 & c1 & s0 & s1 & s2 & s3 & -> & U1 & U2).
  pose proof (ljust_length f' 8 L1) as Lf.
  pose proof (ljust_length e' 3 L2) as Le.
  change (Z.to_nat 8) with 8%nat in Lf. change (Z.to_nat 3) with 3%nat in Le.
  destruct (ljust f' 8) as [|n0 nrest] eqn:En; [discriminate Lf|].
  destruct (stored_name_first fn f e f' n0 nrest Hfn (eq_sym Esplit) Ef L1 En)
    as [N1 N2].
  cbn [List.length] in Lf. apply eq_add_S in Lf.
  explode nrest Lf.
  set (ext := ljust e' 3) in *. explode ext Le.
  explode t T2.
  split; [reflexivity|].
  unfold _parsedirentry.
  match goal with
  | |- context [index ?l 0] => change (index l 0) with (Ok n0)
  end.
  cbn [rbind].
  apply Z.eqb_neq in N1. apply Z.eqb_neq in N2. rewrite N1, N2.
  match goal with
  | |- context [slice_to ?l 11] =>
      let v := eval cbv in (slice_to l 11) in change (slice_to l 11) with v
  end.
  match goal with
  | |- context [_efn_to_cfn (?x :: ?l)] =>
      destruct (_efn_to_cfn_total x l) as (fn' & ->)
  end.
  cbn [rbind].
  match goal with
  | |- context [index ?l 11] => change (index l 11) with (Ok a)
  end.
  cbn [rbind].
  match goal with
  | |- context [slice ?l 22 26] =>
      let v := eval cbv in (slice l 22 26) in change (slice l 22 26) with v
  end.
  rewrite T3. cbn [rbind].
  match goal with
  | |- context [slice ?l 26 28] => change (slice l 26 28) with [c0; c1]
  end.
  rewrite U1. cbn [rbind].
  match goal with
  | |- context [slice ?l 28 32] => change (slice l 28 32) with [s0; s1; s2; s3]
  end.
  rewrite U2. cbn [rbind].
  exists fn', t'. split; [reflexivity|exact T4].
Qed.



(** ** Allocation of a cluster *)

Lemma index_Ok_in {A} (l : list A) (j : Z) :
  0 <= j < Zlength l -> exists x, index l j = Ok x.
Proof. intros H. apply index_in_range. lia. Qed.

Lemma index_set_total {A} (l : list A) (i : Z) (v x : A) :
  0 <= i -> index l i = Ok x -> exists l', index_set l i v = Ok l'.
Proof.
  intros Hi. unfold index, index_set.
  destruct (i <? 0) eqn:E; [lia|]. rewrite E.
  destruct (nth_error l (Z.to_nat i)) eqn:En; [|discriminate]. intros _.
  destruct (skipn (Z.to_nat i) l) as [|y r] eqn:Es.
  - exfalso. pose proof (length_skipn (Z.to_nat i) l) as L.
    rewrite Es in L. cbn [List.length] in L.
    assert (Hn : nth_error l (Z.to_nat i) = None)
      by (apply nth_error_None; lia).
    rewrite Hn in En. discriminate En.
  - eexists. reflexivity.
Qed.

Lemma _alloccluster_loop_spec (fat : list Z) (k : nat) (a : Z) :
  0 <= a -> a + Z.of_nat k <= Zlength fat ->
  match _alloccluster_loop fat (range_from a 1 k) with
  | Ok (Some i) =>
      a <= i < a + Z.of_nat k /\ index fat i = Ok 0 /\
      forall j, a <= j < i -> in_use fat j
  | Ok None => forall j, a <= j < a + Z.of_nat k -> in_use fat j
  | Raise _ => False
  end.
Proof.
  revert a. induction k as [|k IH]; intros a Ha Hk.
  - cbn. intros j Hj. lia.
  - cbn [range_from _alloccluster_loop].
    destruct (index_Ok_in fat a ltac:(lia)) as (x & Ex). rewrite Ex.
    cbn [rbind]. destruct (x =? 0) eqn:E0.
    + apply Z.eqb_eq in E0. subst x. split; [lia|]. split; [exact Ex|].
      intros j Hj. lia.
    + apply Z.eqb_neq in E0. specialize (IH (a + 1) ltac:(lia) ltac:(lia)).
      destruct (_alloccluster_loop fat (range_from (a + 1) 1 k)) as [[i|]|e].
      * destruct IH as (I1 & I2 & I3). split; [lia|]. split; [exact I2|].
        intros j Hj. destruct (Z.eq_dec j a) as [->|Hn].
        -- exists x. split; assumption.
        -- apply I3. lia.
      * intros j Hj. destruct (Z.eq_dec j a) as [->|Hn].
        -- exists x. split; assumption.
        -- apply IH. lia.
      * exact IH.
Qed.

Lemma _alloccluster_scan (fat : list Z) :
  match _alloccluster_loop fat (range 2 (Zlength fat) 1) with
  | Ok (Some i) =>
      2 <= i < Zlength fat /\ index fat i = Ok 0 /\
      forall j, 2 <= j < i -> in_use fat j
  | Ok None => forall j, 2 <= j < Zlength fat -> in_use fat j
  | Raise _ => False
  end.
Proof.
  unfold range.
  replace (Zlength fat - 2 + 1 - 1) with (Zlength fat - 2) by ring.
  rewrite Z.div_1_r.
  destruct (Z_le_gt_dec 2 (Zlength fat)) as [L|L].
  - pose proof (_alloccluster_loop_spec fat (Z.to_nat (Zlength fat - 2)) 2
                  ltac:(lia) ltac:(lia)) as H.
    destruct (_alloccluster_loop fat _) as [[i|]|e]; [| |exact H].
    + destruct H as (H1 & H2 & H3). split; [lia|]. split; assumption.
    + intros j Hj. apply H. lia.
  - replace (Z.to_nat (Zlength fat - 2)) with O by lia. cbn. intros j Hj. lia.
Qed.

(** X14.  A cluster allocated for a new chain is the first free one: the
    call returns the lowest index from 2 on whose FAT entry is zero (the
    entries 0 and 1 are never given out), sets that entry to 0xFFF and
    leaves every other entry, and the image, as they are. *)
Theorem _alloccluster_first_fit (i : Z) (st st' : FAT12) :
  _alloccluster None st = (Ok i, st') ->
  2 <= i < Zlength (_fat st) /\ index (_fat st) i = Ok 0 /\
  (forall j, 2 <= j < i -> in_use (_fat st) j) /\
  exists fat', st' = set_fat st fat' /\
    Zlength fat' = Zlength (_fat st) /\
    index fat' i = Ok 0xFFF /\
    forall j, 0 <= j -> j <> i -> index fat' j = index (_fat st) j.
Proof.
  intros H. unfold _alloccluster in H.
  apply bind_Ok in H. destruct H as (u & st1 & Ha & H).
  apply ret_Ok in Ha. destruct Ha as [_ ->].
  apply bind_Ok in H. destruct H as (fat & st1 & Hg & H).
  apply gets_Ok in Hg. destruct Hg as [-> ->].
  apply bind_Ok in H. destruct H as (found & st1 & Hl & H).
  apply lift_Ok in Hl. destruct Hl as [Hl ->].
  pose proof (_alloccluster_scan (_fat st)) as Hs. rewrite Hl in Hs.
  destruct found as [i'|]; [|discriminate H].
  destruct Hs as (S1 & S2 & S3).
  apply bind_Ok in H. destruct H as ([] & st1 & Hf & H).
  assert (Hi : 0 <= i') by lia.
  destruct (fat_set_Ok _ _ _ _ Hi Hf) as (fat' & -> & F1 & F2 & F3 & F4).
  apply bind_Ok in H. destruct H as (u' & st2 & Hr & H).
  apply ret_Ok in Hr. destruct Hr as [_ ->].
  apply ret_Ok in H. destruct H as [<- ->].
  split; [exact S1|]. split; [exact S2|]. split; [exact S3|].
  exists fat'. repeat split; assumption.
Qed.

Lemma _alloccluster_first_fit_witness :
  2 <= 4 < Zlength (_fat (with_fat [0xFF0; 0xFFF; 3; 0xFFF; 0; 0])) /\
  index (_fat (with_fat [0xFF0; 0xFFF; 3; 0xFFF; 0; 0])) 4 = Ok 0 /\
  (forall j, 2 <= j < 4 ->
             in_use (_fat (with_fat [0xFF0; 0xFFF; 3; 0xFFF; 0; 0])) j) /\
  exists fat',
    with_fat [0xFF0; 0xFFF; 3; 0xFFF; 0xFFF; 0]
    = set_fat (with_fat [0xFF0; 0xFFF; 3; 0xFFF; 0; 0]) fat' /\
    Zlength fat' = Zlength (_fat (with_fat [0xFF0; 0xFFF; 3; 0xFFF; 0; 0])) /\
    index fat' 4 = Ok 0xFFF /\
    forall j, 0 <= j -> j <> 4 ->
      index fat' j = index (_fat (with_fat [0xFF0; 0xFFF; 3; 0xFFF; 0; 0])) j.
Proof.
  apply (_alloccluster_first_fit 4 (with_fat [0xFF0; 0xFFF; 3; 0xFFF; 0; 0])
           (with_fat [0xFF0; 0xFFF; 3; 0xFFF; 0xFFF; 0])).
  reflexivity.
Defined.

(** X15.  When no FAT entry from index 2 on is zero the call raises
    [IOError("floppy is full")] and leaves the object as it is; with such
    an entry it returns.  Free entries at the indices 0 and 1 do not
    count. *)
Theorem _alloccluster_full (st : FAT12) :
  (forall j, 2 <= j < Zlength (_fat st) -> in_use (_fat st) j) <->
  _alloccluster None st = (Raise (IOError "floppy is full"), st).
Proof.
  unfold _alloccluster, bind, ret, gets, lift.
  pose proof (_alloccluster_scan (_fat st)) as Hs.
  destruct (_alloccluster_loop (_fat st) _) as [[i|]|e]; [| |destruct Hs].
  - destruct Hs as (S1 & S2 & S3). split.
    + intros H. exfalso. destruct (H i S1) as (x & Hx & Hn).
      rewrite S2 in Hx. injection Hx as <-. apply Hn. reflexivity.
    + intros H. exfalso. unfold fat_set in H.
      destruct (index_set_total (_fat st) i 4095 0 ltac:(lia) S2) as (l' & El).
      rewrite El in H. discriminate H.
  - split; [reflexivity|]. intros _. exact Hs.
Qed.

(** ** Paths and queries *)

#[local] Hint Resolve readonly_ret readonly_raise readonly_lift readonly_gets
  readonly_assert readonly_image_read_sectors readonly_fat_get
  readonly_makedirentry readonly_readcluster readonly_read_rootdir
  readonly_readdirentry readonly_parse_slot readonly_resolvefile_chain
  readonly_resolvefile readonly_resolvepath_loop readonly_resolvepath : ro.

Lemma readonly_readfile_loop (idx : list Z) (sz c : Z) (d : bytes) :
  readonly (_readfile_loop idx sz c d).
Proof.
  revert c d. induction idx as [|i idx IH]; intros c d; cbn [_readfile_loop].
  - ro.
  - ro; apply IH.
Qed.

Lemma readonly_readfile (c o : Z) : readonly (_readfile c o).
Proof.
  unfold _readfile. ro; apply readonly_readfile_loop.
Qed.

(** X16.  The queries that go through [_resolvepath] only read: whatever
    they return or raise, [exists], [isfile], [stat], [read_file] and
    [issamefile] leave the object, image included, as it was. *)
Theorem queries_read_only (p q : str) (st : FAT12) :
  snd (exists_ p st) = st /\ snd (isfile p st) = st /\
  snd (stat p st) = st /\ snd (read_file p st) = st /\
  snd (issamefile p q st) = st.
Proof.
  repeat split.
  - revert st. change (readonly (exists_ p)). unfold exists_. ro.
  - revert st. change (readonly (isfile p)). unfold isfile. ro.
  - revert st. change (readonly (stat p)). unfold stat. ro.
  - revert st. change (readonly (read_file p)). unfold read_file. ro;
      apply readonly_readfile.
  - revert st. change (readonly (issamefile p q)). unfold issamefile. ro.
Qed.

(** *** The components of a path *)

Lemma break_at_none (c : Z) (s : str) : ~ In c s -> break_at c s = None.
Proof.
  induction s as [|x s IH]; intros H; [reflexivity|].
  cbn [break_at]. destruct (x =? c) eqn:E.
  - apply Z.eqb_eq in E. exfalso. apply H. left. exact E.
  - rewrite IH by (intros Hin; apply H; right; exact Hin). reflexivity.
Qed.

Lemma break_at_app (c : Z) (h t : str) :
  ~ In c h -> break_at c (h ++ c :: t) = Some (h, t).
Proof.
  induction h as [|x h IH]; intros H; cbn [app break_at].
  - rewrite Z.eqb_refl. reflexivity.
  - destruct (x =? c) eqn:E.
    + apply Z.eqb_eq in E. exfalso. apply H. left. exact E.
    + rewrite IH by (intros Hin; apply H; right; exact Hin). reflexivity.
Qed.

Lemma replace_backslash_app (a b : str) :
  replace_backslash (a ++ b) = replace_backslash a ++ replace_backslash b.
Proof. apply map_app. Qed.

Lemma _splitpath_name (name : str) :
  ~ In 47 name -> ~ In 92 name -> _splitpath name = (name, []).
Proof.
  intros H1 H2. unfold _splitpath. rewrite replace_backslash_id by exact H2.
  rewrite break_at_none by exact H1. reflexivity.
Qed.

Lemma _splitpath_components (d rest : str) :
  ~ In 47 d -> ~ In 92 d -> ~ In 92 rest ->
  _splitpath (d ++ 47 :: rest) = (d, rest).
Proof.
  intros H1 H2 H3. unfold _splitpath.
  rewrite replace_backslash_app, (replace_backslash_id d H2).
  change (replace_backslash (47 :: rest)) with (47 :: replace_backslash rest).
  rewrite (replace_backslash_id rest H3).
  rewrite break_at_app by exact H1. reflexivity.
Qed.

(** X17.  [chdir] with a path that is one separator, ["/"] or a backslash,
    returns without changing the current directory: the walk of
    [_resolvedir] stops at the empty component before it has reset the
    directory.  Two separators do go to the root directory. *)
Theorem chdir_separator (c : Z) (st : FAT12) :
  is_separator c = true ->
  chdir [c] st = (Ok tt, st) /\
  chdir [c; c] st = (Ok tt, set_dirparents (set_dircluster st 1) []).
Proof.
  intros Hc.
  assert (E1 : _splitpath [c] = ([], [])).
  { rewrite (_splitpath_separator c []); [reflexivity|].
    cbn [forallb]. rewrite Hc. reflexivity. }
  assert (E2 : _splitpath [c; c] = ([], [47])).
  { rewrite (_splitpath_separator c [c]); [reflexivity|].
    cbn [forallb]. rewrite Hc. reflexivity. }
  assert (E3 : _splitpath [47] = ([], [])) by reflexivity.
  split.
  - unfold chdir, _resolvedir, path_fuel, bind, gets.
    cbn [List.length _resolvedir_loop nonempty negb]. rewrite E1.
    cbn [nonempty negb andb ret parents_get modify gets].
    unfold modify. destruct st. reflexivity.
  - unfold chdir, _resolvedir, path_fuel, bind, gets.
    cbn [List.length _resolvedir_loop nonempty negb]. rewrite E2.
    cbn [nonempty negb andb]. rewrite E3. reflexivity.
Qed.

Lemma chdir_separator_witness :
  chdir [47] (volume tiny_sub) = (Ok tt, volume tiny_sub) /\
  chdir [47; 47] (volume tiny_sub)
  = (Ok tt, set_dirparents (set_dircluster (volume tiny_sub) 1) []).
Proof. apply (chdir_separator 47 (volume tiny_sub)). reflexivity. Defined.

(** X18.  [isdir] is not a pure query.  The list [_resolvedir] appends to
    is the list of parents of the current directory itself, so when the
    path is the name of a subdirectory of the current directory, [isdir]
    returns [True] and leaves the current cluster appended to
    [_dirparents]. *)
Theorem isdir_appends_parent (name : str) (st : FAT12) (oc off : Z)
  (raw : bytes) (fn : str) (a : Z) (m : datetime) (cl sz : Z) :
  name <> [] -> ~ In 47 name -> ~ In 92 name ->
  fst (_resolvefile name (_dircluster st) 0 st) = Ok (Some (oc, off)) ->
  fst (_readdirentry oc off st) = Ok raw ->
  _parsedirentry raw = Ok (Entry fn a m cl sz) ->
  Z.land a 0x10 <> 0 -> cl <> 0 ->
  isdir name st
  = (Ok true, set_dirparents st (_dirparents st ++ [_dircluster st])).
Proof.
  intros Hne H1 H2 Hr Hd Hp Ha Hcl.
  unfold isdir, _resolvedir, path_fuel.
  unfold bind at 1. unfold bind at 1. unfold gets at 1.
  cbn [_resolvedir_loop].
  destruct name as [|x name]; [destruct (Hne eq_refl)|].
  cbn [nonempty negb]. rewrite (_splitpath_name _ H1 H2).
  cbn [nonempty negb andb].
  rewrite bind_readonly by apply readonly_resolvefile. rewrite Hr.
  rewrite bind_readonly by apply readonly_readdirentry. rewrite Hd.
  unfold bind at 1. unfold lift at 1. rewrite Hp.
  unfold bind at 1. unfold parents_append, parents_get, parents_put.
  unfold bind at 1. unfold gets at 1. unfold bind at 1. unfold bind at 1.
  unfold modify at 1. unfold ret at 1.
  apply Z.eqb_neq in Ha, Hcl. rewrite Ha, Hcl.
  cbn [List.length _resolvedir_loop nonempty negb ret]. reflexivity.
Qed.

Lemma isdir_appends_parent_witness :
  isdir (py "SUB") (volume tiny_sub)
  = (Ok true,
     set_dirparents (volume tiny_sub)
       (_dirparents (volume tiny_sub) ++ [_dircluster (volume tiny_sub)])).
Proof.
  apply (isdir_appends_parent (py "SUB") (volume tiny_sub) 1 0
           (py "SUB        " ++ [0x10; 0; 0; 0; 0; 0; 0; 0; 0; 0; 0;
                                 214; 83; 177; 88; 2; 0; 0; 0; 0; 0])
           (py "SUB") 0x10 (mk_datetime 2024 5 17 10 30 44 eq_refl) 2 0);
    try discriminate;
    try (vm_compute; reflexivity);
    vm_compute; intuition discriminate.
Defined.

(** X19.  [_resolvepath] looks every component up in the directory the walk
    started in: it checks that a leading component names a directory but
    does not descend into it.  So a relative path [d/f], with [d] a
    subdirectory of the current directory, resolves to the entry [f] of
    the current directory itself. *)
Theorem _resolvepath_does_not_descend (d f : str) (st : FAT12)
  (oc off : Z) (raw : bytes) (fn : str) (a : Z) (m : datetime) (cl sz : Z)
  (oc' off' : Z) :
  d <> [] -> ~ In 47 d -> ~ In 92 d ->
  f <> [] -> ~ In 47 f -> ~ In 92 f ->
  fst (_resolvefile d (_dircluster st) 0 st) = Ok (Some (oc, off)) ->
  fst (_readdirentry oc off st) = Ok raw ->
  _parsedirentry raw = Ok (Entry fn a m cl sz) ->
  Z.land a 0x10 <> 0 ->
  fst (_resolvefile f (_dircluster st) 0 st) = Ok (Some (oc', off')) ->
  _resolvepath (d ++ [47] ++ f) false st
  = (Ok (Some (_dircluster st, oc', off')), st).
Proof.
  intros Hd0 Hd1 Hd2 Hf0 Hf1 Hf2 Hr Hd Hp Ha Hr'.
  unfold _resolvepath, path_fuel.
  unfold bind at 1. unfold gets at 1.
  rewrite length_app. cbn [app List.length].
  rewrite Nat.add_succ_r. cbn [_resolvepath_loop].
  destruct d as [|x d]; [destruct (Hd0 eq_refl)|].
  destruct f as [|y f]; [destruct (Hf0 eq_refl)|].
  change ((x :: d) ++ 47 :: y :: f) with ((x :: d) ++ 47 :: (y :: f)).
  cbn [app nonempty negb].
  change (x :: d ++ 47 :: y :: f) with ((x :: d) ++ 47 :: y :: f).
  rewrite (_splitpath_components _ _ Hd1 Hd2 Hf2).
  cbn [nonempty negb andb].
  rewrite bind_readonly by apply readonly_resolvefile. rewrite Hr.
  rewrite bind_readonly by apply readonly_readdirentry. rewrite Hd.
  unfold bind at 1. unfold lift at 1. rewrite Hp.
  apply Z.eqb_neq in Ha. rewrite Ha.
  cbn [List.length Nat.add _resolvepath_loop nonempty negb].
  rewrite (_splitpath_name _ Hf1 Hf2). cbn [nonempty negb andb].
  rewrite bind_readonly by apply readonly_resolvefile. rewrite Hr'.
  reflexivity.
Qed.

Lemma _resolvepath_does_not_descend_witness :
  _resolvepath (py "SUB" ++ [47] ++ py "A.TXT") false (volume tiny_sub_a)
  = (Ok (Some (_dircluster (volume tiny_sub_a), 1, 32)), volume tiny_sub_a).
Proof.
  apply (_resolvepath_does_not_descend (py "SUB") (py "A.TXT")
           (volume tiny_sub_a) 1 0
           (py "SUB        " ++ [0x10; 0; 0; 0; 0; 0; 0; 0; 0; 0; 0;
                                 214; 83; 177; 88; 2; 0; 0; 0; 0; 0])
           (py "SUB") 0x10 (mk_datetime 2024 5 17 10 30 44 eq_refl) 2 0 1 32);
    try discriminate;
    try (vm_compute; reflexivity);
    vm_compute; intuition discriminate.
Defined.

(** ** Guards, listings and the loop that frees a chain *)

(** X20.  A path that names a directory is refused by the three calls that
    work on the contents of a file: [read_file], [write_file] and
    [delete_file] raise [ValueError], whatever the other arguments, and
    the object is left as it was. *)
Theorem directory_is_refused (p : str) (b : bytes) (ro : bool) (st : FAT12)
  (c fc fo : Z) (fn : str) (a : Z) (m : datetime) (cl sz : Z) :
  fst (_resolvepath p false st) = Ok (Some (c, fc, fo)) ->
  fst (parse_slot fc fo st) = Ok (fn, a, m, cl, sz) ->
  Z.land a 0x10 <> 0 ->
  read_file p st = (Raise (ValueError "cannot read a directory"), st) /\
  write_file p b ro st = (Raise (ValueError "cannot write to a directory"), st) /\
  delete_file p ro st
  = (Raise (ValueError "cannot delete a directory with delete_file"), st).
Proof.
  intros Hr Hp Ha. apply Z.eqb_neq in Ha.
  repeat split.
  - unfold read_file. rewrite bind_readonly by apply readonly_resolvepath.
    rewrite Hr. unfold _readfile. unfold bind at 1. unfold gets at 1.
    rewrite bind_readonly by apply readonly_parse_slot. rewrite Hp.
    cbv zeta. rewrite Ha. reflexivity.
  - unfold write_file. rewrite bind_readonly by apply readonly_resolvepath.
    rewrite Hr. unfold bind at 1. unfold ret at 1.
    unfold _writefile. unfold bind at 1. unfold gets at 1.
    rewrite bind_readonly by apply readonly_parse_slot. rewrite Hp.
    cbv zeta. rewrite Ha. reflexivity.
  - unfold delete_file. rewrite bind_readonly by apply readonly_resolvepath.
    rewrite Hr.
    rewrite bind_readonly by apply readonly_parse_slot. rewrite Hp.
    cbv zeta. rewrite Ha. reflexivity.
Qed.

Lemma directory_is_refused_witness :
  read_file (py "/SUB") (volume tiny_sub)
  = (Raise (ValueError "cannot read a directory"), volume tiny_sub) /\
  write_file (py "/SUB") (py "x") true (volume tiny_sub)
  = (Raise (ValueError "cannot write to a directory"), volume tiny_sub) /\
  delete_file (py "/SUB") true (volume tiny_sub)
  = (Raise (ValueError "cannot delete a directory with delete_file"),
     volume tiny_sub).
Proof.
  apply (directory_is_refused (py "/SUB") (py "x") true (volume tiny_sub)
           1 1 0 (py "SUB") 0x10 (mk_datetime 2024 5 17 10 30 44 eq_refl) 2 0);
    try (vm_compute; reflexivity).
  vm_compute. discriminate.
Defined.

(** X21.  A file with the read-only attribute is neither written nor
    deleted unless [ignore_readonly] is given: both calls raise
    [ValueError("file is read-only")] before anything is changed. *)
Theorem read_only_is_refused (p : str) (b : bytes) (st : FAT12)
  (c fc fo : Z) (fn : str) (a : Z) (m : datetime) (cl sz : Z) :
  fst (_resolvepath p false st) = Ok (Some (c, fc, fo)) ->
  fst (parse_slot fc fo st) = Ok (fn, a, m, cl, sz) ->
  Z.land a 0x10 = 0 -> Z.land a 1 = 1 ->
  write_file p b false st = (Raise (ValueError "file is read-only"), st) /\
  delete_file p false st = (Raise (ValueError "file is read-only"), st).
Proof.
  intros Hr Hp Ha H1. apply Z.eqb_eq in Ha, H1.
  split.
  - unfold write_file. rewrite bind_readonly by apply readonly_resolvepath.
    rewrite Hr. unfold bind at 1. unfold ret at 1.
    unfold _writefile. unfold bind at 1. unfold gets at 1.
    rewrite bind_readonly by apply readonly_parse_slot. rewrite Hp.
    cbv zeta. rewrite Ha, H1. reflexivity.
  - unfold delete_file. rewrite bind_readonly by apply readonly_resolvepath.
    rewrite Hr.
    rewrite bind_readonly by apply readonly_parse_slot. rewrite Hp.
    cbv zeta. rewrite Ha, H1. reflexivity.
Qed.

Lemma read_only_is_refused_witness :
  write_file (py "/A.TXT") (py "y") false (volume tiny_a_readonly)
  = (Raise (ValueError "file is read-only"), volume tiny_a_readonly) /\
  delete_file (py "/A.TXT") false (volume tiny_a_readonly)
  = (Raise (ValueError "file is read-only"), volume tiny_a_readonly).
Proof.
  apply (read_only_is_refused (py "/A.TXT") (py "y") (volume tiny_a_readonly)
           1 1 0 (py "A.TXT") 0x01 (mk_datetime 2024 5 17 10 30 44 eq_refl)
           2 1);
    vm_compute; reflexivity.
Defined.

(** *** Listings *)

Lemma Forall_flat_map {A B} (P : B -> Prop) (f : A -> list B) (l : list A) :
  (forall x, In x l -> Forall P (f x)) -> Forall P (flat_map f l).
Proof.
  induction l as [|x l IH]; intros H; cbn [flat_map]; [constructor|].
  apply Forall_app. split.
  - apply H. left. reflexivity.
  - apply IH. intros y Hy. apply H. right. exact Hy.
Qed.

(** X22.  What the two listings yield.  [listfiles] yields entries that
    are not directories, and without [hidden] only those that are not
    hidden.  [listdirs] yields directories, with no date and no size; but
    its test of the hidden attribute is the other way round, so without
    [hidden] it yields only the directories that are hidden. *)
Theorem listings_filter (path : str) (hidden : bool) (st : FAT12) :
  (forall items st', listfiles path hidden st = (Ok items, st') ->
     Forall (fun i => Z.land (attributes i) 0x10 = 0 /\
                      (hidden = false -> Z.land (attributes i) 2 = 0)) items) /\
  (forall items st', listdirs path hidden st = (Ok items, st') ->
     Forall (fun i => Z.land (attributes i) 0x10 <> 0 /\
                      (hidden = false -> Z.land (attributes i) 2 <> 0) /\
                      date i = None /\ size i = None) items).
Proof.
  split; intros items st' H.
  - unfold listfiles in H.
    apply bind_Ok in H. destruct H as (r & st1 & _ & H).
    destruct r as [[cluster parents]|]; [|discriminate H].
    apply bind_Ok in H. destruct H as (g & st2 & _ & H).
    apply bind_Ok in H. destruct H as (l & st3 & _ & H).
    apply ret_Ok in H. destruct H as [-> _].
    apply Forall_flat_map. intros [[[[fn a] m] cl] sz] _.
    destruct (Z.land a 16 =? 0) eqn:E1; cbn [andb]; [|constructor].
    destruct hidden; cbn [orb].
    + constructor; [|constructor]. cbn [attributes].
      apply Z.eqb_eq in E1. split; [exact E1|discriminate].
    + destruct (Z.land a 2 =? 0) eqn:E2; [|constructor].
      constructor; [|constructor]. cbn [attributes].
      apply Z.eqb_eq in E1, E2. split; [exact E1|intros _; exact E2].
  - unfold listdirs in H.
    apply bind_Ok in H. destruct H as (r & st1 & _ & H).
    destruct r as [[cluster parents]|]; [|discriminate H].
    apply bind_Ok in H. destruct H as (g & st2 & _ & H).
    apply bind_Ok in H. destruct H as (l & st3 & _ & H).
    apply ret_Ok in H. destruct H as [-> _].
    apply Forall_flat_map. intros [[[[fn a] m] cl] sz] _.
    destruct (Z.land a 16 =? 0) eqn:E1; cbn [negb andb]; [constructor|].
    destruct hidden; cbn [orb].
    + constructor; [|constructor]. cbn [attributes date size].
      apply Z.eqb_neq in E1. repeat split; [exact E1|discriminate].
    + destruct (Z.land a 2 =? 0) eqn:E2; cbn [negb]; [constructor|].
      constructor; [|constructor]. cbn [attributes date size].
      apply Z.eqb_neq in E1, E2. repeat split; [exact E1|intros _; exact E2].
Qed.

(** *** The loop of [delete_file] that frees the clusters of the file *)

Lemma chain_same_entries (fat fat' : list Z) (c : Z) (xs : list Z) :
  chain fat c xs ->
  (forall x, In x xs -> index fat' x = index fat x) ->
  chain fat' c xs.
Proof.
  intros H. induction H as [c e H1 H2|c y xs H1 H2 H3 IH]; intros Hs.
  - apply chain_end with e; [|exact H2].
    rewrite Hs by (left; reflexivity). exact H1.
  - apply chain_step with y; [|exact H2|].
    + rewrite Hs by (left; reflexivity). exact H1.
    + apply IH. intros x Hx. apply Hs. right. exact Hx.
Qed.

Lemma free_chain_spec (xs : list Z) :
  forall (c : Z) (st : FAT12) (fuel : nat),
    chain (_fat st) c xs ->
    Forall (fun x => _isvalidcluster x = true) xs ->
    (List.length xs < fuel)%nat ->
    exists e fat',
      free_chain fuel c st = (Ok e, set_fat st fat') /\
      _cluster_is_end_of_chain e = true /\
      Zlength fat' = Zlength (_fat st) /\
      (forall x, In x xs -> index fat' x = Ok 0) /\
      (forall j, 0 <= j -> ~ In j xs -> index fat' j = index (_fat st) j).
Proof.
  induction xs as [|x xs IH]; intros c st fuel Hc Hv Hf.
  - inversion Hc.
  - pose proof (chain_NoDup _ _ _ Hc) as Hnd.
    apply NoDup_cons_iff in Hnd. destruct Hnd as [Hnin Hnd].
    apply Forall_cons_iff in Hv. destruct Hv as [Hvc Hv].
    destruct fuel as [|fuel]; [cbn in Hf; lia|].
    cbn [List.length] in Hf.
    assert (Ecx : x = c) by (inversion Hc; reflexivity). subst x.
    pose proof (proj1 (valid_range c) Hvc) as Hrange.
    assert (Hc0 : 0 <= c) by lia.
    cbn [free_chain]. rewrite Hvc.
    inversion Hc as [c0 e H1 H2 Ec Ex|c0 y xs0 H1 H2 H3 Ec Ex].
    + subst xs.
      destruct (index_set_total (_fat st) c 0 e ltac:(lia) H1) as (fat1 & E1).
      destruct (index_set_spec _ _ _ _ Hc0 E1) as (L1 & _ & I1 & O1).
      unfold bind at 1. unfold fat_get at 1. rewrite H1.
      unfold bind at 1. unfold fat_set at 1. rewrite E1.
      destruct fuel as [|fuel]; [lia|].
      cbn [free_chain]. rewrite (eoc_not_valid _ H2).
      exists e, fat1. split; [reflexivity|]. split; [exact H2|].
      split; [exact L1|]. split.
      * intros x [<-|[]]. exact I1.
      * intros j Hj Hn. apply O1; [exact Hj|].
        intros ->. apply Hn. left. reflexivity.
    + subst xs0. subst c0.
      destruct (index_set_total (_fat st) c 0 y ltac:(lia) H1) as (fat1 & E1).
      destruct (index_set_spec _ _ _ _ Hc0 E1) as (L1 & _ & I1 & O1).
      unfold bind at 1. unfold fat_get at 1. rewrite H1.
      unfold bind at 1. unfold fat_set at 1. rewrite E1.
      assert (Hc1 : chain (_fat (set_fat st fat1)) y xs).
      { apply chain_same_entries with (_fat st); [exact H3|].
        intros z Hz. cbn [_fat set_fat]. apply O1.
        - rewrite Forall_forall in Hv.
          pose proof (proj1 (valid_range z) (Hv z Hz)). lia.
        - intros ->. apply Hnin. exact Hz. }
      destruct (IH y (set_fat st fat1) fuel Hc1 Hv ltac:(lia))
        as (e & fat' & F1 & F2 & F3 & F4 & F5).
      exists e, fat'. split; [exact F1|]. split; [exact F2|].
      cbn [_fat set_fat] in F3, F5.
      split; [lia|]. split.
      * intros z [<-|Hz]; [|apply F4; exact Hz].
        rewrite F5; [exact I1|lia|exact Hnin].
      * intros j Hj Hn. rewrite F5; [|exact Hj|].
        -- apply O1; [exact Hj|]. intros ->. apply Hn. left. reflexivity.
        -- intros Hin. apply Hn. right. exact Hin.
Qed.

(** X23.  The loop of [delete_file] frees the whole chain of the file: on
    a chain of valid clusters that ends in an end-of-chain mark, it
    returns that mark, has set the FAT entry of every cluster of the chain
    to zero, and has changed no other entry and nothing but the FAT. *)
Theorem free_chain_frees (c : Z) (xs : list Z) (st : FAT12) :
  chain (_fat st) c xs ->
  Forall (fun x => _isvalidcluster x = true) xs ->
  exists e fat',
    free_chain (chain_fuel st) c st = (Ok e, set_fat st fat') /\
    _cluster_is_end_of_chain e = true /\
    Zlength fat' = Zlength (_fat st) /\
    (forall x, In x xs -> index fat' x = Ok 0) /\
    (forall j, 0 <= j -> ~ In j xs -> index fat' j = index (_fat st) j).
Proof.
  intros Hc Hv. apply free_chain_spec; [exact Hc|exact Hv|].
  pose proof (chain_length _ _ _ Hc). unfold chain_fuel. lia.
Qed.

Lemma free_chain_frees_witness :
  exists e fat',
    free_chain (chain_fuel (with_fat [0xFF0; 0xFFF; 4; 0xFFF; 3; 7]))
      2 (with_fat [0xFF0; 0xFFF; 4; 0xFFF; 3; 7])
    = (Ok e, set_fat (with_fat [0xFF0; 0xFFF; 4; 0xFFF; 3; 7]) fat') /\
    _cluster_is_end_of_chain e = true /\
    Zlength fat' = Zlength (_fat (with_fat [0xFF0; 0xFFF; 4; 0xFFF; 3; 7])) /\
    (forall x, In x [2; 4; 3] -> index fat' x = Ok 0) /\
    (forall j, 0 <= j -> ~ In j [2; 4; 3] ->
       index fat' j = index (_fat (with_fat [0xFF0; 0xFFF; 4; 0xFFF; 3; 7])) j).
Proof.
  apply (free_chain_frees 2 [2; 4; 3] (with_fat [0xFF0; 0xFFF; 4; 0xFFF; 3; 7])).
  - apply chain_step with 4; [reflexivity|reflexivity|].
    apply chain_step with 3; [reflexivity|reflexivity|].
    apply chain_end with 0xFFF; reflexivity.
  - repeat constructor.
Defined.

(** *** [commit] *)

(** X24.  On a well-formed volume [commit] writes the boot sector and the
    FAT copies and nothing else: the image does not shrink, every byte
    from the first sector of the root directory on is as before, and the
    FAT in memory and the geometry are unchanged. *)
Theorem commit_writes_before_root_directory (st st' : FAT12) :
  wf_volume st = true ->
  commit st = (Ok tt, st') ->
  _fat st' = _fat st /\ params st' = params st /\
  _root_dir_sector st' = _root_dir_sector st /\
  Zlength (image_data st) <= Zlength (image_data st') /\
  forall i j, _root_dir_sector st * 512 <= i -> i <= j ->
              j <= Zlength (image_data st) ->
              slice (image_data st') i j = slice (image_data st) i j.
Proof.
  intros Hwf H. destruct (commit_frame _ _ Hwf H) as (L & F & Hlen & Hfr).
  unfold layout in L. injection L as L1 L2 _ _ _.
  repeat split; assumption.
Qed.

Lemma commit_writes_before_root_directory_witness :
  _fat (snd (commit (volume tiny))) = _fat (volume tiny) /\
  params (snd (commit (volume tiny))) = params (volume tiny) /\
  _root_dir_sector (snd (commit (volume tiny)))
  = _root_dir_sector (volume tiny) /\
  Zlength (image_data (volume tiny))
  <= Zlength (image_data (snd (commit (volume tiny)))) /\
  forall i j, _root_dir_sector (volume tiny) * 512 <= i -> i <= j ->
              j <= Zlength (image_data (volume tiny)) ->
              slice (image_data (snd (commit (volume tiny)))) i j
              = slice (image_data (volume tiny)) i j.
Proof.
  apply (commit_writes_before_root_directory (volume tiny)
           (snd (commit (volume tiny)))).
  - vm_compute. reflexivity.
  - vm_compute. reflexivity.
Defined.

(** ** [set_attributes] *)

Lemma datetime_new_Ok (y mo d h mi s : Z) (t : datetime) :
  datetime_new y mo d h mi s = Ok t -> datetime_tuple t = (y, mo, d, h, mi, s).
Proof.
  unfold datetime_new. destruct (bool_dec _ true) as [H|H]; [|discriminate].
  intros E. injection E as <-. reflexivity.
Qed.

Lemma _edt_to_pdt_range (e : bytes) (t : datetime) :
  _edt_to_pdt e = Ok t ->
  1980 <= year t <= 2107 /\ second t / 2 * 2 = second t.
Proof.
  unfold _edt_to_pdt. intros H.
  destruct (struct_unpack_uint 4 e) as [i|]; [|discriminate].
  cbn [rbind] in H. cbv zeta in H.
  pose proof (datetime_new_Ok _ _ _ _ _ _ _ H) as E. clear H.
  unfold datetime_tuple in E.
  assert (Hy : year t = 1980 + Z.land (Z.shiftr i 25) 127) by congruence.
  assert (Hs : second t = Z.land i 31 * 2) by congruence. clear E.
  rewrite Hy, Hs. split.
  - change 127 with (Z.ones 7). rewrite Z.land_ones by lia.
    pose proof (Z.mod_pos_bound (Z.shiftr i 25) (2 ^ 7) ltac:(lia)).
    change (2 ^ 7) with 128 in *. lia.
  - rewrite Z.div_mul by lia. reflexivity.
Qed.

Lemma _parsedirentry_time (raw : bytes) (fn : str) (a : Z) (m : datetime)
  (cl sz : Z) :
  _parsedirentry raw = Ok (Entry fn a m cl sz) ->
  1980 <= year m <= 2107 /\ second m / 2 * 2 = second m.
Proof.
  unfold _parsedirentry. intros H.
  destruct (index raw 0) as [b0|]; [|discriminate]. cbn [rbind] in H.
  destruct (b0 =? 0); [discriminate|].
  destruct (b0 =? 229); [discriminate|].
  destruct (_efn_to_cfn (slice_to raw 11)) as [fn'|]; [|discriminate].
  cbn [rbind] in H.
  destruct (index raw 11) as [a'|]; [|discriminate]. cbn [rbind] in H.
  destruct (_edt_to_pdt (slice raw 22 26)) as [m'|] eqn:Em; [|discriminate].
  cbn [rbind] in H.
  destruct (struct_unpack_uint 2 (slice raw 26 28)) as [cl'|]; [|discriminate].
  cbn [rbind] in H.
  destruct (struct_unpack_uint 4 (slice raw 28 32)) as [sz'|]; [|discriminate].
  cbn [rbind] in H. injection H as _ _ <- _ _.
  exact (_edt_to_pdt_range _ _ Em).
Qed.

(** An entry made again at its slot, with a new name or new attributes. *)
Lemma remake_slot (name : str) (a' : Z) (st st' : FAT12)
  (fc fo : Z) (m : datetime) (cl sz : Z) :
  wf_volume st = true ->
  0 <= fo -> fc = 1 \/ 2 <= fc ->
  1980 <= year m <= 2107 -> second m / 2 * 2 = second m ->
  (forall x s, name = x :: s -> x <> 0) ->
  (entry <- _makedirentry (NameStr name) a' (Some m) cl sz ;;
   _writedirentry fc fo entry) st = (Ok tt, st') ->
  _fat st' = _fat st /\
  exists raw' fn',
    fst (_readdirentry fc fo st') = Ok raw' /\
    _parsedirentry raw' = Ok (Entry fn' a' m cl sz).
Proof.
  intros Hwf Hfo Hfc Hy Hs Hfn H.
  destruct (wf_volume_spec _ Hwf)
    as (W1 & W2 & W3 & W4 & W5 & W6 & W7 & W8 & W9 & W10 & W11 & W12 & W13).
  destruct (slot_region_facts st fc Hwf Hfc) as (R1 & R2 & _).
  apply bind_Ok in H. destruct H as (entry & st1 & Hm & Hw).
  destruct (_makedirentry_parse_fields name _ cl sz (Some m) entry st st1
              Hy Hfn Hm) as (-> & L32 & fn' & t' & Pe & Pt).
  cbv zeta in Pt. rewrite Hs in Pt.
  assert (Et : t' = m) by (apply datetime_eq; exact Pt). subst t'.
  destruct (_writedirentry_slot _ _ _ _ _ W3 Hfo R2 Hw)
    as ((d' & ->) & S1 & S2 & S3 & S4 & _).
  split; [reflexivity|].
  exists entry, fn'. split; [|exact Pe].
  rewrite _readdirentry_slot.
  - cbn [fst]. f_equal. exact S4.
  - exact W3.
  - exact S2.
  - change (image_data (set_image st (FloppyImage.set_data (_image st) d')))
      with d' in *.
    change (slot_region (set_image st (FloppyImage.set_data (_image st) d')) fc)
      with (slot_region st fc).
    lia.
Qed.

Lemma parse_slot_of_raw (fc fo : Z) (st : FAT12) (raw : bytes) (fn : str)
  (a : Z) (m : datetime) (cl sz : Z) :
  fst (_readdirentry fc fo st) = Ok raw ->
  _parsedirentry raw = Ok (Entry fn a m cl sz) ->
  fst (parse_slot fc fo st) = Ok (fn, a, m, cl, sz).
Proof.
  intros Hraw Hp. unfold parse_slot.
  rewrite bind_readonly by apply readonly_readdirentry.
  rewrite Hraw. unfold bind, lift. rewrite Hp. reflexivity.
Qed.

(** X25.  [set_attributes] changes the four bits of [0x27] (read-only,
    hidden, system, archive) to those of its argument and keeps the bits
    of [0xD8], the directory bit among them: on a well-formed volume,
    when the call returns, the slot of the path holds an entry with these
    attributes and with the time, the starting cluster and the size it
    had; the FAT is not touched. *)
Theorem set_attributes_bits (p : str) (attrib : Z) (st st' : FAT12)
  (c fc fo : Z) (raw : bytes) (b0 : Z) (fn : str) (a : Z) (m : datetime)
  (cl sz : Z) :
  wf_volume st = true ->
  fst (_resolvepath p false st) = Ok (Some (c, fc, fo)) ->
  0 <= fo -> fc = 1 \/ 2 <= fc ->
  fst (_readdirentry fc fo st) = Ok raw ->
  index raw 0 = Ok b0 -> is_byte b0 = true ->
  _parsedirentry raw = Ok (Entry fn a m cl sz) ->
  set_attributes p attrib st = (Ok tt, st') ->
  _fat st' = _fat st /\
  exists raw' fn',
    fst (_readdirentry fc fo st') = Ok raw' /\
    _parsedirentry raw'
    = Ok (Entry fn' (Z.lor (Z.land a 0xD8) (Z.land attrib 0x27)) m cl sz).
Proof.
  intros Hwf Hr Hfo Hfc Hraw Hb0 Hbyte Hp H.
  pose proof (parse_slot_of_raw _ _ _ _ _ _ _ _ _ Hraw Hp) as Hps.
  unfold set_attributes in H.
  rewrite bind_readonly in H by apply readonly_resolvepath. rewrite Hr in H.
  rewrite bind_readonly in H by apply readonly_parse_slot. rewrite Hps in H.
  cbv zeta in H.
  destruct (negb (c =? 1) && is_dotfile fn); [discriminate H|].
  destruct (_parsedirentry_time _ _ _ _ _ _ Hp) as [Hy Hs].
  pose proof (parsedirentry_name_head _ _ _ _ _ _ _ Hb0 Hbyte Hp) as Hfn.
  exact (remake_slot fn _ st st' fc fo m cl sz Hwf Hfo Hfc Hy Hs Hfn H).
Qed.

Lemma set_attributes_bits_witness :
  _fat (volume tiny_a_readonly) = _fat (volume tiny_a) /\
  exists raw' fn',
    fst (_readdirentry 1 0 (volume tiny_a_readonly)) = Ok raw' /\
    _parsedirentry raw'
    = Ok (Entry fn' (Z.lor (Z.land 0x20 0xD8) (Z.land 0x01 0x27))
            (mk_datetime 2024 5 17 10 30 44 eq_refl) 2 1).
Proof.
  apply (set_attributes_bits (py "/A.TXT") 0x01 (volume tiny_a)
           (volume tiny_a_readonly) 1 1 0
           (py "A       TXT" ++ [0x20; 0; 0; 0; 0; 0; 0; 0; 0; 0; 0;
                                 214; 83; 177; 88; 2; 0; 1; 0; 0; 0])
           65 (py "A.TXT"));
    try (vm_compute; reflexivity).
  - lia.
  - left. reflexivity.
Defined.



(** ** The length of what [_readfile] returns *)

Lemma _readfile_loop_length (sz : Z) (count : nat) :
  forall (i c : Z) (acc data : bytes) (st st' : FAT12),
    image_bps st = 512 -> sectors_per_cluster (params st) = 1 ->
    _readfile_loop (range_from i 512 count) sz c acc st = (Ok data, st') ->
    0 <= i -> Zlength acc = i ->
    (count <> O ->
     i + 512 * (Z.of_nat count - 1) < sz /\ sz <= i + 512 * Z.of_nat count) ->
    Zlength data = if Nat.eqb count 0 then i else sz.
Proof.
  induction count as [|count IH]; intros i c acc data st st' Hb Hs H Hi Ha Hc.
  - cbn [range_from _readfile_loop] in H. apply ret_Ok in H.
    destruct H as [-> _]. exact Ha.
  - cbn [range_from _readfile_loop] in H. cbn [Nat.eqb].
    specialize (Hc ltac:(discriminate)).
    apply bind_Ok in H. destruct H as (r & st1 & Hr & H).
    rewrite (_readcluster_sector _ _ Hs) in Hr.
    pose proof (readonly_Ok _ _ _ _ (readonly_image_read_sectors _ _) Hr)
      as [-> Hr'].
    apply image_read_sectors_Ok in Hr'; [|exact Hb].
    destruct Hr' as (R1 & R2 & R3).
    assert (Lr : Zlength r = 512).
    { rewrite R3. replace (1 * 512) with 512 by ring.
      apply Zlength_slice; lia. }
    apply bind_Ok in H. destruct H as (nc & st2 & Hn & H).
    pose proof (readonly_Ok _ _ _ _ (readonly_fat_get _) Hn) as [-> _].
    assert (La : Zlength (acc ++ slice_to r (sz - i)) = Z.min (i + 512) sz).
    { rewrite Zlength_app, Ha. rewrite slice_to_nonneg by lia.
      rewrite (Zlength_length (firstn _ _)), length_firstn.
      rewrite Zlength_length in Lr. lia. }
    destruct count as [|count].
    + cbn [range_from _readfile_loop] in H. apply ret_Ok in H.
      destruct H as [-> _]. rewrite La. cbn in Hc. lia.
    + specialize (IH (i + 512) nc _ data st st' Hb Hs H ltac:(lia)).
      cbn [Nat.eqb] in IH. apply IH.
      * rewrite La. lia.
      * intros _. lia.
Qed.

(** X26.  On a well-formed volume a read that returns gives exactly as
    many bytes as the size field of the directory entry says: every
    cluster of the chain contributes its 512 bytes, the last one what is
    left of the size. *)
Theorem _readfile_returns_size (fc fo : Z) (st st' : FAT12) (data : bytes)
  (fn : str) (a : Z) (m : datetime) (cl sz : Z) :
  wf_volume st = true ->
  fst (parse_slot fc fo st) = Ok (fn, a, m, cl, sz) ->
  _readfile fc fo st = (Ok data, st') ->
  Zlength data = Z.max 0 sz.
Proof.
  intros Hwf Hp H.
  destruct (wf_volume_spec _ Hwf)
    as (W1 & W2 & W3 & W4 & W5 & W6 & W7 & W8 & W9 & W10 & W11 & W12 & W13).
  unfold _readfile in H. unfold bind at 1 in H. unfold gets at 1 in H.
  rewrite bind_readonly in H by apply readonly_parse_slot.
  rewrite Hp in H. cbv zeta in H.
  destruct (negb (Z.land a 16 =? 0)); [discriminate H|].
  rewrite W1, W2 in H. change (512 * 1) with 512 in H.
  unfold range in H.
  replace (sz - 0 + 512 - 1) with (sz + 511) in H by ring.
  destruct (Z_le_gt_dec sz 0) as [L|L].
  - assert (E : Z.to_nat ((sz + 511) / 512) = O).
    { assert ((sz + 511) / 512 <= 0); [|lia].
      apply Z.lt_succ_r. apply Z.div_lt_upper_bound; lia. }
    rewrite E in H. cbn [range_from _readfile_loop] in H.
    apply ret_Ok in H. destruct H as [-> _]. rewrite Zlength_nil. lia.
  - destruct (clusters_of_size sz ltac:(lia)) as (C1 & C2 & C3).
    pose proof (_readfile_loop_length sz _ 0 cl [] data st st' W3 W2 H
                  ltac:(lia) (Zlength_nil _)) as E.
    destruct (Nat.eqb (Z.to_nat ((sz + 511) / 512)) 0) eqn:E0.
    + apply Nat.eqb_eq in E0. lia.
    + rewrite E; [lia|]. intros _. rewrite Z2Nat.id by lia. lia.
Qed.

Lemma _readfile_returns_size_witness :
  Zlength (py "x") = Z.max 0 1.
Proof.
  apply (_readfile_returns_size 1 0 (volume tiny_a) (volume tiny_a) (py "x")
           (py "A.TXT") 0x20 (mk_datetime 2024 5 17 10 30 44 eq_refl) 2 1);
    vm_compute; reflexivity.
Defined.

(** ** [copy] to a directory, free directory slots, empty writes *)

(** X27.  [copy] does not copy into a directory, whatever its docstring
    says: when the destination names a directory, the call builds the
    path of the new file and then reaches a use of the name [at_root],
    which nothing in [copy] or in the module binds, and raises
    [NameError]; the object is left as it was. *)
Theorem copy_to_directory_raises (source destination : str) (ro : bool)
  (st : FAT12) (sc sfc sfo dc dfc dfo : Z)
  (fn : str) (a : Z) (m : datetime) (cl sz : Z)
  (dfn : str) (da : Z) (dm : datetime) (dcl dsz : Z) :
  fst (_resolvepath source false st) = Ok (Some (sc, sfc, sfo)) ->
  fst (_resolvepath destination false st) = Ok (Some (dc, dfc, dfo)) ->
  (sfc, sfo) <> (dfc, dfo) ->
  fst (parse_slot sfc sfo st) = Ok (fn, a, m, cl, sz) ->
  fst (parse_slot dfc dfo st) = Ok (dfn, da, dm, dcl, dsz) ->
  Z.land da 0x10 = 0x10 ->
  copy source destination ro st = (Raise (NameError "at_root"), st).
Proof.
  intros Hs Hd Hne Hps Hpd Hda.
  unfold copy. rewrite bind_readonly by apply readonly_resolvepath.
  rewrite Hs. rewrite bind_readonly by apply readonly_resolvepath.
  rewrite Hd.
  destruct ((sfc =? dfc) && (sfo =? dfo)) eqn:E.
  - exfalso. apply andb_prop in E. destruct E as [E1 E2].
    apply Z.eqb_eq in E1, E2. apply Hne. congruence.
  - unfold bind at 1. unfold ret at 1.
    rewrite bind_readonly by apply readonly_parse_slot. rewrite Hps.
    rewrite bind_readonly by apply readonly_parse_slot. rewrite Hpd.
    apply Z.eqb_eq in Hda. rewrite Hda. reflexivity.
Qed.

Lemma copy_to_directory_raises_witness :
  copy (py "/A.TXT") (py "/SUB") false (volume tiny_sub_a)
  = (Raise (NameError "at_root"), volume tiny_sub_a).
Proof.
  apply (copy_to_directory_raises (py "/A.TXT") (py "/SUB") false
           (volume tiny_sub_a) 1 1 32 1 1 0
           (py "A.TXT") 0x20 (mk_datetime 2024 5 17 10 30 44 eq_refl) 3 1
           (py "SUB") 0x10 (mk_datetime 2024 5 17 10 30 44 eq_refl) 2 0);
    try (vm_compute; reflexivity).
  intros E. discriminate E.
Defined.

Lemma _allocdirentrycluster_loop_spec (sector : bytes) (k : nat) (a : Z) :
  0 <= a -> a + 32 * (Z.of_nat k - 1) < Zlength sector ->
  match _allocdirentrycluster_loop sector (range_from a 32 k) with
  | Ok (Some i) =>
      (exists n, 0 <= n < Z.of_nat k /\ i = a + 32 * n /\
         forall n', 0 <= n' < n ->
           exists b, index sector (a + 32 * n') = Ok b /\ b <> 0 /\ b <> 0xE5) /\
      (index sector i = Ok 0 \/ index sector i = Ok 0xE5)
  | Ok None =>
      forall n, 0 <= n < Z.of_nat k ->
        exists b, index sector (a + 32 * n) = Ok b /\ b <> 0 /\ b <> 0xE5
  | Raise _ => False
  end.
Proof.
  revert a. induction k as [|k IH]; intros a Ha Hk.
  - cbn [range_from _allocdirentrycluster_loop]. intros n Hn. lia.
  - cbn [range_from _allocdirentrycluster_loop].
    destruct (index_Ok_in sector a ltac:(lia)) as (b & Eb). rewrite Eb.
    cbn [rbind]. unfold mem. cbn [existsb]. rewrite orb_false_r.
    destruct (b =? 0) eqn:E0; cbn [orb negb].
    + apply Z.eqb_eq in E0. subst b. split; [|left; exact Eb].
      exists 0. split; [lia|]. split; [ring|]. intros n' Hn'. lia.
    + destruct (b =? 229) eqn:E5; cbn [negb].
      * apply Z.eqb_eq in E5. subst b. split; [|right; exact Eb].
        exists 0. split; [lia|]. split; [ring|]. intros n' Hn'. lia.
      * apply Z.eqb_neq in E0, E5.
        destruct k as [|k'].
        -- cbn [range_from _allocdirentrycluster_loop]. intros n Hn.
           replace (a + 32 * n) with a by lia.
           exists b. repeat split; assumption.
        -- specialize (IH (a + 32) ltac:(lia) ltac:(lia)).
           destruct (_allocdirentrycluster_loop sector _) as [[i|]|e].
           ++ destruct IH as ((n & N1 & N2 & N3) & I2). split; [|exact I2].
              exists (n + 1). split; [lia|]. split; [lia|].
              intros n' Hn'. destruct (Z.eq_dec n' 0) as [->|Hz].
              ** replace (a + 32 * 0) with a by lia. exists b.
                 repeat split; assumption.
              ** destruct (N3 (n' - 1) ltac:(lia)) as (b' & B1 & B2).
                 exists b'. split; [|exact B2].
                 replace (a + 32 * n') with (a + 32 + 32 * (n' - 1)) by ring.
                 exact B1.
           ++ intros n Hn. destruct (Z.eq_dec n 0) as [->|Hz].
              ** replace (a + 32 * 0) with a by lia. exists b.
                 repeat split; assumption.
              ** destruct (IH (n - 1) ltac:(lia)) as (b' & B1 & B2).
                 exists b'. split; [|exact B2].
                 replace (a + 32 * n) with (a + 32 + 32 * (n - 1)) by ring.
                 exact B1.
           ++ exact IH.
Qed.

(** X28.  The slot [_allocdirentrycluster] gives for a new entry is the
    first free one: of the slots of 32 bytes from [offset] on it returns
    the offset of the first whose first byte is 0x00 (never used) or 0xE5
    (deleted), so the slot of a deleted entry is taken again; every slot
    before it is in use.  It returns [None] exactly when every slot is in
    use. *)
Theorem _allocdirentrycluster_first_free (sector : bytes) (offset : Z) :
  0 <= offset -> offset mod 32 = 0 ->
  match _allocdirentrycluster sector offset with
  | Ok (Some i) =>
      (exists n, 0 <= n /\ i = offset + 32 * n /\ i < Zlength sector /\
         forall n', 0 <= n' < n ->
           exists b, index sector (offset + 32 * n') = Ok b /\
                     b <> 0 /\ b <> 0xE5) /\
      (index sector i = Ok 0 \/ index sector i = Ok 0xE5)
  | Ok None =>
      forall n, 0 <= n -> offset + 32 * n < Zlength sector ->
        exists b, index sector (offset + 32 * n) = Ok b /\ b <> 0 /\ b <> 0xE5
  | Raise _ => False
  end.
Proof.
  intros H0 Hm. unfold _allocdirentrycluster.
  apply Z.eqb_eq in Hm. rewrite Hm. cbn [rassert rbind]. unfold range.
  replace (Zlength sector - offset + 32 - 1)
    with (Zlength sector - offset + 31) by ring.
  set (q := (Zlength sector - offset + 31) / 32).
  pose proof (Z.div_mod (Zlength sector - offset + 31) 32 ltac:(lia)) as D.
  pose proof (Z.mod_pos_bound (Zlength sector - offset + 31) 32 ltac:(lia)) as B.
  fold q in D.
  destruct (Z_le_gt_dec q 0) as [L|L].
  - replace (Z.to_nat q) with O by lia.
    cbn [range_from _allocdirentrycluster_loop]. intros n Hn Hlt. lia.
  - pose proof (_allocdirentrycluster_loop_spec sector (Z.to_nat q) offset H0
                  ltac:(lia)) as S.
    destruct (_allocdirentrycluster_loop sector _) as [[i|]|e]; [| |exact S].
    + destruct S as ((n & N1 & N2 & N3) & S2). split; [|exact S2].
      exists n. split; [lia|]. split; [exact N2|]. split; [lia|exact N3].
    + intros n Hn Hlt. apply S. lia.
Qed.

Lemma _allocdirentrycluster_first_free_witness :
  match _allocdirentrycluster
          (65 :: zeros 31 ++ 0xE5 :: zeros 31 ++ zeros 32) 0 with
  | Ok (Some i) =>
      (exists n, 0 <= n /\ i = 0 + 32 * n /\
         i < Zlength (65 :: zeros 31 ++ 0xE5 :: zeros 31 ++ zeros 32) /\
         forall n', 0 <= n' < n ->
           exists b,
             index (65 :: zeros 31 ++ 0xE5 :: zeros 31 ++ zeros 32)
               (0 + 32 * n') = Ok b /\ b <> 0 /\ b <> 0xE5) /\
      (index (65 :: zeros 31 ++ 0xE5 :: zeros 31 ++ zeros 32) i = Ok 0 \/
       index (65 :: zeros 31 ++ 0xE5 :: zeros 31 ++ zeros 32) i = Ok 0xE5)
  | Ok None =>
      forall n, 0 <= n ->
        0 + 32 * n < Zlength (65 :: zeros 31 ++ 0xE5 :: zeros 31 ++ zeros 32) ->
        exists b,
          index (65 :: zeros 31 ++ 0xE5 :: zeros 31 ++ zeros 32) (0 + 32 * n)
          = Ok b /\ b <> 0 /\ b <> 0xE5
  | Raise _ => False
  end.
Proof.
  apply (_allocdirentrycluster_first_free
           (65 :: zeros 31 ++ 0xE5 :: zeros 31 ++ zeros 32) 0);
    [lia|reflexivity].
Defined.

(** X29.  Writing no bytes to a file that has none changes nothing: when
    the entry of the path has no cluster and size 0, [write_file] with
    empty contents returns without allocating, without a new modification
    time in the entry and without a commit. *)
Theorem write_file_empty_to_empty (p : str) (ro : bool) (st : FAT12)
  (c fc fo : Z) (fn : str) (a : Z) (m : datetime) :
  fst (_resolvepath p false st) = Ok (Some (c, fc, fo)) ->
  fst (parse_slot fc fo st) = Ok (fn, a, m, 0, 0) ->
  Z.land a 0x10 = 0 -> ro = true \/ Z.land a 1 <> 1 ->
  write_file p [] ro st = (Ok tt, st).
Proof.
  intros Hr Hp Ha Hro. apply Z.eqb_eq in Ha.
  unfold write_file. rewrite bind_readonly by apply readonly_resolvepath.
  rewrite Hr. unfold bind at 1. unfold ret at 1.
  unfold _writefile. unfold bind at 1. unfold gets at 1.
  rewrite bind_readonly by apply readonly_parse_slot. rewrite Hp.
  cbv zeta. rewrite Ha. cbn [negb].
  assert (G : negb ro && (Z.land a 1 =? 1) = false).
  { destruct Hro as [->|Hn]; [reflexivity|].
    apply Z.eqb_neq in Hn. rewrite Hn. apply andb_false_r. }
  rewrite G. reflexivity.
Qed.

Lemma write_file_empty_to_empty_witness :
  write_file (py "/E.TXT") [] false (volume tiny_e) = (Ok tt, volume tiny_e).
Proof.
  apply (write_file_empty_to_empty (py "/E.TXT") false (volume tiny_e)
           1 1 0 (py "E.TXT") 0x20 (mk_datetime 2024 5 17 10 30 44 eq_refl));
    try (vm_compute; reflexivity).
  right. vm_compute. discriminate.
Defined.
